(** * tiddlywebplugins.markdown: the link-pattern layer

    A shallow embedding of [src/tiddlywebplugins/markdown.py]: the pattern
    table [PATTERNS], the callbacks [FreeLinker] and [SpaceLinker], the
    substitution pass [Markdown._do_link_patterns] and the registry built by
    [render].

    Python byte strings are lists of characters, exceptions are the second
    constructor of a result type, a dict keeps its entries in the order in
    which their keys were first assigned, and the collaborators that live
    outside the module (markdown2's hashing and escape table, tiddlyspace's
    [space_uri], tiddlyweb's [encode_name], markdown2's converter) are
    section variables. *)

From Stdlib Require Import List Ascii Arith Lia Bool NArith PeanoNat Permutation.
From Stdlib Require String.
Import ListNotations.
Import String.StringSyntax.
Local Open Scope string_scope.
Local Open Scope list_scope.

Set Implicit Arguments.

(** ** Python values and builtins *)

Definition str := list ascii.

Definition lit (s : String.string) : str := String.list_ascii_of_string s.

(** The double-quote character. *)
Definition dquote : ascii := "034".

Module Py.

(** [s[a:b]] for non-negative indices (out-of-range indices are clamped,
    as Python does). *)
Definition slice (s : str) (a b : nat) : str := firstn (b - a) (skipn a s).

(** [s[:a]] and [s[b:]]. *)
Definition upto (s : str) (a : nat) : str := firstn a s.
Definition from (s : str) (b : nat) : str := skipn b s.

Fixpoint startswith (s p : str) {struct p} : bool :=
  match p, s with
  | [], _ => true
  | _ :: _, [] => false
  | c :: p', d :: s' => Ascii.eqb c d && startswith s' p'
  end.

(** [old in s]. *)
Fixpoint contains (s old : str) : bool :=
  startswith s old ||
  match s with
  | [] => false
  | _ :: s' => contains s' old
  end.

(** [s.replace(old, new)]: every non-overlapping occurrence of [old],
    scanning from the left.  [skip] counts the characters of an occurrence
    that was just replaced and is still to be dropped.  With an empty
    [old] Python inserts [new] before every character and at the end. *)
Fixpoint replace_scan (old new : str) (skip : nat) (s : str) : str :=
  match s with
  | [] => []
  | c :: s' =>
      match skip with
      | S k => replace_scan old new k s'
      | O =>
          if startswith s old
          then new ++ replace_scan old new (length old - 1) s'
          else c :: replace_scan old new 0 s'
      end
  end.

Definition replace (s old new : str) : str :=
  match old with
  | [] => new ++ flat_map (fun c => c :: new) s
  | _ :: _ => replace_scan old new 0 s
  end.

(** [s.split(sep, 1)] for a one-character separator: one piece when [sep]
    does not occur, otherwise the text before and after its first
    occurrence. *)
Fixpoint split_max1 (sep : ascii) (s : str) : list str :=
  match s with
  | [] => [[]]
  | c :: s' =>
      if Ascii.eqb c sep then [[]; s']
      else match split_max1 sep s' with
           | h :: t => (c :: h) :: t
           | [] => [[c]]
           end
  end.

End Py.

(** ** Exceptions *)

Section Results.

(** [E] is the type of whatever the tenant resolver raises. *)
Variable E : Type.

Inductive exn : Type :=
| IndexError
| KeyError
| TypeError
| ReError
| Raised (e : E).

Inductive result (A : Type) : Type :=
| OK (a : A)
| Err (x : exn).

Arguments Err {A} x.

Definition bind {A B : Type} (m : result A) (f : A -> result B) : result B :=
  match m with
  | OK a => f a
  | Err x => Err x
  end.

Fixpoint mapM {A B : Type} (f : A -> result B) (l : list A) : result (list B) :=
  match l with
  | [] => OK []
  | a :: l' =>
      bind (f a) (fun b => bind (mapM f l') (fun bs => OK (b :: bs)))
  end.

Fixpoint foldM {A S : Type} (f : S -> A -> result S) (l : list A) (s : S) : result S :=
  match l with
  | [] => OK s
  | a :: l' => bind (f s a) (foldM f l')
  end.

End Results.

Arguments IndexError {E}.
Arguments KeyError {E}.
Arguments TypeError {E}.
Arguments ReError {E}.
Arguments Raised {E} e.
Arguments OK {E A} a.
Arguments Err {E A} x.

Notation "x <- m ;; k" := (bind m (fun x => k))
(at level 61, m at next level, right associativity).

(** ** Regular expressions

    The fragment of Python's [re] that [PATTERNS] is written in.  A match
    attempt at a position returns every way to match, in the order in which a
    backtracking matcher tries them, so the head of the list is the match
    Python reports. *)

Inductive citem : Type :=
| CChar (c : ascii)            (* a literal member of a set *)
| CRange (lo hi : ascii)       (* [lo-hi] *)
| CWord                        (* \w *)
| CSpace.                      (* \s *)

Inductive cls : Type :=
| Dot                          (* . : anything but a newline *)
| OneOf (items : list citem).  (* [...] , \w , \s *)

Inductive regex : Type :=
| Eps
| Chr (c : ascii)
| Cls (k : cls)
| Seq (r1 r2 : regex)
| Alt (r1 r2 : regex)
| Opt (r : regex)                           (* r? *)
| Rep (greedy : bool) (min : nat) (k : cls) (* k* , k+ , k+? *)
| Group (n : nat) (r : regex)               (* the n-th capturing group *)
| Bol                                       (* ^ *)
| Eol                                       (* $ *)
| WordBoundary                              (* \b *)
| LookBehind (positive : bool) (r : regex). (* (?<=r) and (?<!r) *)

Definition code (c : ascii) : N := N_of_ascii c.

Definition is_word (c : ascii) : bool :=
  ((code "a" <=? code c) && (code c <=? code "z"))%N ||
  ((code "A" <=? code c) && (code c <=? code "Z"))%N ||
  ((code "0" <=? code c) && (code c <=? code "9"))%N ||
  Ascii.eqb c "_".

(** [\s] on byte strings: space, \t, \n, \v, \f, \r. *)
Definition is_space (c : ascii) : bool :=
  (code c =? 32)%N || ((9 <=? code c) && (code c <=? 13))%N.

Definition in_item (c : ascii) (i : citem) : bool :=
  match i with
  | CChar d => Ascii.eqb c d
  | CRange lo hi => ((code lo <=? code c) && (code c <=? code hi))%N
  | CWord => is_word c
  | CSpace => is_space c
  end.

Definition in_cls (k : cls) (c : ascii) : bool :=
  match k with
  | Dot => negb (code c =? 10)%N
  | OneOf items => existsb (in_item c) items
  end.

(** Length of the longest run of characters of [k] at the head of [s]. *)
Fixpoint run (k : cls) (s : str) : nat :=
  match s with
  | [] => 0
  | c :: s' => if in_cls k c then S (run k s') else 0
  end.

(** Captures: group number, start and end offset, latest first. *)
Definition caps := list (nat * (nat * nat)).

Definition word_at (s : str) (i : nat) : bool :=
  match nth_error s i with
  | Some c => is_word c
  | None => false
  end.

Definition at_boundary (s : str) (i : nat) : bool :=
  xorb (match i with O => false | S j => word_at s j end) (word_at s i).

Definition at_eol (s : str) (i : nat) : bool :=
  (i =? length s) ||
  ((S i =? length s) &&
   match nth_error s i with Some c => (code c =? 10)%N | None => false end).

Definition ends_at (i : nat) (x : nat * caps) : bool := fst x =? i.

Fixpoint mt (r : regex) (s : str) (i : nat) (cs : caps) : list (nat * caps) :=
  match r with
  | Eps => [(i, cs)]
  | Chr c =>
      match nth_error s i with
      | Some x => if Ascii.eqb x c then [(S i, cs)] else []
      | None => []
      end
  | Cls k =>
      match nth_error s i with
      | Some x => if in_cls k x then [(S i, cs)] else []
      | None => []
      end
  | Seq r1 r2 => flat_map (fun x => mt r2 s (fst x) (snd x)) (mt r1 s i cs)
  | Alt r1 r2 => mt r1 s i cs ++ mt r2 s i cs
  | Opt r1 => mt r1 s i cs ++ [(i, cs)]
  | Rep greedy mn k =>
      let n := run k (skipn i s) in
      let ends := map (fun d => (i + d, cs)) (seq mn (S n - mn)) in
      if greedy then rev ends else ends
  | Group n r1 =>
      map (fun x => (fst x, (n, (i, fst x)) :: snd x)) (mt r1 s i cs)
  | Bol => if i =? 0 then [(i, cs)] else []
  | Eol => if at_eol s i then [(i, cs)] else []
  | WordBoundary => if at_boundary s i then [(i, cs)] else []
  | LookBehind positive r1 =>
      let found :=
        existsb (fun k => existsb (ends_at i) (mt r1 s k cs)) (seq 0 (S i)) in
      if Bool.eqb found positive then [(i, cs)] else []
  end.

(** Number of capturing groups. *)
Fixpoint ngroups (r : regex) : nat :=
  match r with
  | Seq r1 r2 | Alt r1 r2 => Nat.max (ngroups r1) (ngroups r2)
  | Opt r1 | LookBehind _ r1 => ngroups r1
  | Group n r1 => Nat.max n (ngroups r1)
  | _ => 0
  end.

(** A match object: [span()] and [groups()].  Every group of every pattern
    in [PATTERNS] takes part in every match; a group that took no part
    (Python's [None]) is read as the empty string. *)
Record Match : Type := mkMatch {
  span : nat * nat;
  groups : list str
}.

Fixpoint capture (n : nat) (cs : caps) : option (nat * nat) :=
  match cs with
  | [] => None
  | (m, se) :: cs' => if m =? n then Some se else capture n cs'
  end.

Definition group_text (s : str) (cs : caps) (n : nat) : str :=
  match capture n cs with
  | Some (a, b) => Py.slice s a b
  | None => []
  end.

Definition match_of (r : regex) (s : str) (st en : nat) (cs : caps) : Match :=
  {| span := (st, en);
     groups := map (group_text s cs) (seq 1 (ngroups r)) |}.

(** [regex.search(s, pos)]: the leftmost position from [pos] on at which
    the pattern matches, tried at most [fuel] + 1 positions. *)
Fixpoint search_from (r : regex) (s : str) (fuel pos : nat) : option (nat * nat * caps) :=
  match mt r s pos [] with
  | (en, cs) :: _ => Some (pos, en, cs)
  | [] =>
      match fuel with
      | O => None
      | S f => search_from r s f (S pos)
      end
  end.

Definition search (r : regex) (s : str) (pos : nat) : option (nat * nat * caps) :=
  if pos <=? length s then search_from r s (length s - pos) pos else None.

(** [regex.finditer(s)]: successive non-overlapping matches.  After an
    empty match the scan resumes one character further. *)
Fixpoint finditer_from (r : regex) (s : str) (fuel pos : nat) : list Match :=
  match fuel with
  | O => []
  | S f =>
      match search r s pos with
      | None => []
      | Some (st, en, cs) =>
          match_of r s st en cs ::
          finditer_from r s f (if en =? st then S en else en)
      end
  end.

Definition finditer (r : regex) (s : str) : list Match :=
  finditer_from r s (S (S (length s))) 0.

(** ** The pattern table *)

Definition chars (s : String.string) : regex :=
  fold_right (fun c r => Seq (Chr c) r) Eps (lit s).

Definition space : cls := OneOf [CSpace].
Definition word : cls := OneOf [CWord].
Definition upper : cls := OneOf [CRange "A" "Z"].
Definition lower : cls := OneOf [CRange "a" "z"].
Definition alnum : cls := OneOf [CRange "0" "9"; CRange "a" "z"].
Definition alnum_dash : cls := OneOf [CRange "0" "9"; CRange "a" "z"; CChar "-"].
Definition url_char : cls :=
  OneOf [CChar "-"; CWord; CChar "."; CChar "/"; CChar "#"; CChar "?";
         CChar "%"; CChar "="; CChar "&"].

(** [(?:^|\s)] and [(?:\s|$)]. *)
Definition left_edge : regex := Alt Bol (Cls space).
Definition right_edge : regex := Alt (Cls space) Eol.

(** [[0-9a-z][0-9a-z\-]*[0-9a-z]] *)
Definition space_name_re : regex :=
  Seq (Cls alnum) (Seq (Rep true 0 alnum_dash) (Cls alnum)).

(** [[A-Z][a-z]+[A-Z]\w+] *)
Definition camel : regex :=
  Seq (Cls upper) (Seq (Rep true 1 lower) (Seq (Cls upper) (Rep true 1 word))).

(** [\[\[(.+?)\]\]] *)
Definition freelink : regex :=
  Seq (chars "[[") (Seq (Group 1 (Rep false 1 Dot)) (chars "]]")).

(** [((?<=\s)[A-Z][a-z]+[A-Z]\w+\b)] *)
Definition wikilink : regex :=
  Group 1 (Seq (LookBehind true (Cls space)) (Seq camel WordBoundary)).

(** [(?<!">|=")(https?://[-\w./#?%=&]+)] *)
Definition barelink : regex :=
  Seq (LookBehind false (Alt (Seq (Chr dquote) (chars ">")) (Seq (Chr "=") (Chr dquote))))
      (Group 1 (Seq (chars "http")
                 (Seq (Opt (Chr "s")) (Seq (chars "://") (Rep true 1 url_char))))).

(** [(?:^|\s)@([0-9a-z][0-9a-z\-]*[0-9a-z])(?:\s|$)] *)
Definition spacelink : regex :=
  Seq left_edge (Seq (Chr "@") (Seq (Group 1 space_name_re) right_edge)).

(** [(?:^|\s)([A-Z][a-z]+[A-Z]\w+)@([0-9a-z][0-9a-z\-]*[0-9a-z])(?:\s|$)] *)
Definition spacewikilink : regex :=
  Seq left_edge
      (Seq (Group 1 camel) (Seq (Chr "@") (Seq (Group 2 space_name_re) right_edge))).

(** [(?:^|\s)\[\[(.+?)\]\]@([0-9a-z][0-9a-z\-]*[0-9a-z])(?:\s|$)] *)
Definition spacefreelink : regex :=
  Seq left_edge
      (Seq (chars "[[")
         (Seq (Group 1 (Rep false 1 Dot))
            (Seq (chars "]]")
               (Seq (Chr "@") (Seq (Group 2 space_name_re) right_edge))))).

(** ** Dictionaries

    A dict as a list of entries in the order in which their keys were first
    assigned (the order [items()] follows since Python 3.7; older
    interpreters promise none): assigning to a key that is present keeps its
    place.  Where the outcome of the loop over [items()] depends on the
    order of the entries, the theorems say which order they speak of. *)

Fixpoint dict_get {K V : Type} (eqb : K -> K -> bool) (d : list (K * V)) (k : K) : option V :=
  match d with
  | [] => None
  | (k', v) :: d' => if eqb k' k then Some v else dict_get eqb d' k
  end.

Fixpoint dict_set {K V : Type} (eqb : K -> K -> bool) (d : list (K * V)) (k : K) (v : V) : list (K * V) :=
  match d with
  | [] => [(k, v)]
  | (k', v') :: d' =>
      if eqb k' k then (k', v) :: d' else (k', v') :: dict_set eqb d' k v
  end.

Fixpoint str_eqb (a b : str) : bool :=
  match a, b with
  | [], [] => true
  | c :: a', d :: b' => Ascii.eqb c d && str_eqb a' b'
  | _, _ => false
  end.

(** Closes a goal [~ In c l] for a literal [l]. *)
Ltac absent :=
  let H := fresh in
  intros H; vm_compute in H;
  repeat (destruct H as [H|H]; [discriminate H|]); exact H.

(** ** The module *)

Definition config := list (String.string * str).

(** The WSGI environment: the ['tiddlyweb.config'] entry and the rest, which
    only the tenant resolver reads. *)
Record environ (W : Type) : Type := mkEnviron {
  tiddlyweb_config : option config;
  wsgi : W
}.

Record Tiddler : Type := mkTiddler { text : str }.

(** What a callback hands back: a pair (a 2-tuple of a string and a string
    or [None]), a single string, or an object that cannot be iterated. *)
Inductive components : Type :=
| Pair (href : str) (title : option str)
| Scalar (s : str)
| NotIterable.

(** How markdown2 drives the link-pattern extra: the converter is a client
    that may run the pass on pieces of text of its choosing, any number of
    times, and ends with the HTML. *)
Inductive conversion : Type :=
| Html (html : str)
| LinkPatterns (piece : str) (k : str -> conversion).

(** ** An instance of the converter's utilities

    markdown2 keeps [g_escape_table] and [_hash_text] to itself, and the
    development is parametric in them.  For running the model this instance
    takes a hash to be [md5-] followed by the MD5 hex digest of the text,
    and the escape-table entry of a character to be the hash of that
    character: the shape of markdown2's tokens, without the salt the
    library may add to the digest. *)

Module MD5.

Local Open Scope N_scope.

Definition K : list N :=
  [
   0xd76aa478; 0xe8c7b756; 0x242070db; 0xc1bdceee;
   0xf57c0faf; 0x4787c62a; 0xa8304613; 0xfd469501;
   0x698098d8; 0x8b44f7af; 0xffff5bb1; 0x895cd7be;
   0x6b901122; 0xfd987193; 0xa679438e; 0x49b40821;
   0xf61e2562; 0xc040b340; 0x265e5a51; 0xe9b6c7aa;
   0xd62f105d; 0x02441453; 0xd8a1e681; 0xe7d3fbc8;
   0x21e1cde6; 0xc33707d6; 0xf4d50d87; 0x455a14ed;
   0xa9e3e905; 0xfcefa3f8; 0x676f02d9; 0x8d2a4c8a;
   0xfffa3942; 0x8771f681; 0x6d9d6122; 0xfde5380c;
   0xa4beea44; 0x4bdecfa9; 0xf6bb4b60; 0xbebfbc70;
   0x289b7ec6; 0xeaa127fa; 0xd4ef3085; 0x04881d05;
   0xd9d4d039; 0xe6db99e5; 0x1fa27cf8; 0xc4ac5665;
   0xf4292244; 0x432aff97; 0xab9423a7; 0xfc93a039;
   0x655b59c3; 0x8f0ccc92; 0xffeff47d; 0x85845dd1;
   0x6fa87e4f; 0xfe2ce6e0; 0xa3014314; 0x4e0811a1;
   0xf7537e82; 0xbd3af235; 0x2ad7d2bb; 0xeb86d391
  ].

Definition shifts : list N :=
  [
   7; 12; 17; 22; 7; 12; 17; 22; 7; 12; 17; 22; 7; 12; 17; 22;
   5; 9; 14; 20; 5; 9; 14; 20; 5; 9; 14; 20; 5; 9; 14; 20;
   4; 11; 16; 23; 4; 11; 16; 23; 4; 11; 16; 23; 4; 11; 16; 23;
   6; 10; 15; 21; 6; 10; 15; 21; 6; 10; 15; 21; 6; 10; 15; 21
  ].

Definition w32 (x : N) : N := N.land x 0xffffffff.

Definition rotl (x c : N) : N :=
  w32 (N.lor (N.shiftl x c) (N.shiftr x (32 - c))).

Definition not32 (x : N) : N := N.lxor x 0xffffffff.

(** Message padding: a one bit, zeros up to 56 modulo 64, and the bit
    length on eight bytes, least significant first. *)
Fixpoint le_bytes (n : nat) (x : N) : list N :=
  match n with
  | O => []
  | S n' => N.land x 0xff :: le_bytes n' (N.shiftr x 8)
  end.

Definition pad (msg : list N) : list N :=
  let len := N.of_nat (length msg) in
  let zeros := N.to_nat ((119 - len mod 64) mod 64) in
  msg ++ [0x80] ++ repeat 0 zeros ++ le_bytes 8 (8 * len).

Fixpoint le_word (bs : list N) : N :=
  match bs with
  | [] => 0
  | b :: bs' => b + 256 * le_word bs'
  end.

Fixpoint words (n : nat) (bs : list N) : list N :=
  match n with
  | O => []
  | S n' => le_word (firstn 4 bs) :: words n' (skipn 4 bs)
  end.

Definition state : Type := N * N * N * N.

Definition step (M : list N) (st : state) (i : N) : state :=
  let '(A, B, C, D) := st in
  let '(F, g) :=
    if i <? 16 then (N.lor (N.land B C) (N.land (not32 B) D), i)
    else if i <? 32 then (N.lor (N.land D B) (N.land (not32 D) C), (5 * i + 1) mod 16)
    else if i <? 48 then (N.lxor B (N.lxor C D), (3 * i + 5) mod 16)
    else (N.lxor C (N.lor B (not32 D)), (7 * i) mod 16) in
  let F' := w32 (F + A + nth (N.to_nat i) K 0 + nth (N.to_nat g) M 0) in
  (D, w32 (B + rotl F' (nth (N.to_nat i) shifts 0)), B, C).

Definition rounds : list N := map N.of_nat (seq 0 64).

Definition chunk (st : state) (M : list N) : state :=
  let '(a0, b0, c0, d0) := st in
  let '(A, B, C, D) := fold_left (step M) rounds st in
  (w32 (a0 + A), w32 (b0 + B), w32 (c0 + C), w32 (d0 + D)).

Fixpoint chunks (n : nat) (bs : list N) (st : state) : state :=
  match n with
  | O => st
  | S n' => chunks n' (skipn 64 bs) (chunk st (words 16 (firstn 64 bs)))
  end.

Definition digest (msg : list N) : list N :=
  let bs := pad msg in
  let '(A, B, C, D) :=
    chunks (length bs / 64)%nat bs (0x67452301, 0xefcdab89, 0x98badcfe, 0x10325476) in
  le_bytes 4 A ++ le_bytes 4 B ++ le_bytes 4 C ++ le_bytes 4 D.

Definition hex_digit (n : N) : ascii :=
  nth (N.to_nat n) (lit "0123456789abcdef") "0"%char.

Definition hexdigest (s : str) : str :=
  flat_map (fun b => [hex_digit (b / 16); hex_digit (b mod 16)])
           (digest (map N_of_ascii s)).

Definition _hash_text (s : str) : str := lit "md5-" ++ hexdigest s.

Definition g_escape_table (c : ascii) : str := _hash_text [c].

End MD5.

(** ** Sample collaborators

    A resolver that knows no tenant called [nosuch], a name encoding in the
    manner of [urllib.quote], and a converter that runs the link patterns
    once over the whole text and wraps the result in a paragraph. *)

Module Sample.

Definition space_uri (env : environ unit) (space_name : str) : result String.string str :=
  if str_eqb space_name (lit "nosuch")
  then Err (Raised "no such space")
  else OK (lit "http://" ++ space_name ++ lit ".example.org/").

Definition unreserved (c : ascii) : bool :=
  is_word c || existsb (Ascii.eqb c) (lit ".-!~*'()").

Definition encode_name (name : str) : str :=
  flat_map (fun c =>
              if unreserved c then [c]
              else let n := N_of_ascii c in
                   "%"%char :: [nth (N.to_nat (n / 16)) (lit "0123456789ABCDEF") "0"%char;
                                nth (N.to_nat (n mod 16)) (lit "0123456789ABCDEF") "0"%char])
           name.

Definition convert (text : str) : conversion :=
  LinkPatterns text (fun t => Html (lit "<p>" ++ t ++ lit "</p>")).

Definition env (base : option str) : environ unit :=
  {| tiddlyweb_config :=
       Some (match base with
             | Some b => [("markdown.wiki_link_base", b)]
             | None => []
             end);
     wsgi := tt |}.

End Sample.

Section Markdown.

Variable E : Type.
Variable W : Type.

(** [from tiddlywebplugins.tiddlyspace.spaces import space_uri]: whether the
    import succeeds, and the function it brings. *)
Variable has_tiddlyspace : bool.
Variable space_uri : environ W -> str -> result E str.

(** [tiddlyweb.web.util.encode_name] *)
Variable encode_name : str -> str.

(** [markdown2.g_escape_table] and [markdown2._hash_text] *)
Variable g_escape_table : ascii -> str.
Variable _hash_text : str -> str.

(** [markdown2.Markdown.convert] with the [link-patterns] extra *)
Variable convert : str -> conversion.

Inductive repl : Type :=
| Template (t : str)
| Callback (f : Match -> result E components).

Definition PATTERNS : list (String.string * regex) :=
  [("freelink", freelink); ("wikilink", wikilink); ("barelink", barelink)] ++
  (if has_tiddlyspace
   then [("spacelink", spacelink); ("spacewikilink", spacewikilink);
         ("spacefreelink", spacefreelink)]
   else []).

(** [l[i]] *)
Definition getitem {A : Type} (l : list A) (i : nat) : result E A :=
  match nth_error l i with
  | Some a => OK a
  | None => Err IndexError
  end.

(** [d[k]] *)
Definition lookup {V : Type} (d : list (String.string * V)) (k : String.string) : result E V :=
  match dict_get String.eqb d k with
  | Some v => OK v
  | None => Err KeyError
  end.

Definition SpaceLinker (env : environ W) (m : Match) : result E components :=
  let match_length := length (groups m) in
  if match_length =? 1 then
    space_name <- getitem (groups m) 0 ;;
    url <- space_uri env space_name ;;
    OK (Pair url (Some ("@"%char :: space_name)))
  else
    page_name <- getitem (groups m) 0 ;;
    space_name <- getitem (groups m) 1 ;;
    let (label, page) :=
      match Py.split_max1 "|" page_name with
      | [label; page] => (label, page)
      | _ => (page_name, page_name)
      end in
    uri <- space_uri env space_name ;;
    let url := uri ++ encode_name page in
    OK (Pair url (Some label)).

Definition FreeLinker (base : str) (m : Match) : result E components :=
  link <- getitem (groups m) 0 ;;
  let (label, page) :=
    match Py.split_max1 "|" link with
    | [label; page] => (label, page)
    | _ => (link, link)
    end in
  OK (Pair page (Some label)).

Definition is_group_digit (c : ascii) : bool :=
  ((code "1" <=? code c) && (code c <=? code "9"))%N.

(** [match.expand(template)] for templates made of plain characters and
    group references (a backslash and one digit from 1 to 9); a reference
    to a group the pattern does not have is an error, and so is any other
    escape here. *)
Fixpoint expand (t : str) (m : Match) : result E str :=
  match t with
  | [] => OK []
  | c :: t' =>
      if Ascii.eqb c "\" then
        match t' with
        | d :: t'' =>
            if is_group_digit d then
              match nth_error (groups m) (N.to_nat (code d - code "1")) with
              | Some g => rest <- expand t'' m ;; OK (g ++ rest)
              | None => Err ReError
              end
            else Err ReError
        | [] => Err ReError
        end
      else rest <- expand t' m ;; OK (c :: rest)
  end.

(** [href, title = components], with the [except ValueError] branch. *)
Definition unpack (c : components) : result E (str * option str) :=
  match c with
  | Pair href title => OK (href, title)
  | Scalar s =>
      match s with
      | [a; b] => OK ([a], Some [b])
      | _ => OK (s, None)
      end
  | NotIterable => Err TypeError
  end.

(** The body of the first inner loop: one entry of [replacements]. *)
Definition replacement (rp : repl) (m : Match) : result E (nat * nat * str * option str) :=
  match rp with
  | Callback f =>
      c <- f m ;;
      ht <- unpack c ;;
      OK (span m, fst ht, snd ht)
  | Template t =>
      href <- expand t m ;;
      OK (span m, href, None)
  end.

Definition escape_href (href : str) : str :=
  Py.replace
    (Py.replace (Py.replace href [dquote] (lit "&quot;"))
       ["*"%char] (g_escape_table "*"))
    ["_"%char] (g_escape_table "_").

(** ['<a href="%s">%s</a>' % (escaped_href, title)] *)
Definition anchor (escaped_href title : str) : str :=
  lit "<a href=" ++ [dquote] ++ escaped_href ++ [dquote] ++ lit ">" ++
  title ++ lit "</a>".

Definition link_map := list (str * str).

(** The body of the second inner loop. *)
Definition splice_one (st : str * link_map) (r : nat * nat * str * option str) : str * link_map :=
  let '(text, link_from_hash) := st in
  let '(start, end_, href, title) := r in
  let escaped_href := escape_href href in
  let title :=
    match title with
    | None | Some [] => Py.slice text start end_   (* [if not title] *)
    | Some (c :: t) => c :: t
    end in
  let link := anchor escaped_href title in
  let hash := _hash_text link in
  (Py.upto text start ++ hash ++ Py.from text end_,
   dict_set str_eqb link_from_hash hash link).

(** One turn of the outer loop. *)
Definition link_pass (st : str * link_map) (p : regex * repl) : result E (str * link_map) :=
  replacements <- mapM (replacement (snd p)) (finditer (fst p) (fst st)) ;;
  OK (fold_left splice_one (rev replacements) st).

(** The final loop over [link_from_hash.items()]. *)
Definition expand_hashes (st : str * link_map) : str :=
  fold_left (fun text hl => Py.replace text (fst hl) (snd hl)) (snd st) (fst st).

Definition _do_link_patterns (link_patterns : list (regex * repl)) (text : str) : result E str :=
  st <- foldM link_pass link_patterns (text, []) ;;
  OK (expand_hashes st).

(** [environ.get('tiddlyweb.config', {}).get('markdown.wiki_link_base', None)] *)
Definition wiki_link_base (env : environ W) : option str :=
  dict_get String.eqb
    (match tiddlyweb_config env with Some c => c | None => [] end)
    "markdown.wiki_link_base".

(** The registry [render] builds. *)
Definition link_patterns_of (env : environ W) : result E (list (regex * repl)) :=
  match wiki_link_base env with
  | Some base =>
      fl <- lookup PATTERNS "freelink" ;;
      wl <- lookup PATTERNS "wikilink" ;;
      bl <- lookup PATTERNS "barelink" ;;
      let link_patterns :=
        [(fl, Callback (FreeLinker base));
         (wl, Template (lit "\1"));
         (bl, Template (lit "\1"))] in
      if existsb (fun kv => String.eqb (fst kv) "spacelink") PATTERNS then
        foldM (fun lp pattern =>
                 re <- lookup PATTERNS pattern ;;
                 OK ((re, Callback (SpaceLinker env)) :: lp))
              ["spacelink"; "spacewikilink"; "spacefreelink"] link_patterns
      else OK link_patterns
  | None => OK []
  end.

Fixpoint run_conversion (link_patterns : list (regex * repl)) (c : conversion) : result E str :=
  match c with
  | Html html => OK html
  | LinkPatterns piece k =>
      match _do_link_patterns link_patterns piece with
      | OK piece' => run_conversion link_patterns (k piece')
      | Err x => Err x
      end
  end.

Definition render (tiddler : Tiddler) (env : environ W) : result E str :=
  link_patterns <- link_patterns_of env ;;
  run_conversion link_patterns (convert (text tiddler)).

(** *** Reference definitions the theorems compare the code with *)

(** Escaping read character by character: each double quote, star and
    underscore gives way to its replacement. *)
Definition escape_char (c : ascii) : str :=
  if Ascii.eqb c dquote then lit "&quot;"
  else if Ascii.eqb c "*" then g_escape_table "*"
  else if Ascii.eqb c "_" then g_escape_table "_"
  else [c].

Definition escape_chars (href : str) : str := flat_map escape_char href.

(** The label an anchor shows: the title, or the matched text when the
    title is [None] or empty. *)
Definition shown_title (title : option str) (raw : str) : str :=
  match title with
  | None | Some [] => raw
  | Some t => t
  end.

(** The anchor of one replacement, read off the text the pattern was
    matched against. *)
Definition link_for (text : str) (r : nat * nat * str * option str) : str :=
  let '(start, end_, href, title) := r in
  anchor (escape_href href) (shown_title title (Py.slice text start end_)).

(** The text rebuilt from left to right: the stretches between the spans
    copied, each span giving way to its filler. *)
Fixpoint spliced (text : str) (pos : nat) (holes : list (nat * nat * str)) : str :=
  match holes with
  | [] => Py.from text pos
  | (start, end_, filler) :: rest =>
      Py.slice text pos start ++ filler ++ spliced text end_ rest
  end.

(** Spans in ascending order, disjoint, each within [limit]. *)
Fixpoint ascending (pos limit : nat) (spans : list (nat * nat)) : Prop :=
  match spans with
  | [] => True
  | (start, end_) :: rest =>
      pos <= start /\ start <= end_ /\ end_ <= limit /\ ascending end_ limit rest
  end.

Definition span_of (r : nat * nat * str * option str) : nat * nat :=
  (fst (fst (fst r)), snd (fst (fst r))).

(** What one replacement contributes: the placeholder that takes the place
    of its span, and its entry in the placeholder map. *)
Definition placeholder_for (text : str) (r : nat * nat * str * option str) : nat * nat * str :=
  (fst (span_of r), snd (span_of r), _hash_text (link_for text r)).

(** [link_from_hash[hash] = link] for an anchor. *)
Definition remember (d : link_map) (link : str) : link_map :=
  dict_set str_eqb d (_hash_text link) link.

Definition record_link (text : str) (d : link_map) (r : nat * nat * str * option str) : link_map :=
  remember d (link_for text r).

(** The anchor in the words of the design: the href escaped character by
    character, the title or else the matched text as the label. *)
Definition described_anchor (text : str) (r : nat * nat * str * option str) : str :=
  let '(start, end_, href, title) := r in
  lit "<a href=" ++ [dquote] ++ escape_chars href ++ [dquote] ++ lit ">" ++
  shown_title title (Py.slice text start end_) ++ lit "</a>".

(** The tenant a tenant-scoped match names: its only group, or the second
    of its groups. *)
Definition tenant_of (m : Match) : option str :=
  if length (groups m) =? 1 then nth_error (groups m) 0
  else nth_error (groups m) 1.

(** A pass meets a match whose tenant the resolver refuses with [x], the
    matches before it having been resolved. *)
Inductive pass_raises (env : environ W) (x : exn E) : str * link_map -> regex * repl -> Prop :=
| pass_raises_at (st : str * link_map) (re : regex) (ms1 ms2 : list Match) (m : Match)
                 (reps : list (nat * nat * str * option str)) (name : str) :
    finditer re (fst st) = ms1 ++ m :: ms2 ->
    mapM (replacement (Callback (SpaceLinker env))) ms1 = OK reps ->
    tenant_of m = Some name ->
    space_uri env name = Err x ->
    pass_raises env x st (re, Callback (SpaceLinker env)).

(** The same for the passes of a registry in turn ... *)
Inductive patterns_raise (env : environ W) (x : exn E) : list (regex * repl) -> str * link_map -> Prop :=
| raise_here (st : str * link_map) (p : regex * repl) (ps : list (regex * repl)) :
    pass_raises env x st p -> patterns_raise env x (p :: ps) st
| raise_later (st st' : str * link_map) (p : regex * repl) (ps : list (regex * repl)) :
    link_pass st p = OK st' -> patterns_raise env x ps st' ->
    patterns_raise env x (p :: ps) st.

(** ... and for the pieces a conversion hands to the link patterns. *)
Inductive conversion_raises (env : environ W) (x : exn E) (lp : list (regex * repl)) : conversion -> Prop :=
| conversion_raises_here (piece : str) (k : str -> conversion) :
    patterns_raise env x lp (piece, []) ->
    conversion_raises env x lp (LinkPatterns piece k)
| conversion_raises_later (piece piece' : str) (k : str -> conversion) :
    _do_link_patterns lp piece = OK piece' ->
    conversion_raises env x lp (k piece') ->
    conversion_raises env x lp (LinkPatterns piece k).

(** *** The text between the passes and the final loop

    A text with placeholders in it, cut into the stretches of plain text
    and the anchors that stand behind placeholders. *)
Inductive segment : Type :=
| Gap (t : str)
| Hole (link : str).

(** A segment as it reads once the keys [ks] have been expanded: an anchor
    whose hash is among them shows itself, any other its hash. *)
Definition shown (ks : list str) (sg : segment) : str :=
  match sg with
  | Gap t => t
  | Hole link =>
      if existsb (str_eqb (_hash_text link)) ks then link else _hash_text link
  end.

Definition flat (ks : list str) (segs : list segment) : str :=
  flat_map (shown ks) segs.

(** Every placeholder expanded. *)
Definition filled (segs : list segment) : str :=
  flat_map (fun sg => match sg with Gap t => t | Hole link => link end) segs.

(** [k] starts at none of the first [n] positions of [s]. *)
Fixpoint absent_at_first (k : str) (n : nat) (s : str) : bool :=
  match n with
  | O => true
  | S n' =>
      negb (Py.startswith s k) &&
      match s with
      | [] => true
      | _ :: s' => absent_at_first k n' s'
      end
  end.

Definition is_placeholder (ks : list str) (k : str) (sg : segment) : bool :=
  match sg with
  | Gap _ => false
  | Hole link =>
      str_eqb (_hash_text link) k &&
      negb (existsb (str_eqb (_hash_text link)) ks)
  end.

(** In the text as it reads after [ks], the key [k] occurs at its
    placeholders and nowhere else. *)
Fixpoint only_placeholders (k : str) (ks : list str) (segs : list segment) : bool :=
  match segs with
  | [] => true
  | sg :: rest =>
      (is_placeholder ks k sg ||
       absent_at_first k (length (shown ks sg)) (shown ks sg ++ flat ks rest)) &&
      only_placeholders k ks rest
  end.

(** The anchor behind a placeholder of key [k] is [v]: no two anchors
    share the key. *)
Definition agrees (k v : str) (sg : segment) : bool :=
  match sg with
  | Gap _ => true
  | Hole link => implb (str_eqb (_hash_text link) k) (str_eqb link v)
  end.

(** The entries of a placeholder map can be expanded one after the other:
    each key is not empty, stands for one anchor, and occurs only at its
    placeholders when its turn comes. *)
Fixpoint expandable (ks : list str) (items : link_map) (segs : list segment) : bool :=
  match items with
  | [] => true
  | (k, v) :: rest =>
      negb (str_eqb k []) && only_placeholders k ks segs &&
      forallb (agrees k v) segs && expandable (k :: ks) rest segs
  end.

(** Every placeholder has its entry. *)
Definition covered (items : link_map) (segs : list segment) : bool :=
  forallb (fun sg =>
             match sg with
             | Gap _ => true
             | Hole link => existsb (str_eqb (_hash_text link)) (map fst items)
             end) segs.

(** The segments one pass leaves: the stretches between the spans and the
    anchors of the replacements. *)
Fixpoint segments (text : str) (pos : nat) (reps : list (nat * nat * str * option str)) : list segment :=
  match reps with
  | [] => [Gap (Py.from text pos)]
  | r :: rest =>
      Gap (Py.slice text pos (fst (span_of r))) :: Hole (link_for text r) ::
      segments text (snd (span_of r)) rest
  end.

(** Every key of a placeholder map is the hash of its anchor. *)
Definition keyed (d : link_map) : Prop :=
  Forall (fun kv => fst kv = _hash_text (snd kv)) d.

(** A span and the text under it. *)
Definition start_of (m : Match) : nat := fst (span m).
Definition end_of (m : Match) : nat := snd (span m).
Definition raw (text : str) (m : Match) : str := Py.slice text (start_of m) (end_of m).

(** The anchor of a free link as a function of the matched text
    [[[...]]] alone: what stands between the brackets is cut at its first
    pipe into label and page. *)
Definition free_link_anchor (matched : str) : str :=
  let link := Py.slice matched 2 (length matched - 2) in
  let (label, page) :=
    match Py.split_max1 "|" link with
    | [label; page] => (label, page)
    | _ => (link, link)
    end in
  anchor (escape_href page) (shown_title (Some label) matched).

(** The anchor of a static [\1] template as a function of the matched
    text alone. *)
Definition same_name_anchor (matched : str) : str :=
  anchor (escape_href matched) matched.

(** The characters a match of a pattern can be made of. *)
Fixpoint alphabet (r : regex) (c : ascii) : bool :=
  match r with
  | Chr d => Ascii.eqb c d
  | Cls k | Rep _ _ k => in_cls k c
  | Seq r1 r2 | Alt r1 r2 => alphabet r1 c || alphabet r2 c
  | Opt r1 | Group _ r1 => alphabet r1 c
  | Eps | Bol | Eol | WordBoundary | LookBehind _ _ => false
  end.

(** The HTML a conversion ends with when every piece it hands to the
    link-pattern pass comes back as it went. *)
Fixpoint plain (c : conversion) : str :=
  match c with
  | Html html => html
  | LinkPatterns piece k => plain (k piece)
  end.


(** *** Shapes of matches *)

(** A tenant name as the tenant patterns admit it: two characters or more
    out of digits, lower-case letters and dashes, the first and the last of
    them no dash. *)
Definition tenant_name (name : str) : Prop :=
  2 <= length name /\
  forallb (in_cls alnum_dash) name = true /\
  (exists a, nth_error name 0 = Some a /\ in_cls alnum a = true) /\
  (exists b, nth_error name (length name - 1) = Some b /\ in_cls alnum b = true).

(** What a tenant pattern takes along at either side of a match: one
    whitespace character, or nothing, and nothing only at the limit of the
    text on that side. *)
Definition blank_or (edge : str) (at_limit : Prop) : Prop :=
  (edge = [] /\ at_limit) \/ (exists c, edge = [c] /\ is_space c = true).

(** The characters no match can do without: an opening bracket, [@], a
    colon or a capital letter.  A character is quiet when it is none of
    them. *)
Definition quiet (c : ascii) : bool :=
  negb (Ascii.eqb c "[" || Ascii.eqb c "@" || Ascii.eqb c ":" || in_cls upper c).

(** The characters [_do_link_patterns] escapes in an href. *)
Definition special (c : ascii) : bool :=
  Ascii.eqb c dquote || Ascii.eqb c "*" || Ascii.eqb c "_".

(** *** Placeholders

    A placeholder as markdown2 makes it, whatever salt it puts into the
    digest: [md5-] and 32 hexadecimal digits. *)
Definition hexdigit (c : ascii) : bool :=
  in_cls (OneOf [CRange "0" "9"; CRange "a" "f"]) c.

Definition md5_key (k : str) : bool :=
  Py.startswith k (lit "md5-") && (length k =? 36) && forallb hexdigit (skipn 4 k).

(** The characters a placeholder is made of. *)
Definition key_char (c : ascii) : bool :=
  hexdigit c || existsb (Ascii.eqb c) (lit "md5-").

(** * Facts *)

Unset Implicit Arguments.
Set Default Proof Using "Type".

(** ** Slices and replacement *)

Lemma startswith_app (p s : str) : Py.startswith (p ++ s) p = true.
Proof.
  induction p as [|c p IH]; simpl; [reflexivity|].
  now rewrite Ascii.eqb_refl, IH.
Qed.

Lemma replace_char (s new : str) (c : ascii) :
  Py.replace s [c] new = flat_map (fun x => if Ascii.eqb x c then new else [x]) s.
Proof.
  unfold Py.replace.
  induction s as [|x s IH]; simpl; [reflexivity|].
  rewrite (Ascii.eqb_sym c x).
  destruct (Ascii.eqb x c); simpl; now rewrite IH.
Qed.

Lemma slice_full_prefix (a b : str) (start end_ : nat) :
  end_ <= length a -> Py.slice (a ++ b) start end_ = Py.slice a start end_.
Proof.
  intros H. unfold Py.slice.
  destruct (Nat.le_gt_cases start (length a)) as [Hs|Hs].
  - rewrite skipn_app. replace (start - length a) with 0 by lia. simpl.
    rewrite firstn_app, length_skipn.
    replace (end_ - start - (length a - start)) with 0 by lia.
    simpl. now rewrite app_nil_r.
  - replace (end_ - start) with 0 by lia. reflexivity.
Qed.

Lemma slice_firstn (s : str) (start end_ n : nat) :
  end_ <= n -> Py.slice (firstn n s) start end_ = Py.slice s start end_.
Proof.
  intros H.
  destruct (Nat.le_gt_cases n (length s)) as [Hn|Hn].
  - rewrite <- (firstn_skipn n s) at 2.
    symmetry. apply slice_full_prefix. rewrite length_firstn. lia.
  - now rewrite firstn_all2 by lia.
Qed.

Lemma firstn_plus (A : Type) (a b : nat) (l : list A) :
  firstn (a + b) l = firstn a l ++ firstn b (skipn a l).
Proof.
  revert l; induction a as [|a IH]; intros [|x l]; simpl;
    try reflexivity; [now rewrite firstn_nil | now rewrite IH].
Qed.

Lemma firstn_slice (s : str) (pos start : nat) :
  pos <= start -> firstn pos s ++ Py.slice s pos start = firstn start s.
Proof.
  intros H. unfold Py.slice.
  replace start with (pos + (start - pos)) at 2 by lia.
  now rewrite firstn_plus.
Qed.

Lemma flat_map_flat_map (A B C : Type) (f : A -> list B) (g : B -> list C) (l : list A) :
  flat_map g (flat_map f l) = flat_map (fun x => flat_map g (f x)) l.
Proof.
  induction l as [|x l IH]; simpl; [reflexivity|].
  now rewrite flat_map_app, IH.
Qed.

Lemma flat_map_absent (c : ascii) (new s : str) :
  ~ In c s -> flat_map (fun x => if Ascii.eqb x c then new else [x]) s = s.
Proof.
  induction s as [|x s IH]; simpl; intros H; [reflexivity|].
  destruct (Ascii.eqb_spec x c) as [->|Hx]; [exfalso; auto|].
  simpl. rewrite IH; auto.
Qed.

(** The three chained [replace] calls act on each character on its own, as
    long as the entry for the star holds no underscore. *)
Lemma escape_href_chars (href : str) :
  ~ In "_"%char (g_escape_table "*") ->
  escape_href href = escape_chars href.
Proof.
  intros Hg. unfold escape_href, escape_chars.
  rewrite !replace_char, !flat_map_flat_map.
  apply flat_map_ext. intros x. unfold escape_char.
  destruct (Ascii.eqb_spec x dquote) as [->|Hq]; [reflexivity|].
  simpl. destruct (Ascii.eqb_spec x "*") as [->|Hs].
  - rewrite app_nil_r. apply flat_map_absent. exact Hg.
  - simpl. rewrite !app_nil_r. reflexivity.
Qed.

(** ** Splitting on the first pipe *)

Lemma split_max1_absent (sep : ascii) (s : str) :
  ~ In sep s -> Py.split_max1 sep s = [s].
Proof.
  induction s as [|c s IH]; simpl; intros H; [reflexivity|].
  destruct (Ascii.eqb_spec c sep) as [->|Hc]; [exfalso; auto|].
  rewrite IH; auto.
Qed.

Lemma split_max1_first (sep : ascii) (a b : str) :
  ~ In sep a -> Py.split_max1 sep (a ++ sep :: b) = [a; b].
Proof.
  induction a as [|c a IH]; simpl; intros H.
  - now rewrite Ascii.eqb_refl.
  - destruct (Ascii.eqb_spec c sep) as [->|Hc]; [exfalso; auto|].
    rewrite IH; auto.
Qed.

(** Every string either has no [sep] or splits at its first one. *)
Lemma first_occurrence (sep : ascii) (s : str) :
  ~ In sep s \/ exists a b, s = a ++ sep :: b /\ ~ In sep a.
Proof.
  induction s as [|c s [IH|(a & b & -> & Ha)]].
  - left; intros [].
  - destruct (Ascii.eqb_spec c sep) as [->|Hc].
    + right. exists [], s. split; [reflexivity | intros []].
    + left. intros [H|H]; auto.
  - destruct (Ascii.eqb_spec c sep) as [->|Hc].
    + right. exists [], (a ++ sep :: b). split; [reflexivity | intros []].
    + right. exists (c :: a), b. split; [reflexivity|].
      intros [H|H]; auto.
Qed.

(** ** The matcher stays inside the text *)

Lemma run_le (k : cls) (s : str) : run k s <= length s.
Proof.
  induction s as [|c s IH]; simpl; [lia|].
  destruct (in_cls k c); simpl; lia.
Qed.

Lemma mt_bounds (r : regex) (s : str) :
  forall i cs j cs',
    i <= length s -> In (j, cs') (mt r s i cs) -> i <= j <= length s.
Proof.
  induction r as [ |c|k|r1 IH1 r2 IH2|r1 IH1 r2 IH2|r1 IH1|g mn k|n r1 IH1| | | |p r1 IH1];
    intros i cs j cs' Hi Hin; simpl in Hin.
  - destruct Hin as [H|[]]. injection H as <- _. lia.
  - destruct (nth_error s i) as [x|] eqn:Hx; [|destruct Hin].
    assert (i < length s) by (apply nth_error_Some; congruence).
    destruct (Ascii.eqb x c); [|destruct Hin].
    destruct Hin as [H'|[]]. injection H' as <- _. lia.
  - destruct (nth_error s i) as [x|] eqn:Hx; [|destruct Hin].
    assert (i < length s) by (apply nth_error_Some; congruence).
    destruct (in_cls k x); [|destruct Hin].
    destruct Hin as [H'|[]]. injection H' as <- _. lia.
  - apply in_flat_map in Hin. destruct Hin as ([m cm] & H1 & H2). simpl in H2.
    apply IH1 in H1; [|assumption]. apply IH2 in H2; lia.
  - apply in_app_or in Hin. destruct Hin as [H|H]; eauto.
  - apply in_app_or in Hin. destruct Hin as [H|[H|[]]]; [eauto|].
    injection H as <- _. lia.
  - assert (Hends : In (j, cs')
              (map (fun d => (i + d, cs)) (seq mn (S (run k (skipn i s)) - mn)))).
    { destruct g; [now apply in_rev in Hin | assumption]. }
    apply in_map_iff in Hends. destruct Hends as (d & Hd & Hseq).
    injection Hd as <- _. apply in_seq in Hseq.
    pose proof (run_le k (skipn i s)) as Hr. rewrite length_skipn in Hr. lia.
  - apply in_map_iff in Hin. destruct Hin as ([m cm] & Hd & H1).
    simpl in Hd. injection Hd as <- _. eauto.
  - destruct (i =? 0); [|destruct Hin].
    destruct Hin as [H|[]]. injection H as <- _. lia.
  - destruct (at_eol s i); [|destruct Hin].
    destruct Hin as [H|[]]. injection H as <- _. lia.
  - destruct (at_boundary s i); [|destruct Hin].
    destruct Hin as [H|[]]. injection H as <- _. lia.
  - match type of Hin with In _ (if ?b then _ else _) => destruct b end;
      [|destruct Hin].
    destruct Hin as [H|[]]. injection H as <- _. lia.
Qed.

Lemma search_from_bounds (r : regex) (s : str) :
  forall fuel pos st en cs,
    pos + fuel <= length s ->
    search_from r s fuel pos = Some (st, en, cs) ->
    pos <= st /\ st <= en /\ en <= length s.
Proof.
  induction fuel as [|f IH]; intros pos st en cs Hpos H; simpl in H.
  - destruct (mt r s pos []) as [|[j c] l] eqn:Hm; [discriminate|].
    injection H as <- <- <-.
    assert (pos <= j <= length s)
      by (apply (mt_bounds r s pos [] j c); [lia | rewrite Hm; now left]).
    lia.
  - destruct (mt r s pos []) as [|[j c] l] eqn:Hm.
    + apply IH in H; lia.
    + injection H as <- <- <-.
      assert (pos <= j <= length s)
        by (apply (mt_bounds r s pos [] j c); [lia | rewrite Hm; now left]).
      lia.
Qed.

Lemma search_bounds (r : regex) (s : str) (pos st en : nat) (cs : caps) :
  search r s pos = Some (st, en, cs) ->
  pos <= st /\ st <= en /\ en <= length s.
Proof.
  unfold search. destruct (Nat.leb_spec pos (length s)); [|discriminate].
  apply search_from_bounds. lia.
Qed.

Lemma finditer_from_ascending (r : regex) (s : str) :
  forall fuel pos,
    ascending pos (length s) (map span (finditer_from r s fuel pos)).
Proof.
  induction fuel as [|f IH]; intros pos; simpl; [exact I|].
  destruct (search r s pos) as [[[st en] cs]|] eqn:Hs; simpl; [|exact I].
  apply search_bounds in Hs. repeat split; try lia.
  specialize (IH (if en =? st then S en else en)).
  revert IH. generalize (map span (finditer_from r s f (if en =? st then S en else en))).
  intros l. destruct (en =? st); [|exact (fun H => H)].
  destruct l as [|[a b] l]; simpl; [exact (fun H => H)|].
  intros (H1 & H2 & H3 & H4). repeat split; try assumption; lia.
Qed.

Lemma finditer_ascending (r : regex) (s : str) :
  ascending 0 (length s) (map span (finditer r s)).
Proof. apply finditer_from_ascending. Qed.

(** The fuel of [finditer] never runs out: more fuel finds no further
    match. *)
Lemma finditer_from_fuel (r : regex) (s : str) :
  forall fuel fuel' pos,
    S (length s) - pos <= fuel -> S (length s) - pos <= fuel' ->
    finditer_from r s fuel pos = finditer_from r s fuel' pos.
Proof.
  induction fuel as [|f IH]; intros fuel' pos H H'.
  - assert (Hn : search r s pos = None).
    { unfold search. destruct (Nat.leb_spec pos (length s)); [lia | reflexivity]. }
    destruct fuel'; simpl; [reflexivity | now rewrite Hn].
  - destruct fuel' as [|f'].
    + assert (Hn : search r s pos = None).
      { unfold search. destruct (Nat.leb_spec pos (length s)); [lia | reflexivity]. }
      simpl. now rewrite Hn.
    + simpl. destruct (search r s pos) as [[[st en] cs]|] eqn:Hs; [|reflexivity].
      apply search_bounds in Hs. f_equal.
      apply IH; destruct (Nat.eqb_spec en st); lia.
Qed.

Lemma finditer_fuel_enough (r : regex) (s : str) (fuel : nat) :
  S (length s) <= fuel -> finditer_from r s fuel 0 = finditer r s.
Proof.
  intros H. unfold finditer. apply finditer_from_fuel; lia.
Qed.

(** ** Splicing from the right is splicing from the left *)

Lemma mapM_ok_map (A B C : Type) (f : A -> result E B) (p : A -> C) (q : B -> C) :
  (forall a b, f a = OK b -> q b = p a) ->
  forall l bs, mapM f l = OK bs -> map q bs = map p l.
Proof.
  intros Hf. induction l as [|a l IH]; simpl; intros bs H.
  - injection H as <-. reflexivity.
  - destruct (f a) as [b|x] eqn:Hb; simpl in H; [|discriminate].
    destruct (mapM f l) as [bs'|x] eqn:Hbs; simpl in H; [|discriminate].
    injection H as <-. simpl. now rewrite (Hf _ _ Hb), (IH _ eq_refl).
Qed.

Lemma replacement_span (rp : repl) (m : Match) (r : nat * nat * str * option str) :
  replacement rp m = OK r -> span_of r = span m.
Proof.
  unfold replacement. destruct rp as [t|f].
  - destruct (expand t m) as [h|x]; simpl; [|discriminate].
    intros H. injection H as <-. unfold span_of. simpl. now destruct (span m).
  - destruct (f m) as [c|x]; simpl; [|discriminate].
    destruct (unpack c) as [ht|x]; simpl; [|discriminate].
    intros H. injection H as <-. unfold span_of. simpl. now destruct (span m).
Qed.

Lemma splice_one_in_range (text rest : str) (lfh : link_map) (start end_ : nat)
      (href : str) (title : option str) :
  start <= end_ -> end_ <= length text ->
  splice_one (firstn end_ text ++ rest, lfh) (start, end_, href, title) =
    (firstn start text ++ _hash_text (link_for text (start, end_, href, title)) ++ rest,
     record_link text lfh (start, end_, href, title)).
Proof.
  intros Hse He. unfold splice_one, record_link, link_for, Py.upto, Py.from.
  assert (Hlen : length (firstn end_ text) = end_)
    by (rewrite length_firstn; lia).
  assert (Hraw : Py.slice (firstn end_ text ++ rest) start end_ =
                 Py.slice text start end_).
  { rewrite slice_full_prefix by lia. apply slice_firstn. lia. }
  assert (Htitle : match title with
                   | None | Some [] => Py.slice (firstn end_ text ++ rest) start end_
                   | Some (c :: t) => c :: t
                   end = shown_title title (Py.slice text start end_)).
  { rewrite Hraw. destruct title as [[|c t]|]; reflexivity. }
  rewrite Htitle.
  rewrite firstn_app, Hlen, firstn_firstn, Nat.min_l by lia.
  replace (start - end_) with 0 by lia. rewrite firstn_0, app_nil_r.
  rewrite skipn_app, (@skipn_all2 _ end_ (firstn end_ text)) by lia.
  rewrite Hlen, Nat.sub_diag, skipn_0. reflexivity.
Qed.

(** The second inner loop, run over the replacements from the last to the
    first on the text as it changes, leaves the text that copying the gaps
    and the placeholders from left to right gives, and every anchor is the
    one read off the unchanged text. *)
Lemma splice_fold (text : str) :
  forall reps pos lfh,
    ascending pos (length text) (map span_of reps) ->
    fold_left splice_one (rev reps) (text, lfh) =
      (firstn pos text ++ spliced text pos (map (placeholder_for text) reps),
       fold_left (record_link text) (rev reps) lfh).
Proof.
  induction reps as [|[[[start end_] href] title] reps IH]; intros pos lfh Hasc.
  - simpl. unfold Py.from. now rewrite firstn_skipn.
  - simpl in Hasc. unfold span_of in Hasc at 1. simpl in Hasc.
    destruct Hasc as (Hps & Hse & He & Hrest).
    simpl rev. rewrite !fold_left_app. simpl fold_left.
    rewrite (IH end_ lfh Hrest).
    rewrite splice_one_in_range by assumption.
    f_equal. simpl spliced. unfold placeholder_for at 2, span_of. simpl.
    rewrite <- (firstn_slice text pos start Hps), <- !app_assoc. reflexivity.
Qed.

Lemma link_pass_spec (text : str) (lfh : link_map) (re : regex) (rp : repl)
      (reps : list (nat * nat * str * option str)) :
  mapM (replacement rp) (finditer re text) = OK reps ->
  link_pass (text, lfh) (re, rp) =
    OK (spliced text 0 (map (placeholder_for text) reps),
        fold_left (record_link text) (rev reps) lfh).
Proof.
  intros H. unfold link_pass. simpl fst. simpl snd. rewrite H. simpl.
  f_equal. rewrite (splice_fold text reps 0 lfh); [reflexivity|].
  rewrite (mapM_ok_map _ _ _ _ span span_of (replacement_span rp) _ _ H).
  apply finditer_ascending.
Qed.

(** ** What a match of each construct looks like *)

Lemma skipn_nth_error (s : str) :
  forall i c, nth_error s i = Some c -> skipn i s = c :: skipn (S i) s.
Proof.
  induction s as [|x s IH]; intros [|i] c H; simpl in H; try discriminate.
  - injection H as ->. reflexivity.
  - apply IH in H. exact H.
Qed.

Lemma slice_cons (s : str) (i j : nat) (c : ascii) :
  nth_error s i = Some c -> i < j -> Py.slice s i j = c :: Py.slice s (S i) j.
Proof.
  intros H Hij. unfold Py.slice. rewrite (skipn_nth_error s i c H).
  replace (j - i) with (S (j - S i)) by lia. reflexivity.
Qed.

Lemma slice_empty (s : str) (i : nat) : Py.slice s i i = [].
Proof. unfold Py.slice. now rewrite Nat.sub_diag. Qed.

Lemma slice_app (s : str) (a b c : nat) :
  a <= b -> b <= c -> Py.slice s a b ++ Py.slice s b c = Py.slice s a c.
Proof.
  intros Hab Hbc. unfold Py.slice.
  replace (c - a) with ((b - a) + (c - b)) by lia.
  rewrite firstn_plus, skipn_skipn. now replace (b - a + a) with b by lia.
Qed.

Lemma slice_length (s : str) (a b : nat) :
  b <= length s -> length (Py.slice s a b) = b - a.
Proof.
  intros H. unfold Py.slice. rewrite length_firstn, length_skipn. lia.
Qed.

Lemma slice_slice (s : str) (a b x y : nat) :
  a + y <= b -> Py.slice (Py.slice s a b) x y = Py.slice s (a + x) (a + y).
Proof.
  intros H. unfold Py.slice.
  rewrite skipn_firstn_comm, skipn_skipn, firstn_firstn.
  replace (x + a) with (a + x) by lia.
  replace (Nat.min (y - x) (b - a - x)) with (a + y - (a + x)) by lia.
  reflexivity.
Qed.

Lemma mt_seq_inv (r1 r2 : regex) (s : str) (i : nat) (cs : caps) (x : nat * caps) :
  In x (mt (Seq r1 r2) s i cs) ->
  exists m cm, In (m, cm) (mt r1 s i cs) /\ In x (mt r2 s m cm).
Proof.
  simpl. intros H. apply in_flat_map in H. destruct H as ([m cm] & H1 & H2).
  now exists m, cm.
Qed.

Lemma mt_group_inv (n : nat) (r : regex) (s : str) (i j : nat) (cs cs' : caps) :
  In (j, cs') (mt (Group n r) s i cs) ->
  exists cm, In (j, cm) (mt r s i cs) /\ cs' = (n, (i, j)) :: cm.
Proof.
  simpl. intros H. apply in_map_iff in H. destruct H as ([m cm] & Hd & H1).
  simpl in Hd. injection Hd as <- <-. now exists cm.
Qed.

Lemma mt_rep_inv (g : bool) (mn : nat) (k : cls) (s : str) (i j : nat) (cs cs' : caps) :
  In (j, cs') (mt (Rep g mn k) s i cs) ->
  cs' = cs /\ i + mn <= j /\ j <= i + run k (skipn i s).
Proof.
  simpl. intros Hin.
  assert (Hends : In (j, cs')
            (map (fun d => (i + d, cs)) (seq mn (S (run k (skipn i s)) - mn)))).
  { destruct g; [now apply in_rev in Hin | assumption]. }
  apply in_map_iff in Hends. destruct Hends as (d & Hd & Hseq).
  injection Hd as <- <-. apply in_seq in Hseq. repeat split; lia.
Qed.

Lemma mt_chr_inv (c : ascii) (s : str) (i j : nat) (cs cs' : caps) :
  In (j, cs') (mt (Chr c) s i cs) ->
  j = S i /\ cs' = cs /\ nth_error s i = Some c.
Proof.
  simpl. destruct (nth_error s i) as [x|]; [|intros []].
  destruct (Ascii.eqb_spec x c) as [->|]; [|intros []].
  intros [H|[]]. injection H as <- <-. auto.
Qed.

Lemma mt_cls_inv (k : cls) (s : str) (i j : nat) (cs cs' : caps) :
  In (j, cs') (mt (Cls k) s i cs) ->
  j = S i /\ cs' = cs /\ exists c, nth_error s i = Some c /\ in_cls k c = true.
Proof.
  simpl. destruct (nth_error s i) as [x|]; [|intros []].
  destruct (in_cls k x) eqn:Hk; [|intros []].
  intros [H|[]]. injection H as <- <-. eauto.
Qed.

Lemma mt_lookbehind_inv (p : bool) (r : regex) (s : str) (i j : nat) (cs cs' : caps) :
  In (j, cs') (mt (LookBehind p r) s i cs) -> j = i /\ cs' = cs.
Proof.
  simpl. match goal with |- In _ (if ?b then _ else _) -> _ => destruct b end;
    [|intros []].
  intros [H|[]]. injection H as <- <-. auto.
Qed.

Lemma mt_boundary_inv (s : str) (i j : nat) (cs cs' : caps) :
  In (j, cs') (mt WordBoundary s i cs) -> j = i /\ cs' = cs.
Proof.
  simpl. destruct (at_boundary s i); [|intros []].
  intros [H|[]]. injection H as <- <-. auto.
Qed.

(** A literal word matches exactly itself. *)
Lemma mt_literal (l : str) (s : str) :
  forall i cs j cs',
    In (j, cs') (mt (fold_right (fun c r => Seq (Chr c) r) Eps l) s i cs) ->
    j = i + length l /\ cs' = cs /\ Py.slice s i j = l.
Proof.
  induction l as [|c l IH]; intros i cs j cs' H.
  - simpl in H. destruct H as [H|[]]. injection H as <- <-.
    rewrite slice_empty. simpl. repeat split. lia.
  - simpl fold_right in H. apply mt_seq_inv in H.
    destruct H as (m & cm & H1 & H2).
    apply mt_chr_inv in H1. destruct H1 as (-> & -> & Hc).
    apply IH in H2. destruct H2 as (-> & -> & Hl).
    simpl length. repeat split; [lia|].
    rewrite (slice_cons s i _ c Hc) by lia. now rewrite Hl.
Qed.

(** Every match [finditer] yields is the first way to match at its start. *)
Lemma search_from_head (r : regex) (s : str) :
  forall fuel pos st en cs,
    search_from r s fuel pos = Some (st, en, cs) ->
    exists rest, mt r s st [] = (en, cs) :: rest.
Proof.
  induction fuel as [|f IH]; intros pos st en cs H; simpl in H;
    destruct (mt r s pos []) as [|[j c] l] eqn:Hm; try discriminate.
  - injection H as <- <- <-. now exists l.
  - eauto.
  - injection H as <- <- <-. now exists l.
Qed.

Lemma finditer_from_In (r : regex) (s : str) (m : Match) :
  forall fuel pos,
    In m (finditer_from r s fuel pos) ->
    exists st en cs rest,
      m = match_of r s st en cs /\ mt r s st [] = (en, cs) :: rest /\
      st <= en /\ en <= length s.
Proof.
  induction fuel as [|f IH]; intros pos H; simpl in H; [destruct H|].
  destruct (search r s pos) as [[[st en] cs]|] eqn:Hs; [|destruct H].
  destruct H as [<-|H]; [|eauto].
  pose proof (search_bounds _ _ _ _ _ _ Hs) as Hb.
  unfold search in Hs. destruct (pos <=? length s); [|discriminate].
  apply search_from_head in Hs. destruct Hs as [rest Hrest].
  exists st, en, cs, rest. repeat split; [exact Hrest | lia | lia].
Qed.

Lemma finditer_In (r : regex) (s : str) (m : Match) :
  In m (finditer r s) ->
  exists st en cs rest,
    m = match_of r s st en cs /\ mt r s st [] = (en, cs) :: rest /\
    st <= en /\ en <= length s.
Proof. apply finditer_from_In. Qed.

Lemma run_in_cls (k : cls) (s : str) :
  forall n, n <= run k s -> forallb (in_cls k) (firstn n s) = true.
Proof.
  induction s as [|c s IH]; intros [|n] H; simpl in *; try reflexivity; try lia.
  destruct (in_cls k c); simpl; [apply IH; lia | lia].
Qed.

Lemma forallb_weaken (A : Type) (p q : A -> bool) (l : list A) :
  (forall a, p a = true -> q a = true) ->
  forallb p l = true -> forallb q l = true.
Proof.
  intros Hpq. induction l as [|a l IH]; simpl; [reflexivity|].
  rewrite !andb_true_iff. intros [Ha Hl]. auto.
Qed.

(** Whatever a pattern matches is written in its alphabet. *)
Lemma mt_alphabet (r : regex) (s : str) :
  forall i cs j cs',
    i <= length s -> In (j, cs') (mt r s i cs) ->
    forallb (alphabet r) (Py.slice s i j) = true.
Proof.
  induction r as [ |c|k|r1 IH1 r2 IH2|r1 IH1 r2 IH2|r1 IH1|g mn k|n r1 IH1| | | |p r1 IH1];
    intros i cs j cs' Hi Hin.
  - simpl in Hin. destruct Hin as [H|[]]. injection H as <- _.
    now rewrite slice_empty.
  - apply mt_chr_inv in Hin. destruct Hin as (-> & _ & Hc).
    rewrite (slice_cons s i _ c Hc), slice_empty by lia. simpl.
    now rewrite Ascii.eqb_refl.
  - apply mt_cls_inv in Hin. destruct Hin as (-> & _ & c & Hc & Hk).
    rewrite (slice_cons s i _ c Hc), slice_empty by lia. simpl.
    now rewrite Hk.
  - apply mt_seq_inv in Hin. destruct Hin as (m & cm & H1 & H2).
    pose proof (mt_bounds _ _ _ _ _ _ Hi H1) as B1.
    assert (Hm : m <= length s) by lia.
    pose proof (mt_bounds _ _ _ _ _ _ Hm H2) as B2.
    rewrite <- (slice_app s i m j) by lia. rewrite forallb_app. simpl.
    apply andb_true_iff. split.
    + apply (forallb_weaken _ (alphabet r1)); [|exact (IH1 _ _ _ _ Hi H1)].
      intros a Ha. now rewrite Ha.
    + apply (forallb_weaken _ (alphabet r2)); [|exact (IH2 _ _ _ _ Hm H2)].
      intros a Ha. rewrite Ha. apply orb_true_r.
  - simpl in Hin. apply in_app_or in Hin. simpl. destruct Hin as [H|H].
    + apply (forallb_weaken _ (alphabet r1)); [|exact (IH1 _ _ _ _ Hi H)].
      intros a Ha. now rewrite Ha.
    + apply (forallb_weaken _ (alphabet r2)); [|exact (IH2 _ _ _ _ Hi H)].
      intros a Ha. rewrite Ha. apply orb_true_r.
  - simpl in Hin. apply in_app_or in Hin. destruct Hin as [H|[H|[]]].
    + exact (IH1 _ _ _ _ Hi H).
    + injection H as <- _. now rewrite slice_empty.
  - apply mt_rep_inv in Hin. destruct Hin as (_ & Hlo & Hhi).
    unfold Py.slice. simpl. apply run_in_cls. lia.
  - apply mt_group_inv in Hin. destruct Hin as (cm & H & _).
    exact (IH1 _ _ _ _ Hi H).
  - simpl in Hin. destruct (i =? 0); [|destruct Hin].
    destruct Hin as [H|[]]. injection H as <- _. now rewrite slice_empty.
  - simpl in Hin. destruct (at_eol s i); [|destruct Hin].
    destruct Hin as [H|[]]. injection H as <- _. now rewrite slice_empty.
  - apply mt_boundary_inv in Hin. destruct Hin as [-> _]. now rewrite slice_empty.
  - apply mt_lookbehind_inv in Hin. destruct Hin as [-> _]. now rewrite slice_empty.
Qed.

(** *** Free links *)

Lemma freelink_shape (s : str) (i j : nat) (cs : caps) :
  In (j, cs) (mt freelink s i []) ->
  capture 1 cs = Some (i + 2, j - 2) /\ i + 5 <= j /\
    Py.slice s i (i + 2) = lit "[[" /\ Py.slice s (j - 2) j = lit "]]".
Proof.
  unfold freelink. intros H.
  apply mt_seq_inv in H. destruct H as (m1 & c1 & H1 & H).
  apply mt_literal in H1. destruct H1 as (-> & -> & Hopen).
  apply mt_seq_inv in H. destruct H as (m2 & c2 & H2 & H).
  apply mt_group_inv in H2. destruct H2 as (cm & H2 & ->).
  apply mt_rep_inv in H2. destruct H2 as (-> & Hlo & _).
  apply mt_literal in H. destruct H as (-> & -> & Hclose).
  simpl length in *. simpl capture.
  replace (m2 + 2 - 2) with m2 by lia. repeat split; auto; lia.
Qed.

Lemma freelink_match (text : str) (m : Match) :
  In m (finditer freelink text) ->
  exists link,
    groups m = [link] /\ raw text m = lit "[[" ++ link ++ lit "]]" /\
    link = Py.slice (raw text m) 2 (length (raw text m) - 2) /\
    end_of m <= length text.
Proof.
  intros H. apply finditer_In in H.
  destruct H as (st & en & cs & rest & -> & Hm & Hse & He).
  assert (Hin : In (en, cs) (mt freelink text st [])) by (rewrite Hm; now left).
  apply freelink_shape in Hin. destruct Hin as (Hc & Hlen & Ho & Hcl).
  exists (Py.slice text (st + 2) (en - 2)).
  unfold raw, start_of, end_of, match_of. cbn [span groups fst snd].
  change (ngroups freelink) with 1. cbn [seq map].
  unfold group_text. rewrite Hc. repeat split.
  - rewrite <- Ho, <- Hcl, !slice_app by lia. reflexivity.
  - rewrite slice_length, slice_slice by lia. f_equal; lia.
  - exact He.
Qed.

Lemma free_link_anchor_spec (base : str) (text : str) (m : Match) :
  In m (finditer freelink text) ->
  exists href title,
    FreeLinker base m = OK (Pair href (Some title)) /\
    replacement (Callback (FreeLinker base)) m = OK (span m, href, Some title) /\
    link_for text (span m, href, Some title) = free_link_anchor (raw text m).
Proof.
  intros H. apply freelink_match in H.
  destruct H as (link & Hg & _ & Hl & _).
  unfold FreeLinker, replacement, free_link_anchor.
  rewrite Hg, <- Hl. unfold raw, start_of, end_of.
  destruct (span m) as [a b]. simpl.
  destruct (Py.split_max1 "|" link) as [|label [|page [|x t]]]; simpl;
    eexists _, _; repeat split; reflexivity.
Qed.

(** ** A pass whose anchors are known match by match *)

Lemma mapM_Forall2 (A B : Type) (f : A -> result E B) (P : A -> B -> Prop) :
  forall l,
    (forall a, In a l -> exists b, f a = OK b /\ P a b) ->
    exists bs, mapM f l = OK bs /\ Forall2 P l bs.
Proof.
  induction l as [|a l IH]; intros H.
  - exists []. split; [reflexivity | constructor].
  - destruct (H a (or_introl eq_refl)) as (b & Hb & Pb).
    destruct IH as (bs & Hbs & Pbs); [intros x Hx; apply H; now right|].
    exists (b :: bs). simpl. rewrite Hb. simpl. rewrite Hbs. simpl.
    split; [reflexivity | now constructor].
Qed.

Lemma Forall2_map_eq (A B C : Type) (p : A -> C) (q : B -> C) (l : list A) (bs : list B) :
  Forall2 (fun a b => q b = p a) l bs -> map q bs = map p l.
Proof.
  induction 1 as [|a b l bs Hab _ IH]; simpl; [reflexivity|].
  now rewrite Hab, IH.
Qed.

Lemma fold_left_map (A B C : Type) (f : A -> C -> A) (g : B -> C) (l : list B) (a : A) :
  fold_left (fun x b => f x (g b)) l a = fold_left f (map g l) a.
Proof.
  revert a; induction l as [|b l IH]; intros a; simpl; [reflexivity | apply IH].
Qed.

Lemma pass_by_anchor (text : str) (lfh : link_map) (re : regex) (rp : repl)
      (F : Match -> str) :
  (forall m, In m (finditer re text) ->
             exists r, replacement rp m = OK r /\ link_for text r = F m) ->
  link_pass (text, lfh) (re, rp) =
    OK (spliced text 0
          (map (fun m => (start_of m, end_of m, _hash_text (F m))) (finditer re text)),
        fold_left remember (rev (map F (finditer re text))) lfh).
Proof.
  intros H.
  destruct (mapM_Forall2 _ _ (replacement rp)
              (fun m r => replacement rp m = OK r /\ link_for text r = F m)
              (finditer re text)) as (reps & Hreps & Hall).
  { intros m Hm. destruct (H m Hm) as (r & Hr & HF). exists r. auto. }
  rewrite (link_pass_spec text lfh re rp reps Hreps). f_equal. f_equal.
  - f_equal. apply Forall2_map_eq.
    eapply Forall2_impl; [|exact Hall]. intros m r [Hr HF]. simpl in *.
    unfold placeholder_for, start_of, end_of.
    now rewrite (replacement_span rp m r Hr), HF.
  - unfold record_link.
    rewrite (fold_left_map _ _ _ remember (link_for text)), map_rev.
    replace (map (link_for text) reps) with (map F (finditer re text));
      [reflexivity|].
    symmetry. apply Forall2_map_eq.
    eapply Forall2_impl; [|exact Hall]. intros m r [Hr HF]. exact HF.
Qed.

(** * The claims *)

(** ** Free links: the callback and its own pass

    [FreeLinker] cuts what stands between the brackets at its first pipe:
    the text after it is the href and the text before it the title, and
    without a pipe both are the whole text.  In the free-link pass every
    match is of the form [[[X]]] with [X] its one group, and the pass
    leaves, span by span, the placeholder of an anchor computed from the
    text of that span and nothing else.  What the later passes and the
    final loop make of these placeholders is another matter, taken up at
    the end of the section. *)
Lemma free_links_split_and_stay_apart (base : str) :
  (forall sp label page,
      ~ In "|"%char label ->
      FreeLinker base (mkMatch sp [label ++ "|"%char :: page]) =
        OK (Pair page (Some label))) /\
  (forall sp link,
      ~ In "|"%char link ->
      FreeLinker base (mkMatch sp [link]) = OK (Pair link (Some link))) /\
  (forall text m,
      In m (finditer freelink text) ->
      exists link,
        groups m = [link] /\ raw text m = lit "[[" ++ link ++ lit "]]") /\
  (forall text lfh,
      link_pass (text, lfh) (freelink, Callback (FreeLinker base)) =
        OK (spliced text 0
              (map (fun m => (start_of m, end_of m,
                              _hash_text (free_link_anchor (raw text m))))
                   (finditer freelink text)),
            fold_left remember
              (rev (map (fun m => free_link_anchor (raw text m))
                        (finditer freelink text))) lfh)).
Proof.
  repeat split.
  - intros sp label page Hl. unfold FreeLinker. simpl.
    now rewrite (split_max1_first "|" label page Hl).
  - intros sp link Hl. unfold FreeLinker. simpl.
    now rewrite (split_max1_absent "|" link Hl).
  - intros text m Hm. destruct (freelink_match text m Hm) as (link & Hg & Hr & _).
    now exists link.
  - intros text lfh. apply pass_by_anchor. intros m Hm.
    destruct (free_link_anchor_spec base text m Hm) as (href & title & _ & Hr & Hl).
    eauto.
Qed.

(** *** Same-name links: CamelCase words and bare URLs *)

Lemma wikilink_shape (s : str) (i j : nat) (cs : caps) :
  In (j, cs) (mt wikilink s i []) -> capture 1 cs = Some (i, j).
Proof.
  unfold wikilink. intros H.
  apply mt_group_inv in H. destruct H as (cm & _ & ->). reflexivity.
Qed.

Lemma barelink_shape (s : str) (i j : nat) (cs : caps) :
  In (j, cs) (mt barelink s i []) -> capture 1 cs = Some (i, j).
Proof.
  unfold barelink. intros H.
  apply mt_seq_inv in H. destruct H as (m & cm & H1 & H).
  apply mt_lookbehind_inv in H1. destruct H1 as [-> ->].
  apply mt_group_inv in H. destruct H as (cm & _ & ->). reflexivity.
Qed.

Lemma forallb_absent (p : ascii -> bool) (l : str) (c : ascii) :
  forallb p l = true -> p c = false -> ~ In c l.
Proof.
  intros Hall Hc Hin. rewrite forallb_forall in Hall.
  rewrite (Hall c Hin) in Hc. discriminate.
Qed.

Lemma escape_href_underscores (href : str) :
  ~ In dquote href -> ~ In "*"%char href ->
  escape_href href = Py.replace href ["_"%char] (g_escape_table "_").
Proof.
  intros Hq Hs. unfold escape_href.
  rewrite (replace_char href), (flat_map_absent dquote _ href Hq).
  rewrite (replace_char href), (flat_map_absent _ _ href Hs). reflexivity.
Qed.

(** A match of a pattern whose first group spans the whole match, under the
    template [\1]. *)
Lemma same_name_match (re : regex) (text : str) (m : Match) :
  ngroups re = 1 ->
  (forall i j cs, In (j, cs) (mt re text i []) -> capture 1 cs = Some (i, j)) ->
  alphabet re dquote = false -> alphabet re "*" = false ->
  In m (finditer re text) ->
  replacement (Template (lit "\1")) m = OK (span m, raw text m, None) /\
  link_for text (span m, raw text m, None) =
    anchor (Py.replace (raw text m) ["_"%char] (g_escape_table "_")) (raw text m).
Proof.
  intros Hn Hcap Hq Hs Hm. apply finditer_In in Hm.
  destruct Hm as (st & en & cs & rest & -> & Hmt & Hse & He).
  assert (Hin : In (en, cs) (mt re text st [])) by (rewrite Hmt; now left).
  assert (Hg : groups (match_of re text st en cs) = [Py.slice text st en]).
  { unfold match_of. cbn [groups]. rewrite Hn. cbn [seq map].
    unfold group_text. now rewrite (Hcap _ _ _ Hin). }
  assert (Hal : forallb (alphabet re) (Py.slice text st en) = true)
    by (apply (mt_alphabet re text st [] en cs); [lia | exact Hin]).
  unfold raw, start_of, end_of. cbn [span match_of fst snd]. split.
  - unfold replacement. cbn [lit String.list_ascii_of_string expand].
    rewrite Hg. simpl. now rewrite app_nil_r.
  - unfold link_for. cbn [shown_title]. f_equal. apply escape_href_underscores.
    + exact (forallb_absent _ _ _ Hal Hq).
    + exact (forallb_absent _ _ _ Hal Hs).
Qed.

Lemma same_name_dquote_star :
  (alphabet wikilink dquote = false /\ alphabet wikilink "*" = false) /\
  (alphabet barelink dquote = false /\ alphabet barelink "*" = false).
Proof. repeat split; reflexivity. Qed.

(** C5, as the code has it.  For every match of the CamelCase pattern and
    of the bare-URL pattern, the template [\1] gives the matched text as the
    href and no title; the anchor shows the matched text as its label, and
    its href is the matched text with every underscore replaced by the
    escape-table entry (a match holds no double quote and no star), so the
    href is the matched text itself when it holds no underscore.  A pass of
    either pattern leaves, span by span, the placeholder of that anchor. *)
Theorem same_name_links (text : str) :
  (forall m,
      In m (finditer wikilink text) \/ In m (finditer barelink text) ->
      replacement (Template (lit "\1")) m = OK (span m, raw text m, None) /\
      link_for text (span m, raw text m, None) = same_name_anchor (raw text m) /\
      same_name_anchor (raw text m) =
        anchor (Py.replace (raw text m) ["_"%char] (g_escape_table "_")) (raw text m) /\
      (~ In "_"%char (raw text m) ->
       same_name_anchor (raw text m) = anchor (raw text m) (raw text m))) /\
  (forall lfh re,
      re = wikilink \/ re = barelink ->
      link_pass (text, lfh) (re, Template (lit "\1")) =
        OK (spliced text 0
              (map (fun m => (start_of m, end_of m,
                              _hash_text (same_name_anchor (raw text m))))
                   (finditer re text)),
            fold_left remember
              (rev (map (fun m => same_name_anchor (raw text m)) (finditer re text)))
              lfh)).
Proof.
  assert (Hm : forall m,
             In m (finditer wikilink text) \/ In m (finditer barelink text) ->
             replacement (Template (lit "\1")) m = OK (span m, raw text m, None) /\
             link_for text (span m, raw text m, None) =
               anchor (Py.replace (raw text m) ["_"%char] (g_escape_table "_"))
                      (raw text m)).
  { intros m H. destruct same_name_dquote_star as [[Wq Ws] [Bq Bs]].
    destruct H as [H|H].
    - exact (same_name_match wikilink text m eq_refl (wikilink_shape text) Wq Ws H).
    - exact (same_name_match barelink text m eq_refl (barelink_shape text) Bq Bs H). }
  split.
  - intros m H. destruct (Hm m H) as [Hr Hl].
    assert (Hs : link_for text (span m, raw text m, None) = same_name_anchor (raw text m)).
    { unfold link_for, same_name_anchor, raw, start_of, end_of.
      destruct (span m) as [a b]. reflexivity. }
    repeat split; [exact Hr | exact Hs | now rewrite <- Hs |].
    intros Hu. rewrite <- Hs, Hl, replace_char, (flat_map_absent _ _ _ Hu).
    reflexivity.
  - intros lfh re Hre. apply pass_by_anchor. intros m H.
    assert (H' : In m (finditer wikilink text) \/ In m (finditer barelink text))
      by (destruct Hre as [->| ->]; [now left | now right]).
    destruct (Hm m H') as [Hr Hl].
    exists (span m, raw text m, None). split; [exact Hr|].
    unfold link_for, same_name_anchor, raw, start_of, end_of.
    destruct (span m) as [a b]. reflexivity.
Qed.

(** C2, as the code has it.  With a wiki link base configured the registry
    is, in this order: space-free-link, space-wiki-link, space-link (these
    three only when the tenant import succeeded, each with a [SpaceLinker]
    on the environment), then free-link, CamelCase wiki-link and bare-URL
    link. *)
Theorem registry_order (env : environ W) (base : str) :
  wiki_link_base env = Some base ->
  link_patterns_of env =
    OK ((if has_tiddlyspace
         then [(spacefreelink, Callback (SpaceLinker env));
               (spacewikilink, Callback (SpaceLinker env));
               (spacelink, Callback (SpaceLinker env))]
         else []) ++
        [(freelink, Callback (FreeLinker base));
         (wikilink, Template (lit "\1"));
         (barelink, Template (lit "\1"))]).
Proof.
  intros H. unfold link_patterns_of, PATTERNS. rewrite H.
  destruct has_tiddlyspace; reflexivity.
Qed.

Lemma run_conversion_plain (c : conversion) :
  run_conversion [] c = OK (plain c).
Proof.
  induction c as [html|piece k IH]; simpl; [reflexivity | apply IH].
Qed.

(** C3.  Without a configured ['markdown.wiki_link_base'] the registry is
    empty; the passes over any text leave the text and an empty placeholder
    map, the substitution returns the text as it came, and rendering is the
    conversion with every piece untouched. *)
Theorem no_base_no_links (tiddler : Tiddler) (env : environ W) :
  wiki_link_base env = None ->
  link_patterns_of env = OK [] /\
  (forall text,
      foldM link_pass [] (text, []) = OK (text, []) /\
      _do_link_patterns [] text = OK text) /\
  render tiddler env = OK (plain (convert (text tiddler))).
Proof.
  intros H.
  assert (Hlp : link_patterns_of env = OK [])
    by (unfold link_patterns_of; now rewrite H).
  repeat split; [exact Hlp|].
  unfold render. rewrite Hlp. simpl. apply run_conversion_plain.
Qed.

Lemma link_for_described (text : str) (r : nat * nat * str * option str) :
  ~ In "_"%char (g_escape_table "*") ->
  link_for text r = described_anchor text r.
Proof.
  intros Hg. destruct r as [[[start end_] href] title].
  unfold link_for, described_anchor, anchor. now rewrite (escape_href_chars href Hg).
Qed.

(** C4.  In a pass every matched span gives way to the placeholder of
    [<a href="E">T</a>], recorded under that placeholder, where [E] is the
    href with each double quote, star and underscore replaced and [T] the
    title, or the matched text when the title is [None] or empty.  (The
    table entry for the star holds no underscore, as in markdown2.) *)
Theorem spliced_anchor_format (text : str) (lfh : link_map) (re : regex) (rp : repl)
        (reps : list (nat * nat * str * option str)) :
  ~ In "_"%char (g_escape_table "*") ->
  mapM (replacement rp) (finditer re text) = OK reps ->
  link_pass (text, lfh) (re, rp) =
    OK (spliced text 0
          (map (fun r => (fst (span_of r), snd (span_of r),
                          _hash_text (described_anchor text r))) reps),
        fold_left remember (rev (map (described_anchor text) reps)) lfh).
Proof.
  intros Hg H. rewrite (link_pass_spec text lfh re rp reps H). f_equal. f_equal.
  - f_equal. apply map_ext. intros r. unfold placeholder_for.
    now rewrite (link_for_described text r Hg).
  - unfold record_link.
    rewrite (fold_left_map _ _ _ remember (link_for text)), map_rev.
    do 2 f_equal. apply map_ext. intros r. exact (link_for_described text r Hg).
Qed.

Lemma groups_length (re : regex) (text : str) (m : Match) :
  In m (finditer re text) -> length (groups m) = ngroups re.
Proof.
  intros H. apply finditer_In in H.
  destruct H as (st & en & cs & rest & -> & _).
  unfold match_of. cbn [groups]. now rewrite length_map, length_seq.
Qed.

(** C6.  On a match with the tenant as its one group, [SpaceLinker] gives
    the tenant's URL and [@] followed by the tenant; on a match with a page
    reference and a tenant it cuts the reference at its first pipe into
    label and page (both the whole reference when there is no pipe) and
    gives the tenant's URL followed by the encoded page, with the label as
    title.  The space-link pattern has one group, the other two have two. *)
Theorem space_linker_result (env : environ W) (sp : nat * nat) :
  (forall name url,
      space_uri env name = OK url ->
      SpaceLinker env (mkMatch sp [name]) =
        OK (Pair url (Some ("@"%char :: name)))) /\
  (forall label page name url,
      ~ In "|"%char label -> space_uri env name = OK url ->
      SpaceLinker env (mkMatch sp [label ++ "|"%char :: page; name]) =
        OK (Pair (url ++ encode_name page) (Some label))) /\
  (forall page name url,
      ~ In "|"%char page -> space_uri env name = OK url ->
      SpaceLinker env (mkMatch sp [page; name]) =
        OK (Pair (url ++ encode_name page) (Some page))) /\
  (forall text m, In m (finditer spacelink text) -> length (groups m) = 1) /\
  (forall text m,
      In m (finditer spacewikilink text) \/ In m (finditer spacefreelink text) ->
      length (groups m) = 2).
Proof.
  repeat split.
  - intros name url H. unfold SpaceLinker. simpl. now rewrite H.
  - intros label page name url Hl H. unfold SpaceLinker. simpl.
    now rewrite (split_max1_first "|" label page Hl), H.
  - intros page name url Hl H. unfold SpaceLinker. simpl.
    now rewrite (split_max1_absent "|" page Hl), H.
  - intros text m H. exact (groups_length spacelink text m H).
  - intros text m [H|H].
    + exact (groups_length spacewikilink text m H).
    + exact (groups_length spacefreelink text m H).
Qed.

(** C7, at the inputs where the code departs from it.  A callback that
    returns the two-character string [ab] as its href has it unpacked: the
    href becomes [a] and the title [b], whatever was matched; and a return
    value that cannot be iterated raises [TypeError]. *)
Theorem scalar_of_two_characters (m : Match) (text : str) (a b : ascii) :
  unpack (Scalar [a; b]) = OK ([a], Some [b]) /\
  replacement (Callback (fun _ => OK (Scalar [a; b]))) m = OK (span m, [a], Some [b]) /\
  link_for text (span m, [a], Some [b]) = anchor (escape_href [a]) [b] /\
  replacement (Callback (fun _ => OK NotIterable)) m = Err TypeError.
Proof.
  repeat split. unfold link_for. now destruct (span m).
Qed.

(** Where the fallback does what it is there for: a string of any other
    length is the href, and the title stays [None]. *)
Lemma scalar_of_other_length (s : str) :
  length s <> 2 -> unpack (Scalar s) = OK (s, None).
Proof.
  destruct s as [|a [|b [|c s]]]; simpl; intros H; try reflexivity. congruence.
Qed.

(** ** Resolver errors *)

Lemma mapM_raises (A B : Type) (f : A -> result E B) (l1 l2 : list A) (a : A)
      (bs : list B) (x : exn E) :
  mapM f l1 = OK bs -> f a = Err x -> mapM f (l1 ++ a :: l2) = Err x.
Proof.
  revert bs; induction l1 as [|c l1 IH]; intros bs H1 Ha; simpl.
  - now rewrite Ha.
  - simpl in H1. destruct (f c) as [b|y]; simpl in *; [|discriminate].
    destruct (mapM f l1) as [bs'|y]; simpl in *; [|discriminate].
    now rewrite (IH bs' eq_refl Ha).
Qed.

Lemma space_linker_raises (env : environ W) (m : Match) (name : str) (x : exn E) :
  tenant_of m = Some name -> space_uri env name = Err x ->
  SpaceLinker env m = Err x.
Proof.
  unfold tenant_of, SpaceLinker, getitem. intros Ht Hx.
  destruct (length (groups m) =? 1).
  - rewrite Ht. simpl. now rewrite Hx.
  - destruct (groups m) as [|p [|n l]]; simpl in Ht; try discriminate.
    injection Ht as ->. simpl.
    destruct (Py.split_max1 "|" p) as [|? [|? [|? ?]]]; simpl; now rewrite Hx.
Qed.

Lemma pass_raises_err (env : environ W) (x : exn E) (st : str * link_map)
      (p : regex * repl) :
  pass_raises env x st p -> link_pass st p = Err x.
Proof.
  intros [st' re ms1 ms2 m reps name Hms Hreps Ht Hx].
  unfold link_pass. cbn [fst snd]. rewrite Hms.
  rewrite (mapM_raises _ _ _ ms1 ms2 m reps x Hreps); [reflexivity|].
  unfold replacement. now rewrite (space_linker_raises env m name x Ht Hx).
Qed.

Lemma patterns_raise_err (env : environ W) (x : exn E) (lp : list (regex * repl))
      (st : str * link_map) :
  patterns_raise env x lp st -> foldM link_pass lp st = Err x.
Proof.
  induction 1 as [st p ps Hp|st st' p ps Hp _ IH]; simpl.
  - now rewrite (pass_raises_err env x st p Hp).
  - rewrite Hp. exact IH.
Qed.

Lemma conversion_raises_err (env : environ W) (x : exn E) (lp : list (regex * repl))
      (c : conversion) :
  conversion_raises env x lp c -> run_conversion lp c = Err x.
Proof.
  induction 1 as [piece k Hp|piece piece' k Hp _ IH]; simpl.
  - unfold _do_link_patterns. now rewrite (patterns_raise_err env x lp _ Hp).
  - rewrite Hp. exact IH.
Qed.

(** C8.  When a tenant-scoped match is reached whose tenant the resolver
    refuses with an error, in whichever pass over whichever piece of the
    document, that pass, the substitution and the whole [render] call end in
    that very error and give no text. *)
Theorem resolver_error_propagates (tiddler : Tiddler) (env : environ W)
        (lp : list (regex * repl)) (x : exn E) :
  link_patterns_of env = OK lp ->
  conversion_raises env x lp (convert (text tiddler)) ->
  render tiddler env = Err x /\
  (forall st p, pass_raises env x st p -> link_pass st p = Err x) /\
  (forall piece,
      patterns_raise env x lp (piece, []) -> _do_link_patterns lp piece = Err x).
Proof.
  intros Hlp Hc. repeat split.
  - unfold render. rewrite Hlp. simpl. exact (conversion_raises_err env x lp _ Hc).
  - exact (pass_raises_err env x).
  - intros piece Hp. unfold _do_link_patterns.
    now rewrite (patterns_raise_err env x lp _ Hp).
Qed.

(** ** The placeholder map *)

Lemma str_eqb_eq (a b : str) : str_eqb a b = true <-> a = b.
Proof.
  revert b; induction a as [|c a IH]; intros [|d b]; simpl;
    try (split; [discriminate | congruence]); [split; reflexivity|].
  rewrite andb_true_iff, Ascii.eqb_eq, IH. split.
  - intros [-> ->]. reflexivity.
  - intros H. injection H as -> ->. auto.
Qed.

Lemma str_eqb_refl (a : str) : str_eqb a a = true.
Proof. now apply str_eqb_eq. Qed.

Lemma dict_get_set_same (d : link_map) (k v : str) :
  dict_get str_eqb (dict_set str_eqb d k v) k = Some v.
Proof.
  induction d as [|[k' v'] d IH]; simpl.
  - now rewrite str_eqb_refl.
  - destruct (str_eqb k' k) eqn:Hk; simpl; rewrite Hk; [reflexivity | exact IH].
Qed.

(** C10.  One turn of the second loop escapes the href and nothing else:
    the anchor is [<a href="], the escaped href, [">], then the title as the
    callback gave it (or the matched text when there is none) character for
    character, then [</a>]; its placeholder takes the place of the span and
    the anchor is recorded under it. *)
Theorem title_is_not_escaped (text : str) (lfh : link_map) (start end_ : nat)
        (href : str) (title : option str) :
  let shown := shown_title title (Py.slice text start end_) in
  let link :=
    lit "<a href=" ++ [dquote] ++ escape_href href ++ [dquote] ++ lit ">" ++
    shown ++ lit "</a>" in
  splice_one (text, lfh) (start, end_, href, title) =
    (Py.upto text start ++ _hash_text link ++ Py.from text end_,
     dict_set str_eqb lfh (_hash_text link) link) /\
  dict_get str_eqb (snd (splice_one (text, lfh) (start, end_, href, title)))
           (_hash_text link) = Some link /\
  (forall label, title = Some label -> label <> [] -> shown = label).
Proof.
  cbv zeta.
  assert (H : splice_one (text, lfh) (start, end_, href, title) =
              (Py.upto text start ++
               _hash_text (anchor (escape_href href)
                             (shown_title title (Py.slice text start end_))) ++
               Py.from text end_,
               dict_set str_eqb lfh
                 (_hash_text (anchor (escape_href href)
                                (shown_title title (Py.slice text start end_))))
                 (anchor (escape_href href)
                    (shown_title title (Py.slice text start end_))))).
  { unfold splice_one. destruct title as [[|c t]|]; reflexivity. }
  repeat split.
  - exact H.
  - rewrite H. cbn [snd]. apply dict_get_set_same.
  - intros label -> Hl. destruct label; [congruence | reflexivity].
Qed.

(** ** The final loop *)

Lemma scan_copy (k v : str) (t rest : str) :
  absent_at_first k (length t) (t ++ rest) = true ->
  Py.replace_scan k v 0 (t ++ rest) = t ++ Py.replace_scan k v 0 rest.
Proof.
  induction t as [|c t IH]; simpl; intros H; [reflexivity|].
  apply andb_true_iff in H. destruct H as [Hn Ht].
  apply negb_true_iff in Hn.
  change (Py.startswith (c :: t ++ rest) k) with (Py.startswith ((c :: t) ++ rest) k).
  simpl app. rewrite Hn. now rewrite (IH Ht).
Qed.

Lemma scan_skip (k v : str) (a rest : str) :
  Py.replace_scan k v (length a) (a ++ rest) = Py.replace_scan k v 0 rest.
Proof.
  induction a as [|c a IH]; simpl; [reflexivity | exact IH].
Qed.

Lemma scan_match (c : ascii) (k v rest : str) :
  Py.replace_scan (c :: k) v 0 ((c :: k) ++ rest) =
    v ++ Py.replace_scan (c :: k) v 0 rest.
Proof.
  pose proof (startswith_app (c :: k) rest) as Hs.
  change (Py.replace_scan (c :: k) v 0 ((c :: k) ++ rest))
    with (if Py.startswith ((c :: k) ++ rest) (c :: k)
          then v ++ Py.replace_scan (c :: k) v (length (c :: k) - 1) (k ++ rest)
          else c :: Py.replace_scan (c :: k) v 0 (k ++ rest)).
  rewrite Hs. replace (length (c :: k) - 1) with (length k) by (simpl; lia).
  now rewrite scan_skip.
Qed.

Lemma replace_placeholders (c : ascii) (k v : str) (ks : list str) :
  forall segs,
    only_placeholders (c :: k) ks segs = true ->
    forallb (agrees (c :: k) v) segs = true ->
    Py.replace_scan (c :: k) v 0 (flat ks segs) = flat ((c :: k) :: ks) segs.
Proof.
  induction segs as [|sg segs IH]; intros Hocc Hagree; [reflexivity|].
  simpl in Hocc, Hagree.
  apply andb_true_iff in Hocc. destruct Hocc as [Hsg Hocc].
  apply andb_true_iff in Hagree. destruct Hagree as [Ha Hagree].
  specialize (IH Hocc Hagree).
  unfold flat in *. simpl flat_map.
  destruct sg as [t|link].
  - simpl in Hsg. simpl shown. rewrite (scan_copy _ _ _ _ Hsg). now rewrite IH.
  - simpl in Hsg, Ha. simpl shown.
    destruct (existsb (str_eqb (_hash_text link)) ks) eqn:Hdone.
    + rewrite andb_false_r in Hsg. simpl in Hsg.
      rewrite (scan_copy _ _ _ _ Hsg), IH. now rewrite orb_true_r.
    + rewrite andb_true_r, orb_false_r in *.
      destruct (str_eqb (_hash_text link) (c :: k)) eqn:Heq.
      * simpl in Ha. apply str_eqb_eq in Ha, Heq. subst v. rewrite Heq.
        now rewrite scan_match, IH.
      * simpl in Hsg. now rewrite (scan_copy _ _ _ _ Hsg), IH.
Qed.

Lemma expand_items (items : link_map) (segs : list segment) :
  forall ks,
    expandable ks items segs = true ->
    fold_left (fun text hl => Py.replace text (fst hl) (snd hl)) items (flat ks segs) =
      flat (rev (map fst items) ++ ks) segs.
Proof.
  induction items as [|[k v] items IH]; intros ks H; [reflexivity|].
  simpl in H. rewrite !andb_true_iff in H. destruct H as [[[Hk Hocc] Hagree] Hrest].
  destruct k as [|c k]; [discriminate|].
  cbn [fold_left fst snd].
  change (Py.replace (flat ks segs) (c :: k) v)
    with (Py.replace_scan (c :: k) v 0 (flat ks segs)).
  rewrite (replace_placeholders c k v ks segs Hocc Hagree).
  etransitivity; [exact (IH _ Hrest)|].
  simpl. now rewrite <- app_assoc.
Qed.

Lemma existsb_rev (A : Type) (p : A -> bool) (l : list A) :
  existsb p (rev l) = existsb p l.
Proof.
  induction l as [|a l IH]; simpl; [reflexivity|].
  rewrite existsb_app, IH. simpl. rewrite orb_false_r. apply orb_comm.
Qed.

Lemma flat_covered (items : link_map) (segs : list segment) :
  covered items segs = true ->
  flat (rev (map fst items) ++ []) segs = filled segs.
Proof.
  rewrite app_nil_r. unfold covered, flat, filled.
  induction segs as [|sg segs IH]; simpl; intros H; [reflexivity|].
  apply andb_true_iff in H. destruct H as [Hsg H]. rewrite (IH H).
  destruct sg as [t|link]; [reflexivity|].
  simpl. now rewrite existsb_rev, Hsg.
Qed.

(** The final loop over any list of entries. *)
Lemma expand_hashes_filled (items : link_map) (segs : list segment) :
  expandable [] items segs = true -> covered items segs = true ->
  expand_hashes (flat [] segs, items) = filled segs.
Proof.
  intros He Hc. unfold expand_hashes. cbn [fst snd].
  now rewrite (expand_items items segs [] He), (flat_covered items segs Hc).
Qed.

(** *** The map holds hashes of anchors *)

Lemma keyed_remember (d : link_map) (link : str) :
  keyed d -> keyed (remember d link).
Proof.
  unfold keyed, remember. induction 1 as [|[k v] d Hkv Hd IH]; simpl.
  - repeat constructor.
  - destruct (str_eqb k (_hash_text link)) eqn:Hk.
    + apply str_eqb_eq in Hk. constructor; [exact Hk | exact Hd].
    + constructor; [exact Hkv | exact IH].
Qed.

Lemma keyed_fold (text : str) (reps : list (nat * nat * str * option str)) :
  forall d, keyed d -> keyed (fold_left (record_link text) reps d).
Proof.
  induction reps as [|r reps IH]; intros d Hd; simpl; [exact Hd|].
  apply IH. now apply keyed_remember.
Qed.

Lemma link_pass_ok_inv (st st' : str * link_map) (p : regex * repl) :
  link_pass st p = OK st' ->
  exists reps,
    mapM (replacement (snd p)) (finditer (fst p) (fst st)) = OK reps /\
    st' = (spliced (fst st) 0 (map (placeholder_for (fst st)) reps),
           fold_left (record_link (fst st)) (rev reps) (snd st)).
Proof.
  destruct st as [text lfh], p as [re rp]. intros H.
  destruct (mapM (replacement rp) (finditer re text)) as [reps|x] eqn:Hm.
  - exists reps. split; [exact Hm|].
    rewrite (link_pass_spec text lfh re rp reps Hm) in H. now injection H.
  - unfold link_pass in H. cbn [fst snd] in H. rewrite Hm in H. discriminate.
Qed.

Lemma keyed_passes (lp : list (regex * repl)) :
  forall st st', keyed (snd st) -> foldM link_pass lp st = OK st' -> keyed (snd st').
Proof.
  induction lp as [|p lp IH]; intros st st' Hk H; simpl in H.
  - injection H as <-. exact Hk.
  - destruct (link_pass st p) as [st1|x] eqn:Hp; simpl in H; [|discriminate].
    apply (IH st1 st'); [|exact H].
    apply link_pass_ok_inv in Hp. destruct Hp as (reps & _ & ->).
    cbn [snd]. now apply keyed_fold.
Qed.

(** *** One pass in segments *)

Lemma flat_segments (text : str) (reps : list (nat * nat * str * option str)) :
  forall pos,
    flat [] (segments text pos reps) =
      spliced text pos (map (placeholder_for text) reps).
Proof.
  induction reps as [|r reps IH]; intros pos; unfold flat in *; simpl.
  - now rewrite app_nil_r.
  - now rewrite IH.
Qed.

Lemma filled_segments (text : str) (reps : list (nat * nat * str * option str)) :
  forall pos,
    filled (segments text pos reps) =
      spliced text pos
        (map (fun r => (fst (span_of r), snd (span_of r), link_for text r)) reps).
Proof.
  induction reps as [|r reps IH]; intros pos; unfold filled in *; simpl.
  - now rewrite app_nil_r.
  - now rewrite IH.
Qed.

Lemma has_key_remember (d : link_map) (link k : str) :
  existsb (str_eqb k) (map fst d) = true ->
  existsb (str_eqb k) (map fst (remember d link)) = true.
Proof.
  unfold remember. induction d as [|[k' v'] d IH]; simpl; [discriminate|].
  destruct (str_eqb k' (_hash_text link)); simpl; [auto|].
  destruct (str_eqb k k'); simpl; auto.
Qed.

Lemma has_key_remember_same (d : link_map) (link : str) :
  existsb (str_eqb (_hash_text link)) (map fst (remember d link)) = true.
Proof.
  unfold remember. induction d as [|[k' v'] d IH]; simpl.
  - now rewrite str_eqb_refl.
  - destruct (str_eqb k' (_hash_text link)) eqn:Hk; simpl.
    + apply str_eqb_eq in Hk. subst k'. now rewrite str_eqb_refl.
    + rewrite IH. apply orb_true_r.
Qed.

Lemma has_key_fold (text : str) (k : str) (l : list (nat * nat * str * option str)) :
  forall d,
    existsb (str_eqb k) (map fst d) = true ->
    existsb (str_eqb k) (map fst (fold_left (record_link text) l d)) = true.
Proof.
  induction l as [|r l IH]; intros d H; simpl; [exact H|].
  apply IH. now apply has_key_remember.
Qed.

Lemma has_key_recorded (text : str) (l : list (nat * nat * str * option str))
      (r : nat * nat * str * option str) :
  forall d,
    In r l ->
    existsb (str_eqb (_hash_text (link_for text r)))
            (map fst (fold_left (record_link text) l d)) = true.
Proof.
  induction l as [|r' l IH]; intros d H; [destruct H|].
  destruct H as [->|H]; simpl.
  - apply has_key_fold. apply has_key_remember_same.
  - now apply IH.
Qed.

Lemma covered_segments (text : str) (M : link_map)
      (reps : list (nat * nat * str * option str)) :
  (forall r, In r reps ->
             existsb (str_eqb (_hash_text (link_for text r))) (map fst M) = true) ->
  forall pos, covered M (segments text pos reps) = true.
Proof.
  unfold covered. induction reps as [|r reps IH]; intros H pos; simpl; [reflexivity|].
  rewrite (H r (or_introl eq_refl)). simpl. apply IH.
  intros r' Hr'. apply H. now right.
Qed.

(** The final loop where it works.  After the passes every key of the
    placeholder map is the hash of the anchor stored under it.  When the
    text reads as stretches and placeholders such that each key, at its
    turn, is not empty, stands for one anchor and occurs at its
    placeholders only, the final loop, in the order of the map or in any
    other, turns every placeholder into its anchor and changes nothing
    else.  After a registry of one pattern the text does read so, along
    the matched spans.  The engine itself checks none of these conditions,
    and with the registry [render] builds they can fail: see the end of
    the section. *)
Lemma placeholders_expand_when_keys_are_apart
        (lp : list (regex * repl)) (text T : str) (M : link_map) :
  foldM link_pass lp (text, []) = OK (T, M) ->
  keyed M /\
  (forall segs,
      T = flat [] segs ->
      expandable [] M segs = true -> covered M segs = true ->
      _do_link_patterns lp text = OK (filled segs)) /\
  (forall segs items,
      T = flat [] segs ->
      expandable [] items segs = true -> covered items segs = true ->
      expand_hashes (T, items) = filled segs) /\
  (forall re rp reps,
      lp = [(re, rp)] ->
      mapM (replacement rp) (finditer re text) = OK reps ->
      T = flat [] (segments text 0 reps) /\
      covered M (segments text 0 reps) = true /\
      filled (segments text 0 reps) =
        spliced text 0
          (map (fun r => (fst (span_of r), snd (span_of r), link_for text r)) reps)).
Proof.
  intros H. split; [|split; [|split]].
  - apply (keyed_passes lp (text, []) (T, M)); [constructor | exact H].
  - intros segs -> He Hc. unfold _do_link_patterns. rewrite H. simpl.
    now rewrite (expand_hashes_filled M segs He Hc).
  - intros segs items -> He Hc. exact (expand_hashes_filled items segs He Hc).
  - intros re rp reps -> Hm.
    pose proof (eq_trans (eq_sym H)
                  (f_equal (fun m => bind m (foldM link_pass []))
                     (link_pass_spec text [] re rp reps Hm))) as Heq.
    cbn [bind foldM] in Heq. injection Heq as -> ->. split; [|split].
    + symmetry. apply flat_segments.
    + apply covered_segments. intros r Hr.
      apply has_key_recorded. now apply -> in_rev.
    + apply filled_segments.
Qed.

(** * Further facts about the module *)

(** ** Where an exception can come from *)

Lemma mapM_err_inv (A B : Type) (f : A -> result E B) (l : list A) (x : exn E) :
  mapM f l = Err x -> exists a, In a l /\ f a = Err x.
Proof.
  induction l as [|a l IH]; simpl; [discriminate|].
  destruct (f a) as [b|y] eqn:Ha; simpl.
  - destruct (mapM f l) as [bs|y] eqn:Hl; simpl; [discriminate|].
    intros H. injection H as ->. destruct (IH eq_refl) as (a' & Hin & Ha').
    exists a'. split; [now right | exact Ha'].
  - intros H. injection H as ->. exists a. split; [now left | exact Ha].
Qed.

Lemma link_pass_err_inv (st : str * link_map) (p : regex * repl) (x : exn E) :
  link_pass st p = Err x ->
  exists m, In m (finditer (fst p) (fst st)) /\ replacement (snd p) m = Err x.
Proof.
  unfold link_pass.
  destruct (mapM (replacement (snd p)) (finditer (fst p) (fst st))) as [reps|y] eqn:Hm;
    simpl; [discriminate|].
  intros H. injection H as ->. exact (mapM_err_inv _ _ _ _ _ Hm).
Qed.

Lemma passes_err_inv (lp : list (regex * repl)) (x : exn E) :
  forall st,
    foldM link_pass lp st = Err x ->
    exists p text m,
      In p lp /\ In m (finditer (fst p) text) /\ replacement (snd p) m = Err x.
Proof.
  induction lp as [|p lp IH]; intros st H; simpl in H; [discriminate|].
  destruct (link_pass st p) as [st'|y] eqn:Hp; simpl in H.
  - destruct (IH st' H) as (q & text & m & Hq & Hm & Hr).
    exists q, text, m. repeat split; [now right | exact Hm | exact Hr].
  - injection H as ->. destruct (link_pass_err_inv st p x Hp) as (m & Hm & Hr).
    exists p, (fst st), m. repeat split; [now left | exact Hm | exact Hr].
Qed.

Lemma run_conversion_err_inv (lp : list (regex * repl)) (x : exn E) (c : conversion) :
  run_conversion lp c = Err x ->
  exists p text m,
    In p lp /\ In m (finditer (fst p) text) /\ replacement (snd p) m = Err x.
Proof.
  induction c as [html|piece k IH]; simpl; [discriminate|].
  destruct (_do_link_patterns lp piece) as [piece'|y] eqn:Hd.
  - apply IH.
  - intros H. injection H as ->. unfold _do_link_patterns in Hd.
    destruct (foldM link_pass lp (piece, [])) as [st|y] eqn:Hf; simpl in Hd;
      [discriminate|].
    injection Hd as ->. exact (passes_err_inv lp x _ Hf).
Qed.

Lemma free_replacement_ok (base : str) (text : str) (m : Match) :
  In m (finditer freelink text) ->
  exists r, replacement (Callback (FreeLinker base)) m = OK r.
Proof.
  intros H. destruct (freelink_match text m H) as (link & Hg & _).
  unfold replacement, FreeLinker. rewrite Hg. simpl.
  destruct (Py.split_max1 "|" link) as [|? [|? [|? ?]]]; simpl; eauto.
Qed.

Lemma first_group_spans (re : regex) (text : str) (m : Match) :
  ngroups re = 1 ->
  (forall i j cs, In (j, cs) (mt re text i []) -> capture 1 cs = Some (i, j)) ->
  In m (finditer re text) -> groups m = [raw text m].
Proof.
  intros Hn Hcap Hm. apply finditer_In in Hm.
  destruct Hm as (st & en & cs & rest & -> & Hmt & _).
  assert (Hin : In (en, cs) (mt re text st [])) by (rewrite Hmt; now left).
  unfold raw, start_of, end_of, match_of. cbn [groups span fst snd].
  rewrite Hn. cbn [seq map]. unfold group_text. now rewrite (Hcap _ _ _ Hin).
Qed.

Lemma template_replacement_ok (text : str) (m : Match) :
  In m (finditer wikilink text) \/ In m (finditer barelink text) ->
  exists r, replacement (Template (lit "\1")) m = OK r.
Proof.
  intros H.
  assert (Hg : groups m = [raw text m]).
  { destruct H as [H|H].
    - exact (first_group_spans wikilink text m eq_refl (wikilink_shape text) H).
    - exact (first_group_spans barelink text m eq_refl (barelink_shape text) H). }
  unfold replacement. cbn [lit String.list_ascii_of_string expand].
  rewrite Hg. simpl. eauto.
Qed.

Lemma space_replacement_err (env : environ W) (re : regex) (text : str) (m : Match)
      (x : exn E) :
  re = spacelink \/ re = spacewikilink \/ re = spacefreelink ->
  In m (finditer re text) ->
  replacement (Callback (SpaceLinker env)) m = Err x ->
  exists name, space_uri env name = Err x.
Proof.
  intros Hre Hm. pose proof (groups_length re text m Hm) as Hl.
  unfold replacement, SpaceLinker, getitem.
  destruct Hre as [->|[->| ->]]; change (ngroups _) with 1 in Hl || change (ngroups _) with 2 in Hl.
  - destruct (groups m) as [|name [|? ?]]; simpl in Hl; try discriminate. simpl.
    destruct (space_uri env name) as [url|y] eqn:Hu; simpl; [discriminate|].
    intros H. injection H as ->. now exists name.
  - destruct (groups m) as [|page [|name [|? ?]]]; simpl in Hl; try discriminate. simpl.
    destruct (Py.split_max1 "|" page) as [|? [|? [|? ?]]];
      destruct (space_uri env name) as [url|y] eqn:Hu; simpl; try discriminate;
      intros H; injection H as ->; now exists name.
  - destruct (groups m) as [|page [|name [|? ?]]]; simpl in Hl; try discriminate. simpl.
    destruct (Py.split_max1 "|" page) as [|? [|? [|? ?]]];
      destruct (space_uri env name) as [url|y] eqn:Hu; simpl; try discriminate;
      intros H; injection H as ->; now exists name.
Qed.

Lemma link_patterns_of_configured (env : environ W) (base : str) :
  wiki_link_base env = Some base ->
  link_patterns_of env =
    OK ((if has_tiddlyspace
         then [(spacefreelink, Callback (SpaceLinker env));
               (spacewikilink, Callback (SpaceLinker env));
               (spacelink, Callback (SpaceLinker env))]
         else []) ++
        [(freelink, Callback (FreeLinker base));
         (wikilink, Template (lit "\1"));
         (barelink, Template (lit "\1"))]).
Proof.
  intros H. unfold link_patterns_of, PATTERNS. rewrite H.
  destruct has_tiddlyspace; reflexivity.
Qed.

Lemma render_err_inv (tiddler : Tiddler) (env : environ W) (x : exn E) :
  render tiddler env = Err x ->
  has_tiddlyspace = true /\ exists name, space_uri env name = Err x.
Proof.
  unfold render. destruct (wiki_link_base env) as [base|] eqn:Hb.
  - rewrite (link_patterns_of_configured env base Hb). simpl bind. intros H.
    apply run_conversion_err_inv in H. destruct H as (p & text & m & Hp & Hm & Hr).
    assert (Hplain : In p [(freelink, Callback (FreeLinker base));
                            (wikilink, Template (lit "\1"));
                            (barelink, Template (lit "\1"))] -> False).
    { intros [<-|[<-|[<-|[]]]]; cbn [fst snd] in Hm, Hr.
      - destruct (free_replacement_ok base text m Hm) as [r Hok].
        rewrite Hok in Hr. discriminate.
      - destruct (template_replacement_ok text m (or_introl Hm)) as [r Hok].
        rewrite Hok in Hr. discriminate.
      - destruct (template_replacement_ok text m (or_intror Hm)) as [r Hok].
        rewrite Hok in Hr. discriminate. }
    apply in_app_or in Hp. destruct Hp as [Hp|Hp]; [|destruct (Hplain Hp)].
    destruct has_tiddlyspace; [|destruct Hp]. split; [reflexivity|].
    destruct Hp as [<-|[<-|[<-|[]]]]; cbn [fst snd] in Hm, Hr.
    + exact (space_replacement_err env spacefreelink text m x
               (or_intror (or_intror eq_refl)) Hm Hr).
    + exact (space_replacement_err env spacewikilink text m x
               (or_intror (or_introl eq_refl)) Hm Hr).
    + exact (space_replacement_err env spacelink text m x (or_introl eq_refl) Hm Hr).
  - assert (Hlp : link_patterns_of env = OK [])
      by (unfold link_patterns_of; now rewrite Hb).
    rewrite Hlp. simpl bind. rewrite run_conversion_plain. discriminate.
Qed.

(** X1.  The code of this module raises nothing of its own ([encode_name]
    and the converter of markdown2 being the total functions the section
    takes them as): when [render] ends in an exception, tenant support is
    there and the exception is one the resolver raised for some tenant
    name; so, without tenant support or with a resolver that answers every
    name, [render] returns HTML for every tiddler. *)
Theorem render_raises_only_resolver_errors (tiddler : Tiddler) (env : environ W) :
  (forall x,
      render tiddler env = Err x ->
      has_tiddlyspace = true /\ exists name, space_uri env name = Err x) /\
  (has_tiddlyspace = false \/ (forall name, exists url, space_uri env name = OK url) ->
   exists html, render tiddler env = OK html).
Proof.
  split; [exact (render_err_inv tiddler env)|].
  intros H. destruct (render tiddler env) as [html|x] eqn:Hr; [now exists html|].
  destruct (render_err_inv tiddler env x Hr) as (Ht & name & Hn).
  destruct H as [H|H]; [congruence|].
  destruct (H name) as [url Hu]. congruence.
Qed.

(** ** What the patterns match *)

Lemma nth_error_slice (s : str) (a b k : nat) :
  k < b - a -> nth_error (Py.slice s a b) k = nth_error s (a + k).
Proof.
  intros H. unfold Py.slice. rewrite nth_error_firstn.
  destruct (Nat.ltb_spec k (b - a)); [|lia]. apply nth_error_skipn.
Qed.

Lemma forallb_nth_error (p : ascii -> bool) (l : str) (k : nat) (c : ascii) :
  forallb p l = true -> nth_error l k = Some c -> p c = true.
Proof.
  intros Hall Hk. rewrite forallb_forall in Hall.
  apply Hall. eapply nth_error_In. exact Hk.
Qed.

Lemma slice_last (p : ascii -> bool) (s : str) (i j : nat) :
  i < j -> j <= length s -> forallb p (Py.slice s i j) = true ->
  exists c, nth_error s (j - 1) = Some c /\ p c = true.
Proof.
  intros Hij Hj Hall.
  destruct (nth_error s (j - 1)) as [c|] eqn:Hc.
  - exists c. split; [reflexivity|].
    apply (forallb_nth_error p (Py.slice s i j) (j - 1 - i) c Hall).
    rewrite nth_error_slice by lia. now replace (i + (j - 1 - i)) with (j - 1) by lia.
  - apply nth_error_None in Hc. lia.
Qed.

Lemma mt_lookbehind_pos_inv (r : regex) (s : str) (i j : nat) (cs cs' : caps) :
  In (j, cs') (mt (LookBehind true r) s i cs) ->
  j = i /\ cs' = cs /\ exists k c, k <= i /\ In (i, c) (mt r s k cs).
Proof.
  intros H. destruct (mt_lookbehind_inv _ _ _ _ _ _ _ H) as [-> ->].
  repeat split. cbn [mt] in H.
  destruct (existsb (fun k => existsb (ends_at i) (mt r s k cs)) (seq 0 (S i))) eqn:Hf;
    cbn [Bool.eqb] in H; [|destruct H].
  apply existsb_exists in Hf. destruct Hf as (k & Hk & Hx).
  apply existsb_exists in Hx. destruct Hx as ([e c] & Hin & He).
  unfold ends_at in He. simpl in He. apply Nat.eqb_eq in He. subst e.
  apply in_seq in Hk. exists k, c. split; [lia | exact Hin].
Qed.

Lemma mt_lookbehind_neg_inv (r : regex) (s : str) (i j : nat) (cs cs' : caps) :
  In (j, cs') (mt (LookBehind false r) s i cs) ->
  j = i /\ cs' = cs /\ forall k c, k <= i -> ~ In (i, c) (mt r s k cs).
Proof.
  intros H. destruct (mt_lookbehind_inv _ _ _ _ _ _ _ H) as [-> ->].
  repeat split. cbn [mt] in H.
  destruct (existsb (fun k => existsb (ends_at i) (mt r s k cs)) (seq 0 (S i))) eqn:Hf;
    cbn [Bool.eqb] in H; [destruct H|].
  intros k c Hk Hin.
  assert (Ht : existsb (fun k => existsb (ends_at i) (mt r s k cs)) (seq 0 (S i)) = true).
  { apply existsb_exists. exists k. split; [apply in_seq; lia|].
    apply existsb_exists. exists (i, c). split; [exact Hin|].
    unfold ends_at. simpl. apply Nat.eqb_refl. }
  congruence.
Qed.

Lemma mt_two_chars (a b : ascii) (s : str) (k : nat) (cs : caps) :
  nth_error s k = Some a -> nth_error s (S k) = Some b ->
  In (S (S k), cs) (mt (Seq (Chr a) (Chr b)) s k cs) /\
  In (S (S k), cs) (mt (Seq (Chr a) (Seq (Chr b) Eps)) s k cs).
Proof.
  intros Ha Hb. cbn [mt]. rewrite Ha, Ascii.eqb_refl.
  cbn [flat_map fst snd mt]. rewrite Hb, Ascii.eqb_refl.
  cbn [flat_map fst snd mt app]. split; now left.
Qed.

Lemma run_stops (k : cls) (s : str) (c : ascii) :
  nth_error s (run k s) = Some c -> in_cls k c = false.
Proof.
  induction s as [|x s IH]; simpl; [discriminate|].
  destruct (in_cls k x) eqn:Hx; simpl; [exact IH|].
  intros H. injection H as <-. exact Hx.
Qed.

(** The first way to match a sequence is the first way to match its tail
    after the first head that has one. *)
Lemma flat_map_head (A B : Type) (f : A -> list B) (l : list A) (y : B) (rest : list B) :
  flat_map f l = y :: rest ->
  exists l1 x l2 rest',
    l = l1 ++ x :: l2 /\ (forall z, In z l1 -> f z = []) /\ f x = y :: rest'.
Proof.
  induction l as [|a l IH]; simpl; [discriminate|].
  destruct (f a) as [|b bs] eqn:Ha; simpl.
  - intros H. destruct (IH H) as (l1 & x & l2 & rest' & -> & Hl1 & Hx).
    exists (a :: l1), x, l2, rest'. repeat split; [|exact Hx].
    intros z [<-|Hz]; [exact Ha | now apply Hl1].
  - intros H. injection H as -> _. exists [], a, l, bs.
    repeat split; [intros z []| exact Ha].
Qed.

Lemma mt_alt_inv (r1 r2 : regex) (s : str) (i : nat) (cs : caps) (x : nat * caps) :
  In x (mt (Alt r1 r2) s i cs) -> In x (mt r1 s i cs) \/ In x (mt r2 s i cs).
Proof. simpl. apply in_app_or. Qed.

Lemma mt_opt_inv (r : regex) (s : str) (i : nat) (cs : caps) (x : nat * caps) :
  In x (mt (Opt r) s i cs) -> In x (mt r s i cs) \/ x = (i, cs).
Proof.
  simpl. intros H. apply in_app_or in H. destruct H as [H|[H|[]]]; auto.
Qed.

Lemma mt_bol_inv (s : str) (i j : nat) (cs cs' : caps) :
  In (j, cs') (mt Bol s i cs) -> j = i /\ cs' = cs /\ i = 0.
Proof.
  simpl. destruct (Nat.eqb_spec i 0); [|intros []].
  intros [H|[]]. injection H as <- <-. auto.
Qed.

Lemma mt_eol_inv (s : str) (i j : nat) (cs cs' : caps) :
  In (j, cs') (mt Eol s i cs) -> j = i /\ cs' = cs /\ at_eol s i = true.
Proof.
  simpl. destruct (at_eol s i); [|intros []].
  intros [H|[]]. injection H as <- <-. auto.
Qed.

Lemma space_cls (c : ascii) : in_cls space c = is_space c.
Proof. simpl. apply orb_false_r. Qed.

Lemma left_edge_inv (s : str) (i j : nat) (cs cs' : caps) :
  In (j, cs') (mt left_edge s i cs) ->
  cs' = cs /\
  ((j = i /\ i = 0) \/
   (j = S i /\ exists c, nth_error s i = Some c /\ is_space c = true)).
Proof.
  unfold left_edge. intros H. apply mt_alt_inv in H. destruct H as [H|H].
  - apply mt_bol_inv in H. destruct H as (-> & -> & ->). auto.
  - apply mt_cls_inv in H. destruct H as (-> & -> & c & Hc & Hk).
    rewrite space_cls in Hk. split; [reflexivity|]. right. eauto.
Qed.

Lemma right_edge_inv (s : str) (i j : nat) (cs cs' : caps) :
  In (j, cs') (mt right_edge s i cs) ->
  cs' = cs /\
  ((j = S i /\ exists c, nth_error s i = Some c /\ is_space c = true) \/
   (j = i /\ at_eol s i = true)).
Proof.
  unfold right_edge. intros H. apply mt_alt_inv in H. destruct H as [H|H].
  - apply mt_cls_inv in H. destruct H as (-> & -> & c & Hc & Hk).
    rewrite space_cls in Hk. split; [reflexivity|]. left. eauto.
  - apply mt_eol_inv in H. destruct H as (-> & -> & He). auto.
Qed.

Lemma word_cls (c : ascii) : in_cls word c = is_word c.
Proof. simpl. apply orb_false_r. Qed.

Lemma upper_is_word (c : ascii) : in_cls upper c = true -> is_word c = true.
Proof.
  unfold upper, in_cls, existsb, in_item, is_word. intros H.
  rewrite orb_false_r in H. rewrite H, orb_true_r. reflexivity.
Qed.

Lemma lower_is_word (c : ascii) : in_cls lower c = true -> is_word c = true.
Proof.
  unfold lower, in_cls, existsb, in_item, is_word. intros H.
  rewrite orb_false_r in H. rewrite H. reflexivity.
Qed.

Lemma alnum_is_alnum_dash (c : ascii) :
  in_cls alnum c = true -> in_cls alnum_dash c = true.
Proof.
  unfold alnum, alnum_dash, in_cls, existsb. intros H.
  rewrite orb_false_r in H. apply orb_true_iff in H.
  destruct H as [H|H]; rewrite H; [reflexivity | apply orb_true_r].
Qed.

Lemma camel_inv (s : str) (i j : nat) (cs cs' : caps) :
  i <= length s ->
  In (j, cs') (mt camel s i cs) ->
  cs' = cs /\ i + 4 <= j /\ j <= length s /\
  (exists c, nth_error s i = Some c /\ in_cls upper c = true) /\
  forallb is_word (Py.slice s i j) = true.
Proof.
  intros Hi H.
  pose proof (mt_bounds _ _ _ _ _ _ Hi H) as Hb.
  pose proof (mt_alphabet camel s i cs j cs' Hi H) as Ha.
  unfold camel in H.
  apply mt_seq_inv in H. destruct H as (m1 & c1 & H1 & H).
  apply mt_cls_inv in H1. destruct H1 as (-> & -> & c & Hc & Hk).
  apply mt_seq_inv in H. destruct H as (m2 & c2 & H2 & H).
  apply mt_rep_inv in H2. destruct H2 as (-> & Hlo & _).
  apply mt_seq_inv in H. destruct H as (m3 & c3 & H3 & H).
  apply mt_cls_inv in H3. destruct H3 as (-> & -> & _).
  apply mt_rep_inv in H. destruct H as (-> & Hlo' & _).
  repeat split; try lia; [eauto|].
  apply (forallb_weaken _ (alphabet camel)); [|exact Ha].
  intros a.
  change (alphabet camel a)
    with (in_cls upper a || (in_cls lower a || (in_cls upper a || in_cls word a))).
  rewrite word_cls. intros Hx.
  apply orb_true_iff in Hx. destruct Hx as [Hx|Hx]; [now apply upper_is_word|].
  apply orb_true_iff in Hx. destruct Hx as [Hx|Hx]; [now apply lower_is_word|].
  apply orb_true_iff in Hx. destruct Hx as [Hx|Hx]; [now apply upper_is_word|].
  exact Hx.
Qed.

Lemma space_name_inv (s : str) (i j : nat) (cs cs' : caps) :
  i <= length s ->
  In (j, cs') (mt space_name_re s i cs) ->
  cs' = cs /\ i + 2 <= j /\ j <= length s /\
  (exists c, nth_error s i = Some c /\ in_cls alnum c = true) /\
  (exists c, nth_error s (j - 1) = Some c /\ in_cls alnum c = true) /\
  forallb (in_cls alnum_dash) (Py.slice s i j) = true.
Proof.
  intros Hi H.
  pose proof (mt_bounds _ _ _ _ _ _ Hi H) as Hb.
  pose proof (mt_alphabet space_name_re s i cs j cs' Hi H) as Ha.
  unfold space_name_re in H.
  apply mt_seq_inv in H. destruct H as (m1 & c1 & H1 & H).
  apply mt_cls_inv in H1. destruct H1 as (-> & -> & c & Hc & Hk).
  apply mt_seq_inv in H. destruct H as (m2 & c2 & H2 & H).
  apply mt_rep_inv in H2. destruct H2 as (-> & Hlo & _).
  apply mt_cls_inv in H. destruct H as (-> & -> & d & Hd & Hkd).
  repeat split; try lia; [eauto | |].
  - exists d. split; [|exact Hkd]. now replace (S m2 - 1) with m2 by lia.
  - apply (forallb_weaken _ (alphabet space_name_re)); [|exact Ha].
    intros a.
    change (alphabet space_name_re a)
      with (in_cls alnum a || (in_cls alnum_dash a || in_cls alnum a)).
    intros Hx.
    apply orb_true_iff in Hx. destruct Hx as [Hx|Hx]; [now apply alnum_is_alnum_dash|].
    apply orb_true_iff in Hx. destruct Hx as [Hx|Hx]; [exact Hx|].
    now apply alnum_is_alnum_dash.
Qed.

Lemma mt_boundary_holds (s : str) (i j : nat) (cs cs' : caps) :
  In (j, cs') (mt WordBoundary s i cs) -> at_boundary s i = true.
Proof.
  simpl. destruct (at_boundary s i); [reflexivity | intros []].
Qed.

Lemma mt_seq_head (r1 r2 : regex) (s : str) (i : nat) (cs : caps)
      (y : nat * caps) (rest : list (nat * caps)) :
  mt (Seq r1 r2) s i cs = y :: rest ->
  exists m cm rest', In (m, cm) (mt r1 s i cs) /\ mt r2 s m cm = y :: rest'.
Proof.
  simpl. intros H. apply flat_map_head in H.
  destruct H as (l1 & [m cm] & l2 & rest' & Hl & _ & Hx).
  exists m, cm, rest'. split; [|exact Hx]. rewrite Hl. apply in_elt.
Qed.

Lemma mt_group_head (n : nat) (r : regex) (s : str) (i j : nat) (cs cs' : caps)
      (rest : list (nat * caps)) :
  mt (Group n r) s i cs = (j, cs') :: rest ->
  exists cm rest', mt r s i cs = (j, cm) :: rest'.
Proof.
  simpl. destruct (mt r s i cs) as [|[m cm] l]; simpl; [discriminate|].
  intros H. injection H as <- _ _. now exists cm, l.
Qed.

Lemma map_seq_last (A : Type) (g : nat -> A) (a len : nat) (l : list A) (y : A) :
  map g (seq a len) = l ++ [y] -> 0 < len /\ y = g (a + len - 1).
Proof.
  destruct len as [|len].
  - simpl. intros H. destruct l; discriminate.
  - rewrite seq_S, map_app. simpl. intros H. apply app_inj_tail in H.
    destruct H as [_ <-]. split; [lia | f_equal; lia].
Qed.

Lemma map_seq_split (A : Type) (g : nat -> A) :
  forall l1 a len x l2,
    map g (seq a len) = l1 ++ x :: l2 ->
    l1 = map g (seq a (length l1)) /\ x = g (a + length l1).
Proof.
  induction l1 as [|z l1 IH]; intros a len x l2 H.
  - destruct len; simpl in H; [discriminate|]. injection H as <- _.
    simpl. rewrite Nat.add_0_r. auto.
  - destruct len; simpl in H; [discriminate|]. injection H as <- H.
    destruct (IH _ _ _ _ H) as [Hl Hx]. simpl. split.
    + now rewrite <- Hl.
    + rewrite Hx. f_equal. lia.
Qed.

(** A greedy repetition is first tried at its full length. *)
Lemma mt_rep_greedy_head (mn : nat) (k : cls) (s : str) (i j : nat) (cs cs' : caps)
      (rest : list (nat * caps)) :
  mt (Rep true mn k) s i cs = (j, cs') :: rest -> j = i + run k (skipn i s).
Proof.
  intros H. cbn [mt] in H.
  assert (Hl : map (fun d => (i + d, cs)) (seq mn (S (run k (skipn i s)) - mn)) =
               rev rest ++ [(j, cs')]).
  { apply (f_equal (@rev _)) in H. rewrite rev_involutive in H. exact H. }
  apply map_seq_last in Hl. destruct Hl as [Hlen Hy].
  assert (Hj : j = i + (mn + (S (run k (skipn i s)) - mn) - 1)) by congruence.
  lia.
Qed.

Lemma skipn_head (s : str) (i : nat) (d : ascii) (t : str) :
  skipn i s = d :: t -> nth_error s i = Some d /\ skipn (S i) s = t.
Proof.
  intros H. split.
  - rewrite <- (Nat.add_0_r i), <- nth_error_skipn, H. reflexivity.
  - change (S i) with (1 + i). rewrite <- skipn_skipn, H. reflexivity.
Qed.

(** A literal word matches wherever the text continues with it. *)
Lemma mt_literal_found (l : str) (s : str) :
  forall i cs,
    Py.startswith (skipn i s) l = true ->
    mt (fold_right (fun c r => Seq (Chr c) r) Eps l) s i cs = [(i + length l, cs)].
Proof.
  induction l as [|c l IH]; intros i cs H.
  - simpl. now rewrite Nat.add_0_r.
  - simpl in H. destruct (skipn i s) as [|d t] eqn:Hs; [discriminate|].
    apply andb_true_iff in H. destruct H as [Hc Ht]. apply Ascii.eqb_eq in Hc. subst d.
    apply skipn_head in Hs. destruct Hs as [Hn <-].
    cbn [fold_right mt]. rewrite Hn, Ascii.eqb_refl. cbn [flat_map fst snd].
    rewrite (IH (S i) cs Ht), app_nil_r. simpl length. f_equal. f_equal. lia.
Qed.

Lemma mt_literal_none (l : str) (s : str) (i : nat) (cs : caps) :
  mt (fold_right (fun c r => Seq (Chr c) r) Eps l) s i cs = [] ->
  Py.startswith (skipn i s) l = false.
Proof.
  intros H. destruct (Py.startswith (skipn i s) l) eqn:Hs; [|reflexivity].
  rewrite (mt_literal_found l s i cs Hs) in H. discriminate.
Qed.

(** X2.  A CamelCase match stands right after a whitespace character, so
    never at the start of the text; it begins with a capital letter, has at
    least four characters, all of them word characters, is the text of the
    pattern's one group, and runs to the end of its word. *)
Theorem camelcase_match_shape (text : str) (m : Match) :
  In m (finditer wikilink text) ->
  groups m = [raw text m] /\
  1 <= start_of m /\
  (exists c, nth_error text (start_of m - 1) = Some c /\ is_space c = true) /\
  (exists c, nth_error text (start_of m) = Some c /\ in_cls upper c = true) /\
  start_of m + 4 <= end_of m /\ end_of m <= length text /\
  forallb is_word (raw text m) = true /\
  word_at text (end_of m) = false.
Proof.
  intros Hm.
  pose proof (first_group_spans wikilink text m eq_refl (wikilink_shape text) Hm) as Hg.
  apply finditer_In in Hm. destruct Hm as (st & en & cs & rest & -> & Hmt & Hse & He).
  assert (H : In (en, cs) (mt wikilink text st [])) by (rewrite Hmt; now left).
  unfold raw, start_of, end_of in *. cbn [span match_of fst snd] in *.
  unfold wikilink in H.
  apply mt_group_inv in H. destruct H as (cm & H & _).
  apply mt_seq_inv in H. destruct H as (m1 & c1 & H1 & H).
  apply mt_lookbehind_pos_inv in H1. destruct H1 as (-> & -> & k & c' & Hk & Hsp).
  apply mt_cls_inv in Hsp. destruct Hsp as (-> & _ & c & Hc & Hcs).
  rewrite space_cls in Hcs.
  apply mt_seq_inv in H. destruct H as (m2 & c2 & H2 & H).
  assert (Hst : S k <= length text) by lia.
  destruct (camel_inv text (S k) m2 [] c2 Hst H2) as (-> & Hlen & Hm2 & Hup & Hw).
  pose proof (mt_boundary_holds _ _ _ _ _ H) as Hb.
  apply mt_boundary_inv in H. destruct H as [Heq _]. subst m2.
  split; [exact Hg|]. split; [lia|]. split.
  { exists c. split; [|exact Hcs]. now replace (S k - 1) with k by lia. }
  split; [exact Hup|]. split; [exact Hlen|]. split; [exact Hm2|].
  split; [exact Hw|].
  destruct (slice_last is_word text (S k) en) as (d & Hd & Hdw); [lia | lia | exact Hw|].
  unfold at_boundary in Hb. destruct en as [|e]; [lia|].
  replace (S e - 1) with e in Hd by lia.
  unfold word_at in Hb at 1. rewrite Hd, Hdw in Hb.
  destruct (word_at text (S e)); [discriminate | reflexivity].
Qed.

Lemma mt_alt_left (r1 r2 : regex) (s : str) (i : nat) (cs : caps) (x : nat * caps) :
  In x (mt r1 s i cs) -> In x (mt (Alt r1 r2) s i cs).
Proof. simpl. intros H. apply in_or_app. now left. Qed.

Lemma mt_alt_right (r1 r2 : regex) (s : str) (i : nat) (cs : caps) (x : nat * caps) :
  In x (mt r2 s i cs) -> In x (mt (Alt r1 r2) s i cs).
Proof. simpl. intros H. apply in_or_app. now right. Qed.

Lemma mt_chars_inv (w : String.string) (s : str) (i j : nat) (cs cs' : caps) :
  In (j, cs') (mt (chars w) s i cs) ->
  j = i + length (lit w) /\ cs' = cs /\ Py.slice s i j = lit w.
Proof. unfold chars. apply mt_literal. Qed.

(** X3.  A bare-URL match is [http://] or [https://] followed by at least
    one character, all of them URL characters; it is the text of the
    pattern's one group, is never what directly follows [">] or [="], and
    takes every URL character that follows: the character after it, if any,
    is not one. *)
Theorem bare_url_match_shape (text : str) (m : Match) :
  In m (finditer barelink text) ->
  groups m = [raw text m] /\
  (exists rest,
      rest <> [] /\ forallb (in_cls url_char) rest = true /\
      (raw text m = lit "http://" ++ rest \/ raw text m = lit "https://" ++ rest)) /\
  (forall k,
      start_of m = S (S k) ->
      ~ (nth_error text k = Some dquote /\ nth_error text (S k) = Some ">"%char) /\
      ~ (nth_error text k = Some "="%char /\ nth_error text (S k) = Some dquote)) /\
  (forall c, nth_error text (end_of m) = Some c -> in_cls url_char c = false).
Proof.
  intros Hm.
  pose proof (first_group_spans barelink text m eq_refl (barelink_shape text) Hm) as Hg.
  apply finditer_In in Hm. destruct Hm as (st & en & cs & rest & -> & Hmt & Hse & He).
  assert (H : In (en, cs) (mt barelink text st [])) by (rewrite Hmt; now left).
  unfold raw, start_of, end_of in *. cbn [span match_of fst snd] in *.
  split; [exact Hg|]. split; [|split].
  - unfold barelink in H.
    apply mt_seq_inv in H. destruct H as (m0 & c0 & H0 & H).
    apply mt_lookbehind_inv in H0. destruct H0 as [-> ->].
    apply mt_group_inv in H. destruct H as (cm & H & _).
    apply mt_seq_inv in H. destruct H as (m1 & c1 & H1 & H).
    apply mt_chars_inv in H1. destruct H1 as (-> & -> & Hhttp).
    apply mt_seq_inv in H. destruct H as (m2 & c2 & H2 & H).
    apply mt_seq_inv in H. destruct H as (m3 & c3 & H3 & H).
    apply mt_chars_inv in H3. destruct H3 as (-> & -> & Hsl).
    apply mt_rep_inv in H. destruct H as (_ & Hlo & Hhi).
    simpl length in *.
    exists (Py.slice text (m2 + 3) en). split; [|split].
    + intros Hnil. apply (f_equal (@length _)) in Hnil.
      rewrite slice_length in Hnil by lia. simpl in Hnil. lia.
    + unfold Py.slice. apply run_in_cls. lia.
    + apply mt_opt_inv in H2. destruct H2 as [H2|H2].
      * apply mt_chr_inv in H2. destruct H2 as (-> & _ & Hs). right.
        rewrite <- (slice_app text st (st + 4) en) by lia.
        rewrite <- (slice_app text (st + 4) (S (st + 4)) en) by lia.
        rewrite <- (slice_app text (S (st + 4)) (S (st + 4) + 3) en) by lia.
        rewrite Hhttp, Hsl, (slice_cons text (st + 4) _ "s" Hs), slice_empty by lia.
        reflexivity.
      * injection H2 as -> _. left.
        rewrite <- (slice_app text st (st + 4) en) by lia.
        rewrite <- (slice_app text (st + 4) (st + 4 + 3) en) by lia.
        rewrite Hhttp, Hsl. reflexivity.
  - intros k Hk. subst st. unfold barelink in H.
    apply mt_seq_inv in H. destruct H as (m0 & c0 & H0 & _).
    apply mt_lookbehind_neg_inv in H0. destruct H0 as (_ & _ & Hneg).
    split; intros [Ha Hb]; apply (Hneg k []); try lia.
    + apply mt_alt_left. exact (proj2 (mt_two_chars _ _ text k [] Ha Hb)).
    + apply mt_alt_right. exact (proj1 (mt_two_chars _ _ text k [] Ha Hb)).
  - intros c Hc. unfold barelink in Hmt.
    apply mt_seq_head in Hmt. destruct Hmt as (m0 & c0 & r0 & H0 & Hmt).
    apply mt_group_head in Hmt. destruct Hmt as (cm & r1 & Hmt).
    apply mt_seq_head in Hmt. destruct Hmt as (m1 & c1 & r2 & _ & Hmt).
    apply mt_seq_head in Hmt. destruct Hmt as (m2 & c2 & r3 & _ & Hmt).
    apply mt_seq_head in Hmt. destruct Hmt as (m3 & c3 & r4 & _ & Hmt).
    apply mt_rep_greedy_head in Hmt. subst en.
    apply (run_stops url_char (skipn m3 text)).
    now rewrite nth_error_skipn.
Qed.

Lemma tenant_name_slice (s : str) (a b : nat) :
  a + 2 <= b -> b <= length s ->
  (exists c, nth_error s a = Some c /\ in_cls alnum c = true) ->
  (exists c, nth_error s (b - 1) = Some c /\ in_cls alnum c = true) ->
  forallb (in_cls alnum_dash) (Py.slice s a b) = true ->
  tenant_name (Py.slice s a b).
Proof.
  intros Hab Hb Hfirst Hlast Hall. unfold tenant_name.
  rewrite slice_length by exact Hb. repeat split; [lia | exact Hall | |].
  - rewrite nth_error_slice by lia. now rewrite Nat.add_0_r.
  - rewrite nth_error_slice by lia. now replace (a + (b - a - 1)) with (b - 1) by lia.
Qed.

Lemma slice_one (s : str) (i : nat) (c : ascii) :
  nth_error s i = Some c -> Py.slice s i (S i) = [c].
Proof.
  intros H. rewrite (slice_cons s i (S i) c H) by lia. now rewrite slice_empty.
Qed.

(** What [(?:\s|$)] takes when it is tried first: a whitespace character
    where there is one, and nothing only where the text ends (before a
    final newline the first alternative takes the newline). *)
Lemma right_edge_head (s : str) (i j : nat) (cs cs' : caps) (rest : list (nat * caps)) :
  mt right_edge s i cs = (j, cs') :: rest ->
  cs' = cs /\
  ((j = S i /\ exists c, nth_error s i = Some c /\ is_space c = true) \/
   (j = i /\ i = length s)).
Proof.
  intros H.
  assert (Hin : In (j, cs') (mt right_edge s i cs)) by (rewrite H; now left).
  apply right_edge_inv in Hin. destruct Hin as (-> & [Hsp|(-> & Heol)]).
  { split; [reflexivity|]. now left. }
  split; [reflexivity|]. right. split; [reflexivity|].
  unfold right_edge in H. cbn [mt] in H. unfold at_eol in Heol.
  destruct (nth_error s i) as [c|] eqn:Hc.
  - rewrite space_cls in H. destruct (is_space c) eqn:Hs.
    + cbn [app] in H. injection H as Hi _. lia.
    + apply orb_true_iff in Heol. destruct Heol as [Heol|Heol].
      * now apply Nat.eqb_eq in Heol.
      * apply andb_true_iff in Heol. destruct Heol as [_ Hnl].
        apply N.eqb_eq in Hnl. unfold is_space in Hs. rewrite Hnl in Hs. discriminate.
  - apply nth_error_None in Hc.
    apply orb_true_iff in Heol. destruct Heol as [Heol|Heol].
    + now apply Nat.eqb_eq in Heol.
    + apply andb_true_iff in Heol. destruct Heol as [Heol _].
      apply Nat.eqb_eq in Heol. lia.
Qed.

(** The part every tenant pattern ends with, as the matcher first finds
    it: [@], the name as group [n], and a blank or the end of the text. *)
Lemma tenant_tail_head (n : nat) (s : str) (i j : nat) (cs cs' : caps)
      (rest : list (nat * caps)) :
  mt (Seq (Chr "@") (Seq (Group n space_name_re) right_edge)) s i cs = (j, cs') :: rest ->
  exists b,
    cs' = (n, (S i, b)) :: cs /\ nth_error s i = Some "@"%char /\
    S i <= b /\ b <= j /\ j <= length s /\
    tenant_name (Py.slice s (S i) b) /\
    blank_or (Py.slice s b j) (j = length s).
Proof.
  intros H.
  apply mt_seq_head in H. destruct H as (m1 & c1 & r1 & H1 & H).
  apply mt_chr_inv in H1. destruct H1 as (-> & -> & Hat).
  assert (Hi : S i <= length s).
  { apply Nat.le_succ_l. apply nth_error_Some. congruence. }
  apply mt_seq_head in H. destruct H as (m2 & c2 & r2 & H2 & H).
  apply mt_group_inv in H2. destruct H2 as (cm & H2 & ->).
  destruct (space_name_inv s (S i) m2 cs cm Hi H2) as (-> & Hlen & Hm2 & Hf & Hl & Hall).
  assert (Hin : In (j, cs') (mt right_edge s m2 ((n, (S i, m2)) :: cs)))
    by (rewrite H; now left).
  assert (Hj : m2 <= j <= length s) by (exact (mt_bounds _ _ _ _ _ _ Hm2 Hin)).
  apply right_edge_head in H. destruct H as (-> & H).
  exists m2. split; [reflexivity|]. split; [exact Hat|].
  split; [lia|]. split; [lia|]. split; [lia|]. split.
  - apply tenant_name_slice; assumption.
  - destruct H as [(-> & c & Hc & Hsp)|(-> & Hend)].
    + right. exists c. split; [now apply slice_one | exact Hsp].
    + left. split; [apply slice_empty | exact Hend].
Qed.

Lemma left_edge_lead (s : str) (i j : nat) (cs cs' : caps) :
  In (j, cs') (mt left_edge s i cs) ->
  cs' = cs /\ i <= j /\ blank_or (Py.slice s i j) (i = 0).
Proof.
  intros H. apply left_edge_inv in H.
  destruct H as (-> & [(-> & ->)|(-> & c & Hc & Hsp)]).
  - split; [reflexivity|]. split; [lia|].
    left. split; [apply slice_empty | reflexivity].
  - split; [reflexivity|]. split; [lia|].
    right. exists c. split; [now apply slice_one | exact Hsp].
Qed.

(** X4.  A tenant-link match is [@] and a tenant name, the pattern's one
    group, together with the whitespace character before it (nothing only
    where the text begins) and the one after it (nothing only where the
    text ends; a final newline is taken like any other blank): the blanks
    around the name belong to the span that the anchor replaces. *)
Theorem tenant_match_shape (text : str) (m : Match) :
  In m (finditer spacelink text) ->
  exists lead name trail,
    groups m = [name] /\
    raw text m = lead ++ "@"%char :: name ++ trail /\
    tenant_name name /\
    blank_or lead (start_of m = 0) /\
    blank_or trail (end_of m = length text).
Proof.
  intros Hm. apply finditer_In in Hm.
  destruct Hm as (st & en & cs & rest & -> & Hmt & Hse & He).
  unfold raw, start_of, end_of, match_of. cbn [span groups fst snd].
  change (ngroups spacelink) with 1. cbn [seq map].
  unfold spacelink in Hmt.
  apply mt_seq_head in Hmt. destruct Hmt as (m1 & c1 & r1 & H1 & H).
  apply left_edge_lead in H1. destruct H1 as (-> & Hm1 & Hlead).
  apply tenant_tail_head in H.
  destruct H as (b & -> & Hat & Hb & Hbe & _ & Hname & Htrail).
  exists (Py.slice text st m1), (Py.slice text (S m1) b), (Py.slice text b en).
  unfold group_text. cbn [capture Nat.eqb].
  split; [reflexivity|]. split; [|split; [exact Hname | split; assumption]].
  rewrite <- (slice_app text st m1 en) by lia. f_equal.
  rewrite (slice_cons text m1 en _ Hat) by lia. f_equal.
  now rewrite slice_app by lia.
Qed.

Lemma dot_link_inv (n : nat) (s : str) (i j : nat) (cs cs' : caps) :
  In (j, cs') (mt (Group n (Rep false 1 Dot)) s i cs) ->
  cs' = (n, (i, j)) :: cs /\ i + 1 <= j /\
  forallb (in_cls Dot) (Py.slice s i j) = true.
Proof.
  intros H. apply mt_group_inv in H. destruct H as (cm & H & ->).
  apply mt_rep_inv in H. destruct H as (-> & Hlo & Hhi).
  repeat split; [exact Hlo|]. unfold Py.slice. apply run_in_cls. lia.
Qed.

Lemma nonempty_slice (s : str) (i j : nat) :
  i < j -> j <= length s -> Py.slice s i j <> [].
Proof.
  intros Hij Hj Hnil. apply (f_equal (@length _)) in Hnil.
  rewrite slice_length in Hnil by exact Hj. simpl in Hnil. lia.
Qed.

(** X5.  A match of the tenant-qualified wiki-link pattern is a CamelCase
    word, [@] and a tenant name, with the word and the name as its two
    groups; a match of the tenant-qualified free-link pattern is
    [[[link]]@name] with a non-empty link that holds no newline.  Either
    takes along the whitespace character before it (nothing only where the
    text begins) and the one after it (nothing only where the text
    ends). *)
Theorem tenant_page_match_shape (text : str) (m : Match) :
  (In m (finditer spacewikilink text) ->
   exists lead page name trail,
     groups m = [page; name] /\
     raw text m = lead ++ page ++ "@"%char :: name ++ trail /\
     4 <= length page /\ forallb is_word page = true /\
     tenant_name name /\
     blank_or lead (start_of m = 0) /\
     blank_or trail (end_of m = length text)) /\
  (In m (finditer spacefreelink text) ->
   exists lead link name trail,
     groups m = [link; name] /\
     raw text m = lead ++ lit "[[" ++ link ++ lit "]]" ++ "@"%char :: name ++ trail /\
     link <> [] /\ forallb (in_cls Dot) link = true /\
     tenant_name name /\
     blank_or lead (start_of m = 0) /\
     blank_or trail (end_of m = length text)).
Proof.
  split; intros Hm; apply finditer_In in Hm;
    destruct Hm as (st & en & cs & rest & -> & Hmt & Hse & He);
    unfold raw, start_of, end_of, match_of; cbn [span groups fst snd].
  - change (ngroups spacewikilink) with 2. cbn [seq map].
    unfold spacewikilink in Hmt.
    apply mt_seq_head in Hmt. destruct Hmt as (m1 & c1 & r1 & H1 & H).
    assert (Hst : st <= length text) by lia.
    pose proof (mt_bounds _ _ _ _ _ _ Hst H1) as B1.
    apply left_edge_lead in H1. destruct H1 as (-> & Hm1 & Hlead).
    apply mt_seq_head in H. destruct H as (m2 & c2 & r2 & H2 & H).
    apply mt_group_inv in H2. destruct H2 as (cm & H2 & ->).
    destruct (camel_inv text m1 m2 [] cm (proj2 B1) H2) as (-> & Hlen & Hm2 & _ & Hw).
    apply tenant_tail_head in H.
    destruct H as (b & -> & Hat & Hb & Hbe & _ & Hname & Htrail).
    exists (Py.slice text st m1), (Py.slice text m1 m2),
           (Py.slice text (S m2) b), (Py.slice text b en).
    unfold group_text. cbn [capture Nat.eqb].
    split; [reflexivity|]. split; [|split; [|split; [exact Hw | split; [exact Hname | split; assumption]]]].
    + rewrite <- (slice_app text st m1 en) by lia. f_equal.
      rewrite <- (slice_app text m1 m2 en) by lia. f_equal.
      rewrite (slice_cons text m2 en _ Hat) by lia. f_equal.
      now rewrite slice_app by lia.
    + rewrite slice_length by lia. lia.
  - change (ngroups spacefreelink) with 2. cbn [seq map].
    unfold spacefreelink in Hmt.
    apply mt_seq_head in Hmt. destruct Hmt as (m1 & c1 & r1 & H1 & H).
    apply left_edge_lead in H1. destruct H1 as (-> & Hm1 & Hlead).
    apply mt_seq_head in H. destruct H as (m2 & c2 & r2 & H2 & H).
    apply mt_chars_inv in H2. destruct H2 as (-> & -> & Hopen).
    apply mt_seq_head in H. destruct H as (m3 & c3 & r3 & H3 & H).
    apply dot_link_inv in H3. destruct H3 as (-> & Hlen & Hdot).
    apply mt_seq_head in H. destruct H as (m4 & c4 & r4 & H4 & H).
    apply mt_chars_inv in H4. destruct H4 as (-> & -> & Hclose).
    simpl length in *.
    apply tenant_tail_head in H.
    destruct H as (b & -> & Hat & Hb & Hbe & _ & Hname & Htrail).
    exists (Py.slice text st m1), (Py.slice text (m1 + 2) m3),
           (Py.slice text (S (m3 + 2)) b), (Py.slice text b en).
    unfold group_text. cbn [capture Nat.eqb].
    split; [reflexivity|].
    split; [|split; [apply nonempty_slice; lia
                    |split; [exact Hdot | split; [exact Hname | split; assumption]]]].
    rewrite <- (slice_app text st m1 en) by lia. f_equal.
    rewrite <- (slice_app text m1 (m1 + 2) en) by lia. rewrite Hopen. f_equal.
    rewrite <- (slice_app text (m1 + 2) m3 en) by lia. f_equal.
    rewrite <- (slice_app text m3 (m3 + 2) en) by lia. rewrite Hclose. f_equal.
    rewrite (slice_cons text (m3 + 2) en _ Hat) by lia. f_equal.
    now rewrite slice_app by lia.
Qed.

Lemma mt_seq_head_split (r1 r2 : regex) (s : str) (i : nat) (cs : caps)
      (y : nat * caps) (rest : list (nat * caps)) :
  mt (Seq r1 r2) s i cs = y :: rest ->
  exists l1 x l2 rest',
    mt r1 s i cs = l1 ++ x :: l2 /\
    (forall z, In z l1 -> mt r2 s (fst z) (snd z) = []) /\
    mt r2 s (fst x) (snd x) = y :: rest'.
Proof. simpl. apply flat_map_head. Qed.

Lemma lazy_group_list (n mn : nat) (k : cls) (s : str) (i : nat) (cs : caps) :
  mt (Group n (Rep false mn k)) s i cs =
    map (fun d => (i + d, (n, (i, i + d)) :: cs))
        (seq mn (S (run k (skipn i s)) - mn)).
Proof. cbn [mt]. rewrite map_map. reflexivity. Qed.

(** X6.  The link of a free-link match, its one group, is not empty and
    holds no newline, and it stops at the first []]] that follows one
    character or more: no earlier place inside the link is followed by
    []]]. *)
Theorem free_link_is_shortest (text : str) (m : Match) :
  In m (finditer freelink text) ->
  exists link,
    groups m = [link] /\ link <> [] /\
    forallb (in_cls Dot) link = true /\
    (forall k,
        1 <= k -> k < length link ->
        Py.startswith (Py.from text (start_of m + 2 + k)) (lit "]]") = false).
Proof.
  intros Hm. apply finditer_In in Hm.
  destruct Hm as (st & en & cs & rest & -> & Hmt & Hse & He).
  unfold start_of, match_of. cbn [span groups fst snd].
  change (ngroups freelink) with 1. cbn [seq map].
  unfold freelink in Hmt.
  apply mt_seq_head in Hmt. destruct Hmt as (m1 & c1 & r1 & H1 & Hmt).
  apply mt_chars_inv in H1. destruct H1 as (-> & -> & _). simpl length in Hmt.
  apply mt_seq_head_split in Hmt.
  destruct Hmt as (l1 & [m2 c2] & l2 & r2 & Hl & Hnone & Hclose).
  cbn [fst snd] in Hclose.
  assert (Hx : In (m2, c2) (mt (Group 1 (Rep false 1 Dot)) text (st + 2) []))
    by (rewrite Hl; apply in_elt).
  apply dot_link_inv in Hx. destruct Hx as (-> & Hlen & Hdot).
  assert (Hen : In (en, cs) (mt (chars "]]") text m2 [(1, (st + 2, m2))]))
    by (rewrite Hclose; now left).
  apply mt_chars_inv in Hen. destruct Hen as (-> & -> & _). simpl length in *.
  rewrite lazy_group_list in Hl. apply map_seq_split in Hl. destruct Hl as [Hl1 Hx].
  assert (Hm2 : m2 = st + 2 + (1 + length l1)) by congruence.
  exists (Py.slice text (st + 2) m2). unfold group_text. cbn [capture Nat.eqb].
  split; [reflexivity|]. split; [apply nonempty_slice; lia|]. split; [exact Hdot|].
  intros k Hk1 Hk. rewrite slice_length in Hk by lia.
  apply (mt_literal_none (lit "]]") text (st + 2 + k) [(1, (st + 2, st + 2 + k))]).
  apply (Hnone (st + 2 + k, [(1, (st + 2, st + 2 + k))])).
  rewrite Hl1. apply in_map_iff. exists k. split; [reflexivity|].
  apply in_seq. lia.
Qed.

(** ** Text the patterns leave alone *)

Lemma link_pass_no_match (st : str * link_map) (p : regex * repl) :
  finditer (fst p) (fst st) = [] -> link_pass st p = OK st.
Proof.
  intros H. unfold link_pass. rewrite H. reflexivity.
Qed.

Lemma passes_no_match (lp : list (regex * repl)) (text : str) (lfh : link_map) :
  (forall p, In p lp -> finditer (fst p) text = []) ->
  foldM link_pass lp (text, lfh) = OK (text, lfh).
Proof.
  induction lp as [|p lp IH]; intros H; simpl; [reflexivity|].
  rewrite (link_pass_no_match (text, lfh) p (H p (or_introl eq_refl))). simpl.
  apply IH. intros q Hq. apply H. now right.
Qed.

Lemma nth_error_quiet (text : str) (i : nat) (c : ascii) :
  forallb quiet text = true -> nth_error text i = Some c -> quiet c = true.
Proof. apply forallb_nth_error. Qed.

Lemma quiet_no_freelink (text : str) :
  forallb quiet text = true -> finditer freelink text = [].
Proof.
  intros Hq. destruct (finditer freelink text) as [|m l] eqn:Hf; [reflexivity|].
  exfalso. assert (Hm : In m (finditer freelink text)) by (rewrite Hf; now left).
  apply finditer_In in Hm. destruct Hm as (st & en & cs & rest & _ & Hmt & _).
  assert (H : In (en, cs) (mt freelink text st [])) by (rewrite Hmt; now left).
  unfold freelink in H. apply mt_seq_inv in H. destruct H as (m1 & c1 & H1 & _).
  unfold chars in H1. cbn [lit String.list_ascii_of_string fold_right] in H1.
  apply mt_seq_inv in H1. destruct H1 as (m2 & c2 & H1 & _).
  apply mt_chr_inv in H1. destruct H1 as (_ & _ & Hc).
  pose proof (nth_error_quiet text st _ Hq Hc). discriminate.
Qed.

Lemma quiet_no_wikilink (text : str) :
  forallb quiet text = true -> finditer wikilink text = [].
Proof.
  intros Hq. destruct (finditer wikilink text) as [|m l] eqn:Hf; [reflexivity|].
  exfalso. assert (Hm : In m (finditer wikilink text)) by (rewrite Hf; now left).
  apply finditer_In in Hm. destruct Hm as (st & en & cs & rest & _ & Hmt & _ & He).
  assert (H : In (en, cs) (mt wikilink text st [])) by (rewrite Hmt; now left).
  unfold wikilink in H. apply mt_group_inv in H. destruct H as (cm & H & _).
  apply mt_seq_inv in H. destruct H as (m1 & c1 & H1 & H).
  apply mt_lookbehind_inv in H1. destruct H1 as [-> ->].
  apply mt_seq_inv in H. destruct H as (m2 & c2 & H2 & _).
  unfold camel in H2. apply mt_seq_inv in H2. destruct H2 as (m3 & c3 & H2 & _).
  apply mt_cls_inv in H2. destruct H2 as (_ & _ & c & Hc & Hup).
  pose proof (nth_error_quiet text st c Hq Hc) as Hcq.
  unfold quiet in Hcq. rewrite Hup, !orb_true_r in Hcq. discriminate.
Qed.

Lemma quiet_no_barelink (text : str) :
  forallb quiet text = true -> finditer barelink text = [].
Proof.
  intros Hq. destruct (finditer barelink text) as [|m l] eqn:Hf; [reflexivity|].
  exfalso. assert (Hm : In m (finditer barelink text)) by (rewrite Hf; now left).
  apply finditer_In in Hm. destruct Hm as (st & en & cs & rest & _ & Hmt & _).
  assert (H : In (en, cs) (mt barelink text st [])) by (rewrite Hmt; now left).
  unfold barelink in H. apply mt_seq_inv in H. destruct H as (m0 & c0 & _ & H).
  apply mt_group_inv in H. destruct H as (cm & H & _).
  apply mt_seq_inv in H. destruct H as (m1 & c1 & _ & H).
  apply mt_seq_inv in H. destruct H as (m2 & c2 & _ & H).
  apply mt_seq_inv in H. destruct H as (m3 & c3 & H3 & _).
  unfold chars in H3. cbn [lit String.list_ascii_of_string fold_right] in H3.
  apply mt_seq_inv in H3. destruct H3 as (m4 & c4 & H3 & _).
  apply mt_chr_inv in H3. destruct H3 as (_ & _ & Hc).
  pose proof (nth_error_quiet text m2 _ Hq Hc). discriminate.
Qed.

Lemma quiet_no_tenant_tail (n : nat) (text : str) (i j : nat) (cs cs' : caps) :
  forallb quiet text = true ->
  In (j, cs') (mt (Seq (Chr "@") (Seq (Group n space_name_re) right_edge)) text i cs) ->
  False.
Proof.
  intros Hq H. apply mt_seq_inv in H. destruct H as (m1 & c1 & H1 & _).
  apply mt_chr_inv in H1. destruct H1 as (_ & _ & Hc).
  pose proof (nth_error_quiet text i _ Hq Hc). discriminate.
Qed.

Lemma quiet_no_tenant (text : str) (re : regex) :
  re = spacelink \/ re = spacewikilink \/ re = spacefreelink ->
  forallb quiet text = true -> finditer re text = [].
Proof.
  intros Hre Hq. destruct (finditer re text) as [|m l] eqn:Hf; [reflexivity|].
  exfalso. assert (Hm : In m (finditer re text)) by (rewrite Hf; now left).
  apply finditer_In in Hm. destruct Hm as (st & en & cs & rest & _ & Hmt & _).
  assert (H : In (en, cs) (mt re text st [])) by (rewrite Hmt; now left).
  destruct Hre as [->|[->| ->]].
  - unfold spacelink in H. apply mt_seq_inv in H. destruct H as (m1 & c1 & _ & H).
    exact (quiet_no_tenant_tail _ _ _ _ _ _ Hq H).
  - unfold spacewikilink in H. apply mt_seq_inv in H. destruct H as (m1 & c1 & _ & H).
    apply mt_seq_inv in H. destruct H as (m2 & c2 & _ & H).
    exact (quiet_no_tenant_tail _ _ _ _ _ _ Hq H).
  - unfold spacefreelink in H. apply mt_seq_inv in H. destruct H as (m1 & c1 & _ & H).
    apply mt_seq_inv in H. destruct H as (m2 & c2 & _ & H).
    apply mt_seq_inv in H. destruct H as (m3 & c3 & _ & H).
    apply mt_seq_inv in H. destruct H as (m4 & c4 & _ & H).
    exact (quiet_no_tenant_tail _ _ _ _ _ _ Hq H).
Qed.

(** X7.  A text in which no pattern of the registry matches comes back from
    [_do_link_patterns] as it went in; and with the registry [render]
    builds that is so for every text without an opening bracket, an [@], a
    colon or a capital letter. *)
Theorem quiet_text_is_untouched (text : str) :
  (forall lp,
      (forall p, In p lp -> finditer (fst p) text = []) ->
      _do_link_patterns lp text = OK text) /\
  (forall env lp,
      link_patterns_of env = OK lp ->
      forallb quiet text = true ->
      _do_link_patterns lp text = OK text).
Proof.
  assert (Hgen : forall lp,
             (forall p, In p lp -> finditer (fst p) text = []) ->
             _do_link_patterns lp text = OK text).
  { intros lp H.
    exact (f_equal (fun m => bind m (fun st => OK (expand_hashes st)))
             (passes_no_match lp text [] H)). }
  split; [exact Hgen|].
  intros env lp Hlp Hq. apply Hgen. intros p Hp.
  destruct (wiki_link_base env) as [base|] eqn:Hb.
  - rewrite (link_patterns_of_configured env base Hb) in Hlp. injection Hlp as <-.
    apply in_app_or in Hp. destruct Hp as [Hp|Hp].
    + destruct has_tiddlyspace; [|destruct Hp].
      destruct Hp as [<-|[<-|[<-|[]]]]; cbn [fst];
        apply quiet_no_tenant; auto.
    + destruct Hp as [<-|[<-|[<-|[]]]]; cbn [fst].
      * now apply quiet_no_freelink.
      * now apply quiet_no_wikilink.
      * now apply quiet_no_barelink.
  - unfold link_patterns_of in Hlp. rewrite Hb in Hlp. injection Hlp as <-.
    destruct Hp.
Qed.

(** ** The link base *)

Lemma mapM_ext (A B : Type) (f g : A -> result E B) (l : list A) :
  (forall a, f a = g a) -> mapM f l = mapM g l.
Proof.
  intros H. induction l as [|a l IH]; simpl; [reflexivity|].
  now rewrite H, IH.
Qed.

Lemma link_pass_ext (st : str * link_map) (re : regex) (rp rq : repl) :
  (forall m, replacement rp m = replacement rq m) ->
  link_pass st (re, rp) = link_pass st (re, rq).
Proof.
  intros H. unfold link_pass. cbn [fst snd].
  now rewrite (mapM_ext _ _ (replacement rp) (replacement rq) _ H).
Qed.

Lemma passes_ext (lp lq : list (regex * repl)) :
  Forall2 (fun p q => fst p = fst q /\
                      forall m, replacement (snd p) m = replacement (snd q) m) lp lq ->
  forall st, foldM link_pass lp st = foldM link_pass lq st.
Proof.
  induction 1 as [|[re rp] [re' rq] lp lq [Hre Hrp] _ IH]; intros st; simpl;
    [reflexivity|].
  cbn [fst snd] in Hre, Hrp. subst re'.
  rewrite (link_pass_ext st re rp rq Hrp).
  destruct (link_pass st (re, rq)) as [st'|x]; simpl; [apply IH | reflexivity].
Qed.

Lemma run_conversion_ext (lp lq : list (regex * repl)) (c : conversion) :
  (forall st, foldM link_pass lp st = foldM link_pass lq st) ->
  run_conversion lp c = run_conversion lq c.
Proof.
  intros H. induction c as [html|piece k IH]; simpl; [reflexivity|].
  unfold _do_link_patterns. rewrite H.
  destruct (foldM link_pass lq (piece, [])) as [st|x]; simpl; [apply IH | reflexivity].
Qed.

Lemma space_linker_ext (env1 env2 : environ W) (m : Match) :
  (forall name, space_uri env1 name = space_uri env2 name) ->
  SpaceLinker env1 m = SpaceLinker env2 m.
Proof.
  intros H. unfold SpaceLinker, getitem.
  destruct (groups m) as [|a [|b l]]; simpl; [reflexivity | now rewrite H |].
  destruct (Py.split_max1 "|" a) as [|? [|? [|? ?]]]; now rewrite H.
Qed.

(** X8.  The value of the link base never reaches the output: two
    environments that both have a link base, whatever its value, and whose
    tenants resolve alike render every tiddler alike.  (The base only
    switches the link patterns on.) *)
Theorem link_base_is_a_switch (tiddler : Tiddler) (env1 env2 : environ W)
        (base1 base2 : str) :
  wiki_link_base env1 = Some base1 ->
  wiki_link_base env2 = Some base2 ->
  (forall name, space_uri env1 name = space_uri env2 name) ->
  render tiddler env1 = render tiddler env2.
Proof.
  intros H1 H2 Hs. unfold render.
  rewrite (link_patterns_of_configured env1 base1 H1),
          (link_patterns_of_configured env2 base2 H2).
  simpl bind. apply run_conversion_ext. apply passes_ext.
  assert (Hsp : forall m,
             replacement (Callback (SpaceLinker env1)) m =
             replacement (Callback (SpaceLinker env2)) m).
  { intros m. unfold replacement. now rewrite (space_linker_ext env1 env2 m Hs). }
  apply Forall2_app.
  - destruct has_tiddlyspace; repeat constructor; assumption.
  - repeat constructor.
Qed.

(** ** Escaped hrefs *)

Lemma existsb_flat_map_false (A B : Type) (p : B -> bool) (f : A -> list B) (l : list A) :
  (forall a, existsb p (f a) = false) -> existsb p (flat_map f l) = false.
Proof.
  intros H. induction l as [|a l IH]; simpl; [reflexivity|].
  now rewrite existsb_app, H, IH.
Qed.

Lemma existsb_false_absent (p : ascii -> bool) (l : str) (c : ascii) :
  existsb p l = false -> p c = true -> ~ In c l.
Proof.
  intros Hl Hc Hin.
  assert (existsb p l = true) by (apply existsb_exists; eauto).
  congruence.
Qed.

(** X9.  An escaped href holds no double quote, no star and no underscore,
    as long as the escape-table entries for the star and the underscore
    hold none: nothing in it can end the attribute or start emphasis. *)
Theorem escaped_href_is_inert (href : str) :
  existsb special (g_escape_table "*") = false ->
  existsb special (g_escape_table "_") = false ->
  existsb special (escape_href href) = false.
Proof.
  intros Hs Hu.
  assert (Hg : ~ In "_"%char (g_escape_table "*"))
    by (exact (existsb_false_absent special _ "_" Hs eq_refl)).
  rewrite (escape_href_chars href Hg). unfold escape_chars.
  apply existsb_flat_map_false. intros c. unfold escape_char.
  destruct (Ascii.eqb c dquote) eqn:Hq; [reflexivity|].
  destruct (Ascii.eqb c "*") eqn:Hst; [exact Hs|].
  destruct (Ascii.eqb c "_") eqn:Hun; [exact Hu|].
  simpl. unfold special. now rewrite Hq, Hst, Hun.
Qed.

(** ** The replacements of one pattern *)

(** X10.  The list of replacements the first inner loop builds has one
    entry for every match, and their spans are in ascending order, do not
    overlap and lie within the text; this is what lets the second loop
    splice from the last to the first. *)
Theorem replacements_are_ascending (re : regex) (rp : repl) (text : str)
        (reps : list (nat * nat * str * option str)) :
  mapM (replacement rp) (finditer re text) = OK reps ->
  map span_of reps = map span (finditer re text) /\
  ascending 0 (length text) (map span_of reps).
Proof.
  intros H.
  assert (Hs : map span_of reps = map span (finditer re text))
    by (exact (mapM_ok_map _ _ _ _ span span_of (replacement_span rp) _ _ H)).
  split; [exact Hs|]. rewrite Hs. apply finditer_ascending.
Qed.

(** ** Keys that do not occur *)

Lemma replace_scan_absent (old new : str) (s : str) :
  Py.contains s old = false -> Py.replace_scan old new 0 s = s.
Proof.
  induction s as [|c s IH]; simpl; [reflexivity|].
  intros H. apply orb_false_iff in H. destruct H as [Hs Hc].
  rewrite Hs. now rewrite (IH Hc).
Qed.

(** X11.  The final loop leaves a text alone in which none of the keys
    occurs: expanding the placeholders changes nothing but occurrences of
    keys. *)
Theorem text_without_keys_is_kept (T : str) (M : link_map) :
  (forall k v, In (k, v) M -> k <> [] /\ Py.contains T k = false) ->
  expand_hashes (T, M) = T.
Proof.
  unfold expand_hashes. cbn [fst snd].
  induction M as [|[k v] M IH]; intros H; [reflexivity|].
  cbn [fold_left fst snd].
  destruct (H k v (or_introl eq_refl)) as [Hk Hc].
  assert (Hr : Py.replace T k v = T).
  { destruct k as [|c k]; [congruence|]. exact (replace_scan_absent (c :: k) v T Hc). }
  rewrite Hr. apply IH. intros k' v' Hin. apply (H k' v'). now right.
Qed.

(** * Placeholders in the way of later patterns

    Every pass splices its placeholders into the text the next pass is
    matched against, and a placeholder is made of characters that the
    bare-URL and the CamelCase pattern accept.  Two documents show what
    comes of it, for every hashing utility that gives keys of markdown2's
    shape. *)

(** ** The characters of a placeholder *)

Lemma key_char_classes (c : ascii) :
  key_char c = true ->
  in_cls url_char c = true /\ in_cls upper c = false /\
  Ascii.eqb c "h" = false /\ special c = false /\ Ascii.eqb "<" c = false.
Proof.
  destruct c as [[|] [|] [|] [|] [|] [|] [|] [|]];
    vm_compute; intros H; try discriminate H; repeat split.
Qed.

Lemma hexdigit_not_m (c : ascii) : hexdigit c = true -> Ascii.eqb "m" c = false.
Proof.
  destruct c as [[|] [|] [|] [|] [|] [|] [|] [|]];
    vm_compute; intros H; try discriminate H; reflexivity.
Qed.

Lemma md5_key_inv (k : str) :
  md5_key k = true ->
  exists h, k = lit "md5-" ++ h /\ length h = 32 /\ forallb hexdigit h = true.
Proof.
  unfold md5_key. intros H.
  apply andb_true_iff in H. destruct H as [H Hh].
  apply andb_true_iff in H. destruct H as [Hp Hl]. apply Nat.eqb_eq in Hl.
  destruct k as [|c0 [|c1 [|c2 [|c3 h]]]];
    cbn [Py.startswith lit String.list_ascii_of_string] in Hp;
    try (simpl in Hl; discriminate Hl).
  apply andb_true_iff in Hp. destruct Hp as [H0 Hp]. apply Ascii.eqb_eq in H0.
  apply andb_true_iff in Hp. destruct Hp as [H1 Hp]. apply Ascii.eqb_eq in H1.
  apply andb_true_iff in Hp. destruct Hp as [H2 Hp]. apply Ascii.eqb_eq in H2.
  apply andb_true_iff in Hp. destruct Hp as [H3 _]. apply Ascii.eqb_eq in H3.
  subst. exists h. split; [reflexivity|]. split; [simpl in Hl; lia | exact Hh].
Qed.

Lemma md5_key_length (k : str) : md5_key k = true -> length k = 36.
Proof.
  intros H. destruct (md5_key_inv k H) as (h & -> & Hl & _).
  rewrite length_app, Hl. reflexivity.
Qed.

Lemma md5_key_chars (k : str) : md5_key k = true -> forallb key_char k = true.
Proof.
  intros H. destruct (md5_key_inv k H) as (h & -> & _ & Hh).
  rewrite forallb_app. apply andb_true_iff. split; [reflexivity|].
  apply (forallb_weaken _ hexdigit); [|exact Hh].
  intros c Hc. unfold key_char. now rewrite Hc.
Qed.

(** ** A match found by running the matcher forwards *)

Lemma run_app (k : cls) (s1 s2 : str) :
  forallb (in_cls k) s1 = true -> run k (s1 ++ s2) = length s1 + run k s2.
Proof.
  induction s1 as [|c s1 IH]; simpl; [reflexivity|].
  intros H. apply andb_true_iff in H. destruct H as [Hc Hs].
  now rewrite Hc, (IH Hs).
Qed.

Lemma mt_seq_first (r1 r2 : regex) (s : str) (i m : nat) (cs cm : caps)
      (l1 l2 : list (nat * caps)) (y : nat * caps) :
  mt r1 s i cs = (m, cm) :: l1 -> mt r2 s m cm = y :: l2 ->
  exists rest, mt (Seq r1 r2) s i cs = y :: rest.
Proof.
  intros H1 H2. cbn [mt]. rewrite H1. cbn [flat_map fst snd]. rewrite H2.
  eexists. reflexivity.
Qed.

Lemma mt_group_first (n : nat) (r : regex) (s : str) (i j : nat) (cs cm : caps)
      (l : list (nat * caps)) :
  mt r s i cs = (j, cm) :: l ->
  exists rest, mt (Group n r) s i cs = (j, (n, (i, j)) :: cm) :: rest.
Proof.
  intros H. cbn [mt]. rewrite H. cbn [map fst snd]. eexists. reflexivity.
Qed.

Lemma mt_rep_greedy_first (mn : nat) (k : cls) (s : str) (i : nat) (cs : caps) :
  mn <= run k (skipn i s) ->
  exists rest, mt (Rep true mn k) s i cs = (i + run k (skipn i s), cs) :: rest.
Proof.
  intros H. cbn [mt].
  replace (S (run k (skipn i s)) - mn) with (S (run k (skipn i s) - mn)) by lia.
  rewrite seq_S, map_app, rev_app_distr. cbn [map rev app].
  replace (mn + (run k (skipn i s) - mn)) with (run k (skipn i s)) by lia.
  eexists. reflexivity.
Qed.

Lemma search_from_none (r : regex) (s : str) :
  forall fuel pos,
    (forall p, pos <= p -> mt r s p [] = []) -> search_from r s fuel pos = None.
Proof.
  induction fuel as [|f IH]; intros pos H; simpl; rewrite (H pos (le_n pos)).
  - reflexivity.
  - apply IH. intros p Hp. apply H. lia.
Qed.

Lemma search_from_skip (r : regex) (s : str) :
  forall d fuel pos,
    (forall p, pos <= p -> p < pos + d -> mt r s p [] = []) ->
    search_from r s (d + fuel) pos = search_from r s fuel (pos + d).
Proof.
  induction d as [|d IH]; intros fuel pos H.
  - now rewrite Nat.add_0_r.
  - cbn [Nat.add search_from]. rewrite (H pos) by lia.
    rewrite (IH fuel (S pos)).
    + f_equal. lia.
    + intros p Hp1 Hp2. apply H; lia.
Qed.

(** The pattern matches once: first at [st], and nowhere from the end of
    that match on. *)
Lemma finditer_one (r : regex) (s : str) (st en : nat) (cs : caps)
      (rest : list (nat * caps)) :
  (forall p, p < st -> mt r s p [] = []) ->
  mt r s st [] = (en, cs) :: rest ->
  st < en -> st <= length s ->
  (forall p, en <= p -> mt r s p [] = []) ->
  finditer r s = [match_of r s st en cs].
Proof.
  intros Hbefore Hat Hlt Hst Hafter.
  unfold finditer. cbn [finditer_from].
  assert (Hs : search r s 0 = Some (st, en, cs)).
  { unfold search. cbn [Nat.leb]. rewrite Nat.sub_0_r.
    replace (length s) with (st + (length s - st)) by lia.
    rewrite (search_from_skip r s st (length s - st) 0)
      by (intros p _ Hp; apply Hbefore; exact Hp).
    cbn [Nat.add].
    destruct (length s - st); cbn [search_from]; now rewrite Hat. }
  rewrite Hs.
  destruct (Nat.eqb_spec en st) as [Heq|_]; [lia|].
  assert (Hn : search r s en = None).
  { unfold search. destruct (en <=? length s); [|reflexivity].
    now apply search_from_none. }
  rewrite Hn. reflexivity.
Qed.

(** A bare URL begins with [h]. *)
Lemma barelink_needs_h (s : str) (p : nat) :
  (forall c, nth_error s p = Some c -> Ascii.eqb c "h" = false) ->
  mt barelink s p [] = [].
Proof.
  intros H. destruct (mt barelink s p []) as [|[j c] l] eqn:Hm; [reflexivity|].
  exfalso.
  assert (Hin : In (j, c) (mt barelink s p [])) by (rewrite Hm; now left).
  unfold barelink in Hin.
  apply mt_seq_inv in Hin. destruct Hin as (m0 & c0 & H0 & Hin).
  apply mt_lookbehind_inv in H0. destruct H0 as [-> ->].
  apply mt_group_inv in Hin. destruct Hin as (cm & Hin & _).
  apply mt_seq_inv in Hin. destruct Hin as (m1 & c1 & H1 & _).
  unfold chars in H1. cbn [lit String.list_ascii_of_string fold_right] in H1.
  apply mt_seq_inv in H1. destruct H1 as (m2 & c2 & H1 & _).
  apply mt_chr_inv in H1. destruct H1 as (_ & _ & Hc).
  pose proof (H _ Hc) as Hh. discriminate Hh.
Qed.

(** The bare-URL pattern on a text that goes on with a placeholder right
    after [http://a.b/]: the match runs through the placeholder. *)
Lemma barelink_takes_key (k rest : str) :
  forallb key_char k = true ->
  run url_char rest = 0 ->
  (forall c, In c rest -> Ascii.eqb c "h" = false) ->
  finditer barelink (lit "http://a.b/" ++ k ++ rest) =
    [mkMatch (0, 11 + length k) [lit "http://a.b/" ++ k]].
Proof.
  intros Hk Hr Hrest. set (s := lit "http://a.b/" ++ k ++ rest).
  assert (Hurl : forallb (in_cls url_char) k = true).
  { apply (forallb_weaken _ key_char); [|exact Hk].
    intros c Hc. exact (proj1 (key_char_classes c Hc)). }
  assert (Hat : exists more,
             mt barelink s 0 [] = (11 + length k, [(1, (0, 11 + length k))]) :: more).
  { unfold barelink.
    assert (Hrep : exists l, mt (Rep true 1 url_char) s 7 [] = (11 + length k, []) :: l).
    { assert (Hrun : run url_char (skipn 7 s) = 4 + length k).
      { change (skipn 7 s) with (lit "a.b/" ++ k ++ rest).
        rewrite run_app by reflexivity. rewrite run_app by exact Hurl.
        rewrite Hr. simpl length. lia. }
      destruct (mt_rep_greedy_first 1 url_char s 7 []) as [l Hl]; [lia|].
      exists l. rewrite Hl, Hrun. reflexivity. }
    destruct Hrep as [l Hrep].
    destruct (mt_seq_first (chars "://") _ s 4 7 [] [] [] l _ eq_refl Hrep) as [l1 H1].
    destruct (mt_seq_first (Opt (Chr "s")) _ s 4 4 [] [] [] l1 _ eq_refl H1) as [l2 H2].
    destruct (mt_seq_first (chars "http") _ s 0 4 [] [] [] l2 _ eq_refl H2) as [l3 H3].
    destruct (mt_group_first 1 _ s 0 _ [] [] l3 H3) as [l4 H4].
    destruct (mt_seq_first
                (LookBehind false
                   (Alt (Seq (Chr dquote) (chars ">")) (Seq (Chr "=") (Chr dquote))))
                _ s 0 0 [] [] [] l4 _ eq_refl H4) as [l5 H5].
    exists l5. exact H5. }
  destruct Hat as [more Hat].
  assert (Hlen : length s = 11 + length k + length rest).
  { unfold s. rewrite !length_app. simpl length. lia. }
  rewrite (finditer_one barelink s 0 (11 + length k) [(1, (0, 11 + length k))] more).
  - unfold match_of. f_equal. change (ngroups barelink) with 1. cbn [seq map].
    unfold group_text. cbn [capture Nat.eqb]. f_equal.
    unfold Py.slice. rewrite Nat.sub_0_r. cbn [skipn].
    unfold s. rewrite app_assoc, firstn_app.
    replace (11 + length k - length (lit "http://a.b/" ++ k)) with 0
      by (rewrite length_app; simpl length; lia).
    rewrite firstn_all2 by (rewrite length_app; simpl length; lia).
    cbn [firstn]. rewrite app_nil_r. reflexivity.
  - intros p Hp. lia.
  - exact Hat.
  - lia.
  - lia.
  - intros p Hp. apply barelink_needs_h. intros c Hc.
    apply Hrest. unfold s in Hc. rewrite app_assoc in Hc.
    rewrite nth_error_app2 in Hc by (rewrite length_app; simpl length; lia).
    eapply nth_error_In. exact Hc.
Qed.

(** A CamelCase word begins with a capital letter. *)
Lemma no_capital_no_wikilink (text : str) :
  forallb (fun c => negb (in_cls upper c)) text = true -> finditer wikilink text = [].
Proof.
  intros Hq. destruct (finditer wikilink text) as [|m l] eqn:Hf; [reflexivity|].
  exfalso. assert (Hm : In m (finditer wikilink text)) by (rewrite Hf; now left).
  apply finditer_In in Hm. destruct Hm as (st & en & cs & rest & _ & Hmt & _ & He).
  assert (H : In (en, cs) (mt wikilink text st [])) by (rewrite Hmt; now left).
  unfold wikilink in H. apply mt_group_inv in H. destruct H as (cm & H & _).
  apply mt_seq_inv in H. destruct H as (m1 & c1 & H1 & H).
  apply mt_lookbehind_inv in H1. destruct H1 as [-> ->].
  apply mt_seq_inv in H. destruct H as (m2 & c2 & H2 & _).
  unfold camel in H2. apply mt_seq_inv in H2. destruct H2 as (m3 & c3 & H2 & _).
  apply mt_cls_inv in H2. destruct H2 as (_ & _ & c & Hc & Hup).
  pose proof (forallb_nth_error _ text st c Hq Hc) as Hcq.
  cbv beta in Hcq. rewrite Hup in Hcq. discriminate Hcq.
Qed.

(** ** Keys in a text *)

Lemma str_neqb (a b : str) : a <> b -> str_eqb a b = false.
Proof.
  intros H. destruct (str_eqb a b) eqn:Hab; [|reflexivity].
  apply str_eqb_eq in Hab. contradiction.
Qed.

Lemma startswith_same_length (p : str) :
  forall k rest, length p = length k -> Py.startswith (k ++ rest) p = str_eqb p k.
Proof.
  induction p as [|c p IH]; intros [|d k] rest H; try discriminate H.
  - reflexivity.
  - cbn [app Py.startswith str_eqb]. rewrite IH by (simpl in H; lia). reflexivity.
Qed.

Lemma startswith_other_head (a c : ascii) (p s : str) :
  Ascii.eqb a c = false -> Py.startswith (c :: s) (a :: p) = false.
Proof. intros H. cbn [Py.startswith]. now rewrite H. Qed.

Lemma contains_clean (a : ascii) (p s1 s2 : str) :
  forallb (fun c => negb (Ascii.eqb a c)) s1 = true ->
  Py.contains (s1 ++ s2) (a :: p) = Py.contains s2 (a :: p).
Proof.
  induction s1 as [|c s1 IH]; intros H; [reflexivity|].
  cbn [forallb] in H. apply andb_true_iff in H. destruct H as [Hc Hs].
  apply negb_true_iff in Hc.
  cbn [app Py.contains]. rewrite (startswith_other_head a c p _ Hc).
  cbn [orb]. exact (IH Hs).
Qed.

Lemma replace_clean (a : ascii) (p new s1 s2 : str) :
  forallb (fun c => negb (Ascii.eqb a c)) s1 = true ->
  Py.replace_scan (a :: p) new 0 (s1 ++ s2) = s1 ++ Py.replace_scan (a :: p) new 0 s2.
Proof.
  induction s1 as [|c s1 IH]; intros H; [reflexivity|].
  cbn [forallb] in H. apply andb_true_iff in H. destruct H as [Hc Hs].
  apply negb_true_iff in Hc.
  cbn [app Py.replace_scan]. rewrite (startswith_other_head a c p _ Hc).
  now rewrite (IH Hs).
Qed.

(** A placeholder begins with [m], and no [m] follows. *)
Lemma md5_key_tail (k : str) :
  md5_key k = true ->
  exists t, k = "m"%char :: t /\
            forallb (fun c => negb (Ascii.eqb "m" c)) t = true.
Proof.
  intros H. destruct (md5_key_inv k H) as (h & -> & _ & Hh).
  exists (lit "d5-" ++ h). split; [reflexivity|].
  rewrite forallb_app. apply andb_true_iff. split; [reflexivity|].
  apply (forallb_weaken _ hexdigit); [|exact Hh].
  intros c Hc. now rewrite (hexdigit_not_m c Hc).
Qed.

(** Where one placeholder stands, another occurs only if it is the same. *)
Lemma contains_key (k k' rest : str) :
  md5_key k = true -> md5_key k' = true ->
  Py.contains (k ++ rest) k' = str_eqb k' k || Py.contains rest k'.
Proof.
  intros Hk Hk'.
  pose proof (md5_key_length k Hk) as Hl. pose proof (md5_key_length k' Hk') as Hl'.
  rewrite <- (startswith_same_length k' k rest) by congruence.
  destruct (md5_key_tail k Hk) as (t & -> & Ht).
  destruct (md5_key_tail k' Hk') as (t' & -> & _).
  cbn [app Py.contains]. f_equal. exact (contains_clean "m" t' t rest Ht).
Qed.

Lemma contains_key_clean (k s1 s2 : str) :
  md5_key k = true ->
  forallb (fun c => negb (Ascii.eqb "m" c)) s1 = true ->
  Py.contains (s1 ++ s2) k = Py.contains s2 k.
Proof.
  intros Hk Hs. destruct (md5_key_tail k Hk) as (t & -> & _).
  exact (contains_clean "m" t s1 s2 Hs).
Qed.

Lemma contains_key_nil (k : str) : md5_key k = true -> Py.contains [] k = false.
Proof.
  intros Hk. destruct (md5_key_tail k Hk) as (t & -> & _). reflexivity.
Qed.

Lemma contains_other_key (k k' : str) :
  md5_key k = true -> md5_key k' = true -> k' <> k -> Py.contains k k' = false.
Proof.
  intros Hk Hk' Hne. rewrite <- (app_nil_r k).
  rewrite (contains_key k k' [] Hk Hk'), (str_neqb k' k Hne).
  exact (contains_key_nil k' Hk').
Qed.

Lemma replace_key_absent (k v s : str) :
  md5_key k = true -> Py.contains s k = false -> Py.replace s k v = s.
Proof.
  intros Hk Hc. destruct (md5_key_tail k Hk) as (t & -> & _).
  exact (replace_scan_absent _ v s Hc).
Qed.

Lemma replace_key_here (k v rest : str) :
  md5_key k = true -> Py.replace (k ++ rest) k v = v ++ Py.replace rest k v.
Proof.
  intros Hk. destruct (md5_key_tail k Hk) as (t & -> & _).
  exact (scan_match "m" t v rest).
Qed.

Lemma replace_key_clean (k v s1 s2 : str) :
  md5_key k = true ->
  forallb (fun c => negb (Ascii.eqb "m" c)) s1 = true ->
  Py.replace (s1 ++ s2) k v = s1 ++ Py.replace s2 k v.
Proof.
  intros Hk Hs. destruct (md5_key_tail k Hk) as (t & -> & _).
  exact (replace_clean "m" t v s1 s2 Hs).
Qed.

Lemma replace_key_other (k k' v rest : str) :
  md5_key k = true -> md5_key k' = true -> k <> k' ->
  Py.replace (k' ++ rest) k v = k' ++ Py.replace rest k v.
Proof.
  intros Hk Hk' Hne.
  pose proof (md5_key_length k Hk) as Hl. pose proof (md5_key_length k' Hk') as Hl'.
  pose proof (startswith_same_length k k' rest) as Hs.
  rewrite (str_neqb k k' Hne) in Hs.
  destruct (md5_key_tail k Hk) as (t & -> & _).
  destruct (md5_key_tail k' Hk') as (t' & -> & Ht').
  cbn [Py.replace]. cbn [app Py.replace_scan].
  cbn [app] in Hs. rewrite Hs by congruence.
  f_equal. exact (replace_clean "m" t v t' rest Ht').
Qed.

Lemma replace_key_other_end (k k' v : str) :
  md5_key k = true -> md5_key k' = true -> k <> k' -> Py.replace k' k v = k'.
Proof.
  intros Hk Hk' Hne. apply (replace_key_absent k v k' Hk).
  exact (contains_other_key k' k Hk' Hk Hne).
Qed.

Lemma replace_key_nil (k v : str) : md5_key k = true -> Py.replace [] k v = [].
Proof.
  intros Hk. destruct (md5_key_tail k Hk) as (t & -> & _). reflexivity.
Qed.

Lemma replace_key_self (k v : str) : md5_key k = true -> Py.replace k k v = v.
Proof.
  intros Hk. rewrite <- (app_nil_r k) at 1.
  rewrite (replace_key_here k v [] Hk), (replace_key_nil k v Hk). apply app_nil_r.
Qed.

Lemma replace_key_none (k v s : str) :
  md5_key k = true ->
  forallb (fun c => negb (Ascii.eqb "m" c)) s = true -> Py.replace s k v = s.
Proof.
  intros Hk Hs. rewrite <- (app_nil_r s) at 1.
  rewrite (replace_key_clean k v s [] Hk Hs), (replace_key_nil k v Hk). apply app_nil_r.
Qed.

(** ** The passes over a text with a placeholder in it *)

Lemma escape_href_plain (href : str) :
  existsb special href = false -> escape_href href = href.
Proof.
  intros H.
  assert (Hq : ~ In dquote href)
    by (exact (existsb_false_absent special href dquote H eq_refl)).
  assert (Hs : ~ In "*"%char href)
    by (exact (existsb_false_absent special href "*" H eq_refl)).
  assert (Hu : ~ In "_"%char href)
    by (exact (existsb_false_absent special href "_" H eq_refl)).
  rewrite (escape_href_underscores href Hq Hs), replace_char.
  now apply flat_map_absent.
Qed.

Lemma keys_not_special (k : str) : forallb key_char k = true -> existsb special k = false.
Proof.
  induction k as [|c k IH]; intros Hc; [reflexivity|].
  cbn [forallb] in Hc. apply andb_true_iff in Hc. destruct Hc as [Hc Hr].
  cbn [existsb].
  destruct (key_char_classes c Hc) as (_ & _ & _ & Hsp & _). rewrite Hsp.
  exact (IH Hr).
Qed.

Lemma passes_step (st st' fin : str * link_map) (p : regex * repl)
      (lp : list (regex * repl)) :
  link_pass st p = OK st' -> foldM link_pass lp st' = OK fin ->
  foldM link_pass (p :: lp) st = OK fin.
Proof. intros H1 H2. cbn [foldM]. rewrite H1. exact H2. Qed.

(** The bare-URL pass over [http://a.b/], a placeholder and a rest that
    does not go on as a URL and holds no other: the placeholder leaves the
    text as part of the URL, and is written into the URL's anchor. *)
Lemma url_pass_takes_key (k rest : str) (M : link_map) :
  md5_key k = true ->
  run url_char rest = 0 ->
  (forall c, In c rest -> Ascii.eqb c "h" = false) ->
  link_pass (lit "http://a.b/" ++ k ++ rest, M) (barelink, Template (lit "\1")) =
    OK (_hash_text (anchor (lit "http://a.b/" ++ k) (lit "http://a.b/" ++ k)) ++ rest,
        remember M (anchor (lit "http://a.b/" ++ k) (lit "http://a.b/" ++ k))).
Proof.
  intros Hk Hr Hrest.
  pose proof (md5_key_chars k Hk) as Hc.
  pose proof (md5_key_length k Hk) as Hl.
  unfold link_pass. cbn [fst snd].
  rewrite (barelink_takes_key k rest Hc Hr Hrest).
  set (url := lit "http://a.b/" ++ k).
  assert (Hrep : replacement (Template (lit "\1")) (mkMatch (0, 11 + length k) [url]) =
                 OK ((0, 11 + length k), url, None)).
  { unfold replacement. cbn. rewrite app_nil_r. reflexivity. }
  cbn [mapM]. rewrite Hrep. cbn [bind rev app fold_left].
  unfold splice_one.
  assert (He : escape_href url = url).
  { apply escape_href_plain. unfold url. rewrite existsb_app.
    rewrite (keys_not_special k Hc). reflexivity. }
  rewrite He.
  assert (Hu : length url = 11 + length k)
    by (unfold url; rewrite length_app; reflexivity).
  assert (Hs : Py.slice (lit "http://a.b/" ++ k ++ rest) 0 (11 + length k) = url).
  { rewrite app_assoc. fold url. rewrite slice_full_prefix by lia.
    unfold Py.slice. rewrite Nat.sub_0_r. cbn [skipn].
    apply firstn_all2. lia. }
  rewrite Hs.
  assert (Hf : Py.from (lit "http://a.b/" ++ k ++ rest) (11 + length k) = rest).
  { unfold Py.from. rewrite app_assoc. fold url. rewrite skipn_app.
    rewrite skipn_all2 by lia.
    replace (11 + length k - length url) with 0 by lia.
    reflexivity. }
  rewrite Hf. reflexivity.
Qed.

Lemma tenant_passes_skip (env : environ W) (text : str) (lfh : link_map)
      (lp : list (regex * repl)) (fin : str * link_map) :
  finditer spacefreelink text = [] -> finditer spacewikilink text = [] ->
  finditer spacelink text = [] ->
  foldM link_pass lp (text, lfh) = OK fin ->
  foldM link_pass
    ((if has_tiddlyspace
      then [(spacefreelink, Callback (SpaceLinker env));
            (spacewikilink, Callback (SpaceLinker env));
            (spacelink, Callback (SpaceLinker env))]
      else []) ++ lp) (text, lfh) = OK fin.
Proof.
  intros H1 H2 H3 H. destruct has_tiddlyspace; [|exact H].
  cbn [app].
  apply passes_step with (st' := (text, lfh)); [now apply link_pass_no_match|].
  apply passes_step with (st' := (text, lfh)); [now apply link_pass_no_match|].
  apply passes_step with (st' := (text, lfh)); [now apply link_pass_no_match|].
  exact H.
Qed.

Lemma key_no_capital (k : str) :
  forallb key_char k = true -> forallb (fun c => negb (in_cls upper c)) k = true.
Proof.
  apply forallb_weaken. intros c Hc.
  destruct (key_char_classes c Hc) as (_ & Hu & _). now rewrite Hu.
Qed.

Lemma key_no_h (k : str) (c : ascii) :
  forallb key_char k = true -> In c k -> Ascii.eqb c "h" = false.
Proof.
  intros Hk Hin. rewrite forallb_forall in Hk.
  exact (proj1 (proj2 (proj2 (key_char_classes c (Hk c Hin))))).
Qed.

(** C9.  The keys do get into text that a pattern reads as the document's.
    In [http://a.b/[[A]]], under the registry [render] builds (with the
    tenant patterns or without) and with keys of markdown2's shape that
    differ, the free-link pass leaves the placeholder of [[[A]]] right
    after the URL, and the bare-URL pattern matches the URL together with
    it.  After the passes the text is the placeholder of the URL alone:
    the key of the free link occurs nowhere in it, and stands inside the
    anchor stored for the URL.  The final loop, visiting the entries in
    the order in which they were assigned, leaves that key unexpanded in
    the output; visiting them in the other order it writes the anchor of
    the free link into the href and into the label of the URL's anchor.
    In neither order does it replace exactly the spliced placeholders. *)
Theorem placeholder_is_taken_for_text (env : environ W) (base : str)
        (lp : list (regex * repl)) :
  let link := anchor (lit "A") (lit "A") in
  let key := _hash_text link in
  let url := lit "http://a.b/" ++ key in
  let url_link := anchor url url in
  let url_key := _hash_text url_link in
  wiki_link_base env = Some base ->
  link_patterns_of env = OK lp ->
  md5_key key = true -> md5_key url_key = true -> key <> url_key ->
  link_pass (lit "http://a.b/[[A]]", []) (freelink, Callback (FreeLinker base)) =
    OK (lit "http://a.b/" ++ key, [(key, link)]) /\
  finditer barelink (lit "http://a.b/" ++ key) = [mkMatch (0, 47) [url]] /\
  foldM link_pass lp (lit "http://a.b/[[A]]", []) =
    OK (url_key, [(key, link); (url_key, url_link)]) /\
  Py.contains url_key key = false /\
  expand_hashes (url_key, [(key, link); (url_key, url_link)]) = url_link /\
  expand_hashes (url_key, [(url_key, url_link); (key, link)]) =
    anchor (lit "http://a.b/" ++ link) (lit "http://a.b/" ++ link) /\
  _do_link_patterns lp (lit "http://a.b/[[A]]") = OK url_link.
Proof.
  intros link key url url_link url_key Hb Hlp Hk Hku Hne.
  pose proof (md5_key_chars key Hk) as Hc.
  pose proof (md5_key_length key Hk) as Hl.
  assert (Hfree : link_pass (lit "http://a.b/[[A]]", [])
                    (freelink, Callback (FreeLinker base)) =
                  OK (lit "http://a.b/" ++ key, [(key, link)])).
  { transitivity (OK (E:=E) (lit "http://a.b/" ++ key ++ [], [(key, link)]));
      [reflexivity | now rewrite app_nil_r]. }
  assert (Hfind : finditer barelink (lit "http://a.b/" ++ key) = [mkMatch (0, 47) [url]]).
  { pose proof (barelink_takes_key key [] Hc eq_refl) as H.
    rewrite app_nil_r, Hl in H. apply H. intros c []. }
  assert (Hwiki : link_pass (lit "http://a.b/" ++ key, [(key, link)])
                    (wikilink, Template (lit "\1")) =
                  OK (lit "http://a.b/" ++ key, [(key, link)])).
  { apply link_pass_no_match. cbn [fst]. apply no_capital_no_wikilink.
    rewrite forallb_app. now rewrite (key_no_capital key Hc). }
  assert (Hurl : link_pass (lit "http://a.b/" ++ key, [(key, link)])
                   (barelink, Template (lit "\1")) =
                 OK (url_key, [(key, link); (url_key, url_link)])).
  { pose proof (url_pass_takes_key key [] [(key, link)] Hk eq_refl) as H.
    rewrite !app_nil_r in H. etransitivity; [apply H; intros c []|].
    unfold remember. cbn [dict_set]. fold url url_link url_key.
    now rewrite (str_neqb key url_key Hne). }
  assert (Hpasses : foldM link_pass lp (lit "http://a.b/[[A]]", []) =
                    OK (url_key, [(key, link); (url_key, url_link)])).
  { rewrite (link_patterns_of_configured env base Hb) in Hlp. injection Hlp as <-.
    apply tenant_passes_skip; try reflexivity.
    apply passes_step with (st' := (lit "http://a.b/" ++ key, [(key, link)]));
      [exact Hfree|].
    apply passes_step with (st' := (lit "http://a.b/" ++ key, [(key, link)]));
      [exact Hwiki|].
    apply passes_step with (st' := (url_key, [(key, link); (url_key, url_link)]));
      [exact Hurl | reflexivity]. }
  assert (Hgone : Py.contains url_key key = false)
    by (exact (contains_other_key url_key key Hku Hk Hne)).
  assert (Hfirst : expand_hashes (url_key, [(key, link); (url_key, url_link)]) = url_link).
  { unfold expand_hashes. cbn [fold_left fst snd].
    rewrite (replace_key_absent key link url_key Hk Hgone).
    exact (replace_key_self url_key url_link Hku). }
  split; [exact Hfree|]. split; [exact Hfind|]. split; [exact Hpasses|].
  split; [exact Hgone|]. split; [exact Hfirst|]. split.
  - unfold expand_hashes. cbn [fold_left fst snd].
    rewrite (replace_key_self url_key url_link Hku).
    unfold url_link, url, anchor.
    rewrite <- !app_assoc.
    rewrite (replace_key_clean key link (lit "<a href=") _ Hk eq_refl).
    rewrite (replace_key_clean key link [dquote] _ Hk eq_refl).
    rewrite (replace_key_clean key link (lit "http://a.b/") _ Hk eq_refl).
    rewrite (replace_key_here key link _ Hk).
    rewrite (replace_key_clean key link [dquote] _ Hk eq_refl).
    rewrite (replace_key_clean key link (lit ">") _ Hk eq_refl).
    rewrite (replace_key_clean key link (lit "http://a.b/") _ Hk eq_refl).
    rewrite (replace_key_here key link _ Hk).
    rewrite (replace_key_none key link (lit "</a>") Hk eq_refl).
    reflexivity.
  - unfold _do_link_patterns. rewrite Hpasses. cbn [bind]. now rewrite Hfirst.
Qed.

Lemma contains_step (c : ascii) (s p : str) :
  Py.startswith (c :: s) p = false -> Py.contains (c :: s) p = Py.contains s p.
Proof. intros H. cbn [Py.contains]. now rewrite H. Qed.

Lemma key_no_bracket (k : str) :
  forallb key_char k = true -> forallb (fun c => negb (Ascii.eqb "<" c)) k = true.
Proof.
  apply forallb_weaken. intros c Hc.
  destruct (key_char_classes c Hc) as (_ & _ & _ & _ & Hb). now rewrite Hb.
Qed.

(** The orders in which three entries can be visited. *)
Lemma perm3 (A : Type) (a b c : A) (l : list A) :
  Permutation [a; b; c] l ->
  l = [a; b; c] \/ l = [a; c; b] \/ l = [b; a; c] \/
  l = [b; c; a] \/ l = [c; a; b] \/ l = [c; b; a].
Proof.
  intros H.
  destruct (Permutation_vs_cons_inv (Permutation_sym H)) as (l1 & l2 & ->).
  apply Permutation_cons_app_inv in H.
  apply Permutation_length_2_inv in H.
  destruct l1 as [|x [|y [|z l1]]]; cbn [app] in *.
  - destruct H as [->| ->]; auto.
  - destruct H as [H|H]; injection H as -> ->; auto 10.
  - destruct H as [H|H]; injection H as -> -> ->; auto 10.
  - destruct H as [H|H]; discriminate H.
Qed.

(** One step of [replace] through a text made of keys and of stretches
    without an [m]. *)
Ltac key_step :=
  match goal with
  | Hk : md5_key ?k = true |- context [Py.replace (?k ++ ?rest) ?k ?v] =>
      rewrite (replace_key_here k v rest Hk)
  | Hk : md5_key ?k = true |- context [Py.replace ?k ?k ?v] =>
      rewrite (replace_key_self k v Hk)
  | Hk : md5_key ?k = true, Hk' : md5_key ?k' = true
    |- context [Py.replace (?k' ++ ?rest) ?k ?v] =>
      rewrite (replace_key_other k k' v rest Hk Hk') by congruence
  | Hk : md5_key ?k = true, Hk' : md5_key ?k' = true
    |- context [Py.replace ?k' ?k ?v] =>
      rewrite (replace_key_other_end k k' v Hk Hk') by congruence
  | Hk : md5_key ?k = true |- context [Py.replace (?s ++ ?rest) ?k ?v] =>
      rewrite (replace_key_clean k v s rest Hk eq_refl)
  | Hk : md5_key ?k = true |- context [Py.replace ?s ?k ?v] =>
      rewrite (replace_key_none k v s Hk eq_refl)
  end.

(** C1.  Not every free link of a document gets its anchor.  In
    [http://a.b/[[A]] [[B]]], under the registry [render] builds (with the
    tenant patterns or without) and with keys of markdown2's shape that
    differ from one another, the free-link pattern finds both links and
    its pass puts the placeholder of each in its place.  The bare-URL pass
    then takes the placeholder of [[[A]]] for the end of the URL before
    it, so the text handed to the final loop is the placeholder of the URL
    and that of [[[B]]], and the key of [[[A]]] occurs nowhere in it.  The
    output is an anchor for the URL, with the raw key of [[[A]]] in its
    href and its label, and the anchor of [[[B]]]; the anchor of [[[A]]]
    occurs nowhere in it.  That is the final loop visiting the entries in
    the order in which they were assigned; in whatever order it visits
    them, the output is either this or the same with the anchor of
    [[[A]]] written into the href and into the label of the URL's
    anchor. *)
Theorem free_link_after_url_gets_no_anchor (env : environ W) (base : str)
        (lp : list (regex * repl)) :
  let doc := lit "http://a.b/[[A]] [[B]]" in
  let link_a := anchor (lit "A") (lit "A") in
  let link_b := anchor (lit "B") (lit "B") in
  let key_a := _hash_text link_a in
  let key_b := _hash_text link_b in
  let url := lit "http://a.b/" ++ key_a in
  let url_link := anchor url url in
  let url_key := _hash_text url_link in
  wiki_link_base env = Some base ->
  link_patterns_of env = OK lp ->
  md5_key key_a = true -> md5_key key_b = true -> md5_key url_key = true ->
  key_a <> key_b -> key_a <> url_key -> key_b <> url_key ->
  finditer freelink doc = [mkMatch (11, 16) [lit "A"]; mkMatch (17, 22) [lit "B"]] /\
  link_pass (doc, []) (freelink, Callback (FreeLinker base)) =
    OK (lit "http://a.b/" ++ key_a ++ lit " " ++ key_b,
        [(key_b, link_b); (key_a, link_a)]) /\
  foldM link_pass lp (doc, []) =
    OK (url_key ++ lit " " ++ key_b,
        [(key_b, link_b); (key_a, link_a); (url_key, url_link)]) /\
  Py.contains (url_key ++ lit " " ++ key_b) key_a = false /\
  _do_link_patterns lp doc = OK (url_link ++ lit " " ++ link_b) /\
  Py.contains (url_link ++ lit " " ++ link_b) link_a = false /\
  (forall items,
      Permutation [(key_b, link_b); (key_a, link_a); (url_key, url_link)] items ->
      expand_hashes (url_key ++ lit " " ++ key_b, items) =
        url_link ++ lit " " ++ link_b \/
      expand_hashes (url_key ++ lit " " ++ key_b, items) =
        anchor (lit "http://a.b/" ++ link_a) (lit "http://a.b/" ++ link_a) ++
        lit " " ++ link_b).
Proof.
  intros doc link_a link_b key_a key_b url url_link url_key
         Hb Hlp Ha Hkb Hu Hab Hau Hbu.
  pose proof (md5_key_chars key_a Ha) as Hca.
  pose proof (md5_key_chars key_b Hkb) as Hcb.
  set (text1 := lit "http://a.b/" ++ key_a ++ lit " " ++ key_b).
  set (M1 := [(key_b, link_b); (key_a, link_a)]).
  assert (Hfree : link_pass (doc, []) (freelink, Callback (FreeLinker base)) =
                  OK (text1, M1)).
  { transitivity (OK (E:=E) (lit "http://a.b/" ++ key_a ++ lit " " ++ key_b ++ [],
                             remember [(key_b, link_b)] link_a)); [reflexivity|].
    unfold remember. cbn [dict_set]. fold key_a.
    rewrite (str_neqb key_b key_a) by congruence.
    unfold text1, M1. now rewrite app_nil_r. }
  assert (Hwiki : link_pass (text1, M1) (wikilink, Template (lit "\1")) =
                  OK (text1, M1)).
  { apply link_pass_no_match. cbn [fst]. apply no_capital_no_wikilink.
    unfold text1. rewrite !forallb_app.
    now rewrite (key_no_capital key_a Hca), (key_no_capital key_b Hcb). }
  assert (Hurl : link_pass (text1, M1) (barelink, Template (lit "\1")) =
                 OK (url_key ++ lit " " ++ key_b,
                     [(key_b, link_b); (key_a, link_a); (url_key, url_link)])).
  { etransitivity.
    - apply (url_pass_takes_key key_a (lit " " ++ key_b) M1 Ha eq_refl).
      intros c [<-|Hin]; [reflexivity | exact (key_no_h key_b c Hcb Hin)].
    - unfold remember, M1. cbn [dict_set]. fold url url_link url_key.
      now rewrite (str_neqb key_b url_key Hbu), (str_neqb key_a url_key Hau). }
  assert (Hpasses : foldM link_pass lp (doc, []) =
                    OK (url_key ++ lit " " ++ key_b,
                        [(key_b, link_b); (key_a, link_a); (url_key, url_link)])).
  { rewrite (link_patterns_of_configured env base Hb) in Hlp. injection Hlp as <-.
    apply tenant_passes_skip; try reflexivity.
    apply passes_step with (st' := (text1, M1)); [exact Hfree|].
    apply passes_step with (st' := (text1, M1)); [exact Hwiki|].
    eapply passes_step; [exact Hurl | reflexivity]. }
  split; [reflexivity|]. split; [exact Hfree|]. split; [exact Hpasses|].
  split; [|split; [|split]].
  - rewrite (contains_key url_key key_a _ Hu Ha), (str_neqb key_a url_key Hau).
    rewrite (contains_key_clean key_a (lit " ") key_b Ha eq_refl).
    exact (contains_other_key key_b key_a Hkb Ha Hab).
  - unfold _do_link_patterns. rewrite Hpasses. cbn [bind]. f_equal.
    unfold expand_hashes. cbn [fold_left fst snd].
    rewrite (replace_key_other key_b url_key link_b _ Hkb Hu Hbu).
    rewrite (replace_key_clean key_b link_b (lit " ") key_b Hkb eq_refl).
    rewrite (replace_key_self key_b link_b Hkb).
    rewrite (replace_key_other key_a url_key link_a _ Ha Hu Hau).
    rewrite (replace_key_none key_a link_a (lit " " ++ link_b) Ha eq_refl).
    rewrite (replace_key_here url_key url_link _ Hu).
    rewrite (replace_key_none url_key url_link (lit " " ++ link_b) Hu eq_refl).
    reflexivity.
  - pose proof (key_no_bracket key_a Hca) as Hna.
    unfold url_link, url, anchor. rewrite <- !app_assoc.
    change (lit "<a href=" ++ ?x) with ("<"%char :: lit "a href=" ++ x).
    change link_a with ("<"%char :: tl link_a).
    rewrite contains_step by reflexivity.
    rewrite (contains_clean "<" _ (lit "a href=") _ eq_refl).
    rewrite (contains_clean "<" _ [dquote] _ eq_refl).
    rewrite (contains_clean "<" _ (lit "http://a.b/") _ eq_refl).
    rewrite (contains_clean "<" _ key_a _ Hna).
    rewrite (contains_clean "<" _ [dquote] _ eq_refl).
    rewrite (contains_clean "<" _ (lit ">") _ eq_refl).
    rewrite (contains_clean "<" _ (lit "http://a.b/") _ eq_refl).
    rewrite (contains_clean "<" _ key_a _ Hna).
    reflexivity.
  - intros items Hperm.
    assert (Hshape : forall x rest,
               anchor (lit "http://a.b/" ++ x) (lit "http://a.b/" ++ x) ++ rest =
               (lit "<a href=" ++ [dquote] ++ lit "http://a.b/") ++ x ++
               ([dquote] ++ lit ">" ++ lit "http://a.b/") ++ x ++ lit "</a>" ++ rest).
    { intros x rest. unfold anchor. rewrite <- !app_assoc. reflexivity. }
    apply perm3 in Hperm. unfold expand_hashes.
    unfold url_link, url in Hperm |- *.
    destruct Hperm as [->|[->|[->|[->|[->| ->]]]]]; cbn [fold_left fst snd].
    all: repeat first [key_step | rewrite Hshape].
    all: first [left; reflexivity | right; reflexivity].
Qed.

End Markdown.

(** * Runs of the model

    The statements above at concrete inputs, with MD5 for the hashing
    utility and the sample collaborators. *)

(** The scenario of two free links side by side. *)
Example two_free_links :
  _do_link_patterns MD5.g_escape_table MD5._hash_text
    [(freelink, Callback (FreeLinker String.string []))] (lit "[[A]] [[B]]") =
  OK (anchor (lit "A") (lit "A") ++ lit " " ++ anchor (lit "B") (lit "B")).
Proof. vm_compute. reflexivity. Qed.

(** The scenario of a labelled free link in a sentence. *)
Example labelled_free_link :
  _do_link_patterns MD5.g_escape_table MD5._hash_text
    [(freelink, Callback (FreeLinker String.string []))]
    (lit "Visit [[My Page|somewhere]] now") =
  OK (lit "Visit " ++ anchor (lit "somewhere") (lit "My Page") ++ lit " now").
Proof. vm_compute. reflexivity. Qed.

Example free_linker_runs :
  FreeLinker String.string [] (mkMatch (6, 27) [lit "My Page" ++ "|"%char :: lit "somewhere"]) =
    OK (Pair (lit "somewhere") (Some (lit "My Page"))) /\
  FreeLinker String.string [] (mkMatch (0, 5) [lit "A"]) =
    OK (Pair (lit "A") (Some (lit "A"))) /\
  (exists link,
      groups (mkMatch (6, 11) [lit "B"]) = [link] /\
      raw (lit "[[A]] [[B]]") (mkMatch (6, 11) [lit "B"]) =
        lit "[[" ++ link ++ lit "]]").
Proof.
  destruct (free_links_split_and_stay_apart String.string MD5.g_escape_table
              MD5._hash_text []) as (H1 & H2 & H3 & _).
  split; [|split].
  - apply H1. absent.
  - apply H2. absent.
  - apply H3. vm_compute. right. left. reflexivity.
Qed.

(** C2 as stated fails: with the tenant patterns available the registry
    does not start with space-link, space-wiki-link, space-free-link. *)
Lemma registry_order_counterexample :
  exists lp,
    link_patterns_of true Sample.space_uri Sample.encode_name (Sample.env (Some [])) =
      OK lp /\
    map fst lp <>
      [spacelink; spacewikilink; spacefreelink; freelink; wikilink; barelink].
Proof.
  eexists. split; [reflexivity|].
  vm_compute. intros H. discriminate H.
Qed.

Lemma registry_order_witness :
  link_patterns_of true Sample.space_uri Sample.encode_name (Sample.env (Some [])) =
    OK [(spacefreelink,
         Callback (SpaceLinker Sample.space_uri Sample.encode_name (Sample.env (Some []))));
        (spacewikilink,
         Callback (SpaceLinker Sample.space_uri Sample.encode_name (Sample.env (Some []))));
        (spacelink,
         Callback (SpaceLinker Sample.space_uri Sample.encode_name (Sample.env (Some []))));
        (freelink, Callback (FreeLinker String.string []));
        (wikilink, Template String.string (lit "\1"));
        (barelink, Template String.string (lit "\1"))] /\
  link_patterns_of false Sample.space_uri Sample.encode_name (Sample.env (Some [])) =
    OK [(freelink, Callback (FreeLinker String.string []));
        (wikilink, Template String.string (lit "\1"));
        (barelink, Template String.string (lit "\1"))].
Proof.
  split.
  - exact (registry_order String.string unit true Sample.space_uri Sample.encode_name
             (Sample.env (Some [])) [] eq_refl).
  - exact (registry_order String.string unit false Sample.space_uri Sample.encode_name
             (Sample.env (Some [])) [] eq_refl).
Defined.

Lemma no_base_no_links_witness :
  wiki_link_base (Sample.env None) = None /\
  link_patterns_of true Sample.space_uri Sample.encode_name (Sample.env None) = OK [] /\
  _do_link_patterns (E:=String.string) MD5.g_escape_table MD5._hash_text []
    (lit "[[A]] FooBar http://a.b @acme") = OK (lit "[[A]] FooBar http://a.b @acme") /\
  render true Sample.space_uri Sample.encode_name MD5.g_escape_table MD5._hash_text
    Sample.convert (mkTiddler (lit "[[A]] FooBar http://a.b @acme")) (Sample.env None) =
    OK (lit "<p>[[A]] FooBar http://a.b @acme</p>").
Proof.
  destruct (no_base_no_links String.string unit true Sample.space_uri Sample.encode_name
              MD5.g_escape_table MD5._hash_text Sample.convert
              (mkTiddler (lit "[[A]] FooBar http://a.b @acme")) (Sample.env None)
              eq_refl) as (H1 & H2 & H3).
  split; [reflexivity|]. split; [exact H1|]. split; [|exact H3].
  exact (proj2 (H2 (lit "[[A]] FooBar http://a.b @acme"))).
Defined.

Lemma spliced_anchor_format_witness :
  ~ In "_"%char (MD5.g_escape_table "*") /\
  link_pass MD5.g_escape_table MD5._hash_text (lit "see [[T|a*b_c]]", [])
    (freelink, Callback (FreeLinker String.string [])) =
  OK (lit "see " ++
      MD5._hash_text
        (lit "<a href=" ++ [dquote] ++
         lit "a" ++ MD5.g_escape_table "*" ++ lit "b" ++ MD5.g_escape_table "_" ++ lit "c" ++
         [dquote] ++ lit ">T</a>"),
      [(MD5._hash_text
          (lit "<a href=" ++ [dquote] ++
           lit "a" ++ MD5.g_escape_table "*" ++ lit "b" ++ MD5.g_escape_table "_" ++ lit "c" ++
           [dquote] ++ lit ">T</a>"),
        lit "<a href=" ++ [dquote] ++
        lit "a" ++ MD5.g_escape_table "*" ++ lit "b" ++ MD5.g_escape_table "_" ++ lit "c" ++
        [dquote] ++ lit ">T</a>")]).
Proof.
  assert (Hg : ~ In "_"%char (MD5.g_escape_table "*")) by absent.
  split; [exact Hg|].
  etransitivity.
  - exact (spliced_anchor_format String.string MD5.g_escape_table MD5._hash_text
             (lit "see [[T|a*b_c]]") [] freelink (Callback (FreeLinker String.string []))
             [((4, 15), lit "a*b_c", Some (lit "T"))] Hg eq_refl).
  - vm_compute. reflexivity.
Defined.

(** C5 as stated fails: the href of a CamelCase word with an underscore is
    not the word. *)
Lemma same_name_href_counterexample :
  _do_link_patterns (E:=String.string) MD5.g_escape_table MD5._hash_text
    [(wikilink, Template String.string (lit "\1"))] (lit " FooBar_x") =
    OK (lit " " ++
        anchor (lit "FooBarmd5-b14a7b8059d9c055954c92674ce60032x") (lit "FooBar_x")) /\
  anchor (lit "FooBarmd5-b14a7b8059d9c055954c92674ce60032x") (lit "FooBar_x") <>
    anchor (lit "FooBar_x") (lit "FooBar_x").
Proof.
  split; [vm_compute; reflexivity|].
  vm_compute. intros H. discriminate H.
Qed.

Lemma same_name_links_witness :
  (In (mkMatch (1, 9) [lit "FooBar_x"]) (finditer wikilink (lit " FooBar_x")) \/
   In (mkMatch (1, 9) [lit "FooBar_x"]) (finditer barelink (lit " FooBar_x"))) /\
  same_name_anchor MD5.g_escape_table (lit "FooBar_x") =
    anchor (lit "FooBar" ++ MD5.g_escape_table "_" ++ lit "x") (lit "FooBar_x") /\
  same_name_anchor MD5.g_escape_table (lit "http://a.b/c") =
    anchor (lit "http://a.b/c") (lit "http://a.b/c").
Proof.
  assert (Hw : In (mkMatch (1, 9) [lit "FooBar_x"]) (finditer wikilink (lit " FooBar_x")) \/
               In (mkMatch (1, 9) [lit "FooBar_x"]) (finditer barelink (lit " FooBar_x")))
    by (left; vm_compute; left; reflexivity).
  assert (Hb : In (mkMatch (4, 16) [lit "http://a.b/c"]) (finditer wikilink (lit "see http://a.b/c")) \/
               In (mkMatch (4, 16) [lit "http://a.b/c"]) (finditer barelink (lit "see http://a.b/c")))
    by (right; vm_compute; left; reflexivity).
  split; [exact Hw|]. split.
  - destruct (proj1 (same_name_links String.string MD5.g_escape_table MD5._hash_text
                       (lit " FooBar_x"))
                    (mkMatch (1, 9) [lit "FooBar_x"]) Hw) as (_ & _ & H & _).
    exact H.
  - destruct (proj1 (same_name_links String.string MD5.g_escape_table MD5._hash_text
                       (lit "see http://a.b/c"))
                    (mkMatch (4, 16) [lit "http://a.b/c"]) Hb) as (_ & _ & _ & H).
    apply H. absent.
Defined.

Lemma space_linker_witness :
  SpaceLinker Sample.space_uri Sample.encode_name (Sample.env (Some []))
    (mkMatch (0, 6) [lit "acme"]) =
    OK (Pair (lit "http://acme.example.org/") (Some (lit "@acme"))) /\
  SpaceLinker Sample.space_uri Sample.encode_name (Sample.env (Some []))
    (mkMatch (0, 23) [lit "My Page" ++ "|"%char :: lit "some page"; lit "acme"]) =
    OK (Pair (lit "http://acme.example.org/some%20page") (Some (lit "My Page"))) /\
  SpaceLinker Sample.space_uri Sample.encode_name (Sample.env (Some []))
    (mkMatch (0, 11) [lit "FooBar"; lit "acme"]) =
    OK (Pair (lit "http://acme.example.org/FooBar") (Some (lit "FooBar"))).
Proof.
  destruct (space_linker_result String.string unit Sample.space_uri Sample.encode_name
              (Sample.env (Some [])) (0, 6)) as (H1 & _).
  destruct (space_linker_result String.string unit Sample.space_uri Sample.encode_name
              (Sample.env (Some [])) (0, 23)) as (_ & H2 & _).
  destruct (space_linker_result String.string unit Sample.space_uri Sample.encode_name
              (Sample.env (Some [])) (0, 11)) as (_ & _ & H3 & _).
  split; [|split].
  - exact (H1 (lit "acme") (lit "http://acme.example.org/") eq_refl).
  - apply (H2 (lit "My Page") (lit "some page") (lit "acme")
              (lit "http://acme.example.org/")); [absent | reflexivity].
  - apply (H3 (lit "FooBar") (lit "acme") (lit "http://acme.example.org/"));
      [absent | reflexivity].
Defined.

(** The scenario of a tenant on its own. *)
Example tenant_link :
  render true Sample.space_uri Sample.encode_name MD5.g_escape_table MD5._hash_text
    Sample.convert (mkTiddler (lit " @acme ")) (Sample.env (Some [])) =
  OK (lit "<p>" ++ anchor (lit "http://acme.example.org/") (lit "@acme") ++ lit "</p>").
Proof. vm_compute. reflexivity. Qed.

(** C7 in a run: a callback answering every match with the string [ab]. *)
Example scalar_href_is_split :
  _do_link_patterns (E:=String.string) MD5.g_escape_table MD5._hash_text
    [(wikilink, Callback (fun _ => OK (Scalar (lit "ab"))))] (lit " FooBar") =
  OK (lit " " ++ anchor (lit "a") (lit "b")).
Proof. vm_compute. reflexivity. Qed.

Example scalar_href_is_kept :
  _do_link_patterns (E:=String.string) MD5.g_escape_table MD5._hash_text
    [(wikilink, Callback (fun _ => OK (Scalar (lit "abc"))))] (lit " FooBar") =
  OK (lit " " ++ anchor (lit "abc") (lit "FooBar")).
Proof. vm_compute. reflexivity. Qed.

Lemma resolver_error_witness :
  render true Sample.space_uri Sample.encode_name MD5.g_escape_table MD5._hash_text
    Sample.convert (mkTiddler (lit "x @nosuch y [[A]]")) (Sample.env (Some [])) =
  Err (Raised "no such space").
Proof.
  refine (proj1 (resolver_error_propagates String.string unit true Sample.space_uri
                   Sample.encode_name MD5.g_escape_table MD5._hash_text Sample.convert
                   (mkTiddler (lit "x @nosuch y [[A]]")) (Sample.env (Some []))
                   [(spacefreelink,
                     Callback (SpaceLinker Sample.space_uri Sample.encode_name
                                 (Sample.env (Some []))));
                    (spacewikilink,
                     Callback (SpaceLinker Sample.space_uri Sample.encode_name
                                 (Sample.env (Some []))));
                    (spacelink,
                     Callback (SpaceLinker Sample.space_uri Sample.encode_name
                                 (Sample.env (Some []))));
                    (freelink, Callback (FreeLinker String.string []));
                    (wikilink, Template String.string (lit "\1"));
                    (barelink, Template String.string (lit "\1"))]
                   (Raised "no such space") eq_refl _)).
  apply conversion_raises_here.
  eapply raise_later; [vm_compute; reflexivity|].
  eapply raise_later; [vm_compute; reflexivity|].
  apply raise_here.
  apply pass_raises_at
    with (ms1 := []) (ms2 := []) (m := mkMatch (1, 10) [lit "nosuch"])
         (reps := []) (name := lit "nosuch");
    vm_compute; reflexivity.
Defined.

(** A placeholder next to a URL is taken for part of the URL also where a
    blank stood between them: the tenant pattern removes the blank before
    [@acme], the bare-URL pattern then matches into the placeholder, and
    the tenant's anchor never appears. *)
Example placeholder_taken_for_url :
  _do_link_patterns MD5.g_escape_table MD5._hash_text
    [(spacelink,
      Callback (SpaceLinker Sample.space_uri Sample.encode_name (Sample.env (Some []))));
     (barelink, Template String.string (lit "\1"))]
    (lit "see http://a.b/c @acme") =
  OK (lit "see " ++
      anchor (lit "http://a.b/c" ++
              MD5._hash_text (anchor (lit "http://acme.example.org/") (lit "@acme")))
             (lit "http://a.b/c" ++
              MD5._hash_text (anchor (lit "http://acme.example.org/") (lit "@acme")))).
Proof. vm_compute. reflexivity. Qed.

Example placeholders_expand_run :
  _do_link_patterns MD5.g_escape_table MD5._hash_text
    [(spacewikilink,
      Callback (SpaceLinker Sample.space_uri Sample.encode_name (Sample.env (Some []))));
     (freelink, Callback (FreeLinker String.string []))]
    (lit "[[A]] [[B|c]] FooBar@acme x") =
  OK (anchor (lit "A") (lit "A") ++ lit " " ++ anchor (lit "c") (lit "B") ++
      anchor (lit "http://acme.example.org/FooBar") (lit "FooBar") ++ lit "x").
Proof.
  destruct (placeholders_expand_when_keys_are_apart String.string
              MD5.g_escape_table MD5._hash_text
              [(spacewikilink,
                Callback (SpaceLinker Sample.space_uri Sample.encode_name
                            (Sample.env (Some []))));
               (freelink, Callback (FreeLinker String.string []))]
              (lit "[[A]] [[B|c]] FooBar@acme x")
              (MD5._hash_text (anchor (lit "A") (lit "A")) ++ lit " " ++
               MD5._hash_text (anchor (lit "c") (lit "B")) ++
               MD5._hash_text (anchor (lit "http://acme.example.org/FooBar") (lit "FooBar")) ++
               lit "x")
              [(MD5._hash_text (anchor (lit "http://acme.example.org/FooBar") (lit "FooBar")),
                anchor (lit "http://acme.example.org/FooBar") (lit "FooBar"));
               (MD5._hash_text (anchor (lit "c") (lit "B")), anchor (lit "c") (lit "B"));
               (MD5._hash_text (anchor (lit "A") (lit "A")), anchor (lit "A") (lit "A"))])
    as (_ & Hfinal & _).
  - vm_compute. reflexivity.
  - etransitivity.
    + apply (Hfinal [Hole (anchor (lit "A") (lit "A")); Gap (lit " ");
                     Hole (anchor (lit "c") (lit "B"));
                     Hole (anchor (lit "http://acme.example.org/FooBar") (lit "FooBar"));
                     Gap (lit "x")]); vm_compute; reflexivity.
    + vm_compute. reflexivity.
Qed.

Lemma title_is_not_escaped_witness :
  splice_one MD5.g_escape_table MD5._hash_text (lit "see [[L|h_1]] there", [])
    ((4, 13), lit "h_1", Some (lit "a" ++ [dquote] ++ lit "*_<b")) =
  (lit "see " ++
   MD5._hash_text (lit "<a href=" ++ [dquote] ++ lit "h" ++ MD5.g_escape_table "_" ++
                   lit "1" ++ [dquote] ++ lit ">" ++
                   lit "a" ++ [dquote] ++ lit "*_<b" ++ lit "</a>") ++
   lit " there",
   [(MD5._hash_text (lit "<a href=" ++ [dquote] ++ lit "h" ++ MD5.g_escape_table "_" ++
                     lit "1" ++ [dquote] ++ lit ">" ++
                     lit "a" ++ [dquote] ++ lit "*_<b" ++ lit "</a>"),
     lit "<a href=" ++ [dquote] ++ lit "h" ++ MD5.g_escape_table "_" ++
     lit "1" ++ [dquote] ++ lit ">" ++ lit "a" ++ [dquote] ++ lit "*_<b" ++ lit "</a>")]) /\
  shown_title (Some (lit "a" ++ [dquote] ++ lit "*_<b")) (lit "[[L|h_1]]") =
    lit "a" ++ [dquote] ++ lit "*_<b".
Proof.
  destruct (title_is_not_escaped MD5.g_escape_table MD5._hash_text
              (lit "see [[L|h_1]] there") [] 4 13 (lit "h_1")
              (Some (lit "a" ++ [dquote] ++ lit "*_<b"))) as (H1 & _ & H3).
  split.
  - etransitivity; [exact H1 | vm_compute; reflexivity].
  - apply H3; [reflexivity | discriminate].
Defined.

(** C10 in a run: the label of a free link with a double quote, a star, an
    underscore and an angle bracket in it. *)
Example label_reaches_output :
  _do_link_patterns MD5.g_escape_table MD5._hash_text
    [(freelink, Callback (FreeLinker String.string []))]
    (lit "[[a" ++ [dquote] ++ lit "*_<b|page]]") =
  OK (lit "<a href=" ++ [dquote] ++ lit "page" ++ [dquote] ++ lit ">" ++
      lit "a" ++ [dquote] ++ lit "*_<b" ++ lit "</a>").
Proof. vm_compute. reflexivity. Qed.

(** ** Runs of the further facts *)

Lemma render_raises_only_resolver_errors_witness :
  (exists name,
      Sample.space_uri (Sample.env (Some [])) name = Err (Raised "no such space")) /\
  (exists html,
      render false Sample.space_uri Sample.encode_name MD5.g_escape_table
        MD5._hash_text Sample.convert (mkTiddler (lit "x @nosuch y [[A]]"))
        (Sample.env (Some [])) = OK html).
Proof.
  split.
  - apply (proj1 (render_raises_only_resolver_errors String.string unit true
                    Sample.space_uri Sample.encode_name MD5.g_escape_table
                    MD5._hash_text Sample.convert
                    (mkTiddler (lit "x @nosuch y [[A]]")) (Sample.env (Some [])))
                 (Raised "no such space")).
    vm_compute. reflexivity.
  - apply (proj2 (render_raises_only_resolver_errors String.string unit false
                    Sample.space_uri Sample.encode_name MD5.g_escape_table
                    MD5._hash_text Sample.convert
                    (mkTiddler (lit "x @nosuch y [[A]]")) (Sample.env (Some [])))).
    left. reflexivity.
Defined.

Lemma camelcase_match_shape_witness :
  In (mkMatch (4, 13) [lit "FooBar_x1"]) (finditer wikilink (lit "see FooBar_x1, ok")) /\
  word_at (lit "see FooBar_x1, ok") 13 = false /\
  forallb is_word (raw (lit "see FooBar_x1, ok") (mkMatch (4, 13) [lit "FooBar_x1"])) = true.
Proof.
  assert (Hm : In (mkMatch (4, 13) [lit "FooBar_x1"])
                  (finditer wikilink (lit "see FooBar_x1, ok")))
    by (vm_compute; left; reflexivity).
  destruct (camelcase_match_shape (lit "see FooBar_x1, ok")
              (mkMatch (4, 13) [lit "FooBar_x1"]) Hm)
    as (_ & _ & _ & _ & _ & _ & Hw & Hend).
  split; [exact Hm|]. split; [exact Hend | exact Hw].
Defined.

Lemma bare_url_match_shape_witness :
  In (mkMatch (4, 17) [lit "https://a.b/c"]) (finditer barelink (lit "see https://a.b/c now")) /\
  (exists rest,
      rest <> [] /\ forallb (in_cls url_char) rest = true /\
      (raw (lit "see https://a.b/c now") (mkMatch (4, 17) [lit "https://a.b/c"]) =
         lit "http://" ++ rest \/
       raw (lit "see https://a.b/c now") (mkMatch (4, 17) [lit "https://a.b/c"]) =
         lit "https://" ++ rest)).
Proof.
  assert (Hm : In (mkMatch (4, 17) [lit "https://a.b/c"])
                  (finditer barelink (lit "see https://a.b/c now")))
    by (vm_compute; left; reflexivity).
  split; [exact Hm|].
  exact (proj1 (proj2 (bare_url_match_shape (lit "see https://a.b/c now")
                         (mkMatch (4, 17) [lit "https://a.b/c"]) Hm))).
Defined.

Lemma tenant_match_shape_witness :
  In (mkMatch (1, 8) [lit "acme"])
     (finditer spacelink (lit "a @acme" ++ ["010"%char])) /\
  (exists lead name trail,
      groups (mkMatch (1, 8) [lit "acme"]) = [name] /\
      raw (lit "a @acme" ++ ["010"%char]) (mkMatch (1, 8) [lit "acme"]) =
        lead ++ "@"%char :: name ++ trail /\
      tenant_name name /\
      blank_or lead (start_of (mkMatch (1, 8) [lit "acme"]) = 0) /\
      blank_or trail
        (end_of (mkMatch (1, 8) [lit "acme"]) = length (lit "a @acme" ++ ["010"%char]))).
Proof.
  assert (Hm : In (mkMatch (1, 8) [lit "acme"])
                  (finditer spacelink (lit "a @acme" ++ ["010"%char])))
    by (vm_compute; left; reflexivity).
  split; [exact Hm|].
  exact (tenant_match_shape (lit "a @acme" ++ ["010"%char])
           (mkMatch (1, 8) [lit "acme"]) Hm).
Defined.

Lemma tenant_page_match_shape_witness :
  In (mkMatch (1, 14) [lit "FooBar"; lit "acme"])
     (finditer spacewikilink (lit "x FooBar@acme y")) /\
  In (mkMatch (1, 14) [lit "a|b"; lit "acme"])
     (finditer spacefreelink (lit "x [[a|b]]@acme")) /\
  (exists lead page name trail,
      groups (mkMatch (1, 14) [lit "FooBar"; lit "acme"]) = [page; name] /\
      raw (lit "x FooBar@acme y") (mkMatch (1, 14) [lit "FooBar"; lit "acme"]) =
        lead ++ page ++ "@"%char :: name ++ trail /\
      4 <= length page /\ forallb is_word page = true /\ tenant_name name /\
      blank_or lead (start_of (mkMatch (1, 14) [lit "FooBar"; lit "acme"]) = 0) /\
      blank_or trail
        (end_of (mkMatch (1, 14) [lit "FooBar"; lit "acme"]) =
           length (lit "x FooBar@acme y"))) /\
  (exists lead link name trail,
      groups (mkMatch (1, 14) [lit "a|b"; lit "acme"]) = [link; name] /\
      raw (lit "x [[a|b]]@acme") (mkMatch (1, 14) [lit "a|b"; lit "acme"]) =
        lead ++ lit "[[" ++ link ++ lit "]]" ++ "@"%char :: name ++ trail /\
      link <> [] /\ forallb (in_cls Dot) link = true /\ tenant_name name /\
      blank_or lead (start_of (mkMatch (1, 14) [lit "a|b"; lit "acme"]) = 0) /\
      blank_or trail
        (end_of (mkMatch (1, 14) [lit "a|b"; lit "acme"]) =
           length (lit "x [[a|b]]@acme"))).
Proof.
  assert (Hw : In (mkMatch (1, 14) [lit "FooBar"; lit "acme"])
                  (finditer spacewikilink (lit "x FooBar@acme y")))
    by (vm_compute; left; reflexivity).
  assert (Hf : In (mkMatch (1, 14) [lit "a|b"; lit "acme"])
                  (finditer spacefreelink (lit "x [[a|b]]@acme")))
    by (vm_compute; left; reflexivity).
  split; [exact Hw|]. split; [exact Hf|]. split.
  - exact (proj1 (tenant_page_match_shape (lit "x FooBar@acme y")
                    (mkMatch (1, 14) [lit "FooBar"; lit "acme"])) Hw).
  - exact (proj2 (tenant_page_match_shape (lit "x [[a|b]]@acme")
                    (mkMatch (1, 14) [lit "a|b"; lit "acme"])) Hf).
Defined.

Lemma free_link_is_shortest_witness :
  In (mkMatch (0, 9) [lit "a]b|c"]) (finditer freelink (lit "[[a]b|c]] d]]")) /\
  (exists link,
      groups (mkMatch (0, 9) [lit "a]b|c"]) = [link] /\ link <> [] /\
      forallb (in_cls Dot) link = true /\
      (forall k,
          1 <= k -> k < length link ->
          Py.startswith
            (Py.from (lit "[[a]b|c]] d]]") (start_of (mkMatch (0, 9) [lit "a]b|c"]) + 2 + k))
            (lit "]]") = false)).
Proof.
  assert (Hm : In (mkMatch (0, 9) [lit "a]b|c"]) (finditer freelink (lit "[[a]b|c]] d]]")))
    by (vm_compute; left; reflexivity).
  split; [exact Hm|].
  exact (free_link_is_shortest (lit "[[a]b|c]] d]]") (mkMatch (0, 9) [lit "a]b|c"]) Hm).
Defined.

Lemma quiet_text_is_untouched_witness :
  forallb quiet (lit "plain prose, nothing to link here.") = true /\
  exists lp,
    link_patterns_of true Sample.space_uri Sample.encode_name (Sample.env (Some [])) =
      OK lp /\
    _do_link_patterns MD5.g_escape_table MD5._hash_text lp
      (lit "plain prose, nothing to link here.") =
    OK (lit "plain prose, nothing to link here.").
Proof.
  split; [vm_compute; reflexivity|].
  eexists. split; [reflexivity|].
  apply (proj2 (quiet_text_is_untouched String.string unit true Sample.space_uri
                  Sample.encode_name MD5.g_escape_table MD5._hash_text
                  (lit "plain prose, nothing to link here."))
               (Sample.env (Some []))).
  - reflexivity.
  - vm_compute. reflexivity.
Defined.

Lemma link_base_is_a_switch_witness :
  render true Sample.space_uri Sample.encode_name MD5.g_escape_table MD5._hash_text
    Sample.convert (mkTiddler (lit "[[A]] FooBar @acme")) (Sample.env (Some [])) =
  render true Sample.space_uri Sample.encode_name MD5.g_escape_table MD5._hash_text
    Sample.convert (mkTiddler (lit "[[A]] FooBar @acme")) (Sample.env (Some (lit "/wiki/"))).
Proof.
  apply (link_base_is_a_switch String.string unit true Sample.space_uri Sample.encode_name
           MD5.g_escape_table MD5._hash_text Sample.convert
           (mkTiddler (lit "[[A]] FooBar @acme"))
           (Sample.env (Some [])) (Sample.env (Some (lit "/wiki/"))) [] (lit "/wiki/")).
  - reflexivity.
  - reflexivity.
  - intros name. reflexivity.
Defined.

Lemma escaped_href_is_inert_witness :
  existsb special (MD5.g_escape_table "*") = false /\
  existsb special (MD5.g_escape_table "_") = false /\
  existsb special
    (escape_href MD5.g_escape_table (lit "a" ++ [dquote] ++ lit "b*c_d")) = false.
Proof.
  assert (Hs : existsb special (MD5.g_escape_table "*") = false)
    by (vm_compute; reflexivity).
  assert (Hu : existsb special (MD5.g_escape_table "_") = false)
    by (vm_compute; reflexivity).
  split; [exact Hs|]. split; [exact Hu|].
  exact (escaped_href_is_inert MD5.g_escape_table _ Hs Hu).
Defined.

Lemma replacements_are_ascending_witness :
  ascending 0 (length (lit "[[A]] [[B|c]]"))
    (map span_of [((0, 5), lit "A", Some (lit "A")); ((6, 13), lit "c", Some (lit "B"))]).
Proof.
  exact (proj2 (replacements_are_ascending String.string freelink
                  (Callback (FreeLinker String.string [])) (lit "[[A]] [[B|c]]")
                  [((0, 5), lit "A", Some (lit "A")); ((6, 13), lit "c", Some (lit "B"))]
                  eq_refl)).
Defined.

Lemma text_without_keys_is_kept_witness :
  expand_hashes
    (lit "no key in here",
     [(MD5._hash_text (anchor (lit "A") (lit "A")), anchor (lit "A") (lit "A"))]) =
  lit "no key in here".
Proof.
  apply text_without_keys_is_kept.
  intros k v [H|[]]. injection H as <- <-.
  split; [discriminate | vm_compute; reflexivity].
Defined.

(** ** Runs of the placeholder facts *)

Lemma free_link_after_url_gets_no_anchor_witness :
  exists lp,
    link_patterns_of true Sample.space_uri Sample.encode_name (Sample.env (Some [])) =
      OK lp /\
    _do_link_patterns MD5.g_escape_table MD5._hash_text lp
      (lit "http://a.b/[[A]] [[B]]") =
    OK (anchor (lit "http://a.b/" ++ MD5._hash_text (anchor (lit "A") (lit "A")))
               (lit "http://a.b/" ++ MD5._hash_text (anchor (lit "A") (lit "A"))) ++
        lit " " ++ anchor (lit "B") (lit "B")).
Proof.
  eexists. split; [reflexivity|].
  refine (proj1 (proj2 (proj2 (proj2 (proj2
            (free_link_after_url_gets_no_anchor String.string unit true
               Sample.space_uri Sample.encode_name MD5.g_escape_table MD5._hash_text
               (Sample.env (Some [])) [] _ eq_refl eq_refl _ _ _ _ _ _)))))).
  all: try (vm_compute; reflexivity).
  all: intros H; vm_compute in H; discriminate H.
Defined.

Lemma placeholder_is_taken_for_text_witness :
  exists lp,
    link_patterns_of false Sample.space_uri Sample.encode_name (Sample.env (Some [])) =
      OK lp /\
    _do_link_patterns MD5.g_escape_table MD5._hash_text lp (lit "http://a.b/[[A]]") =
    OK (anchor (lit "http://a.b/" ++ MD5._hash_text (anchor (lit "A") (lit "A")))
               (lit "http://a.b/" ++ MD5._hash_text (anchor (lit "A") (lit "A")))).
Proof.
  eexists. split; [reflexivity|].
  refine (proj2 (proj2 (proj2 (proj2 (proj2 (proj2
            (placeholder_is_taken_for_text String.string unit false
               Sample.space_uri Sample.encode_name MD5.g_escape_table MD5._hash_text
               (Sample.env (Some [])) [] _ eq_refl eq_refl _ _ _))))))).
  all: try (vm_compute; reflexivity).
  all: intros H; vm_compute in H; discriminate H.
Defined.
